(** * tns-csi: snapshot, clone and NVMe-oF staging paths of the CSI driver

    A shallow embedding of the Go code of package [driver]:
    the snapshot ID codec, CreateSnapshot / DeleteSnapshot / ListSnapshots,
    restore from snapshot, and the NVMe-oF attach loop with its device-size
    check.

    Conventions of the embedding.
    - A Go [string] is a [string] (a sequence of bytes); an [int64] is a [Z]
      with the wrap-around written out where the code can overflow.
    - A Go [error] coming from the appliance client is its message text
      ([err.Error()]); a gRPC status error is its code.
    - Calls that leave the function (appliance API, shell-outs, clock) are
      events of a program tree [Prog]; a handler gives the answers.  The
      properties are proved for every handler.
    - [klog] output and the metrics timer do not influence control flow or
      results and are left out. *)

From Stdlib Require Import ZArith Lia String Ascii List Bool DecimalString.
From stdpp Require Import base strings list gmap.

Local Open Scope string_scope.
Local Open Scope Z_scope.

(** stdpp blocks the unfolding of [String.append]; the proofs below compute with it. *)
#[local] Arguments String.append !s1 s2 : simpl nomatch.

(* ====================================================================== *)
(** * Part I. Definitions                                                  *)
(* ====================================================================== *)

(** ** Go's [strings] package, as far as the driver uses it *)

Module strings.

(** [s[n:]] and [s[:n]] for an index [n] inside [s]. *)
Fixpoint drop (n : nat) (s : string) : string :=
  match n, s with
  | O, _ => s
  | S n', String _ s' => drop n' s'
  | S _, EmptyString => EmptyString
  end.

Fixpoint take (n : nat) (s : string) : string :=
  match n, s with
  | O, _ => EmptyString
  | S n', String c s' => String c (take n' s')
  | S _, EmptyString => EmptyString
  end.

Definition len (s : string) : Z := Z.of_nat (String.length s).

(** [s[i:]], [s[:i]], [s[i:j]] with Go's [int] indices. *)
Definition from (s : string) (i : Z) : string := drop (Z.to_nat i) s.
Definition upto (s : string) (i : Z) : string := take (Z.to_nat i) s.
Definition slice (s : string) (i j : Z) : string :=
  take (Z.to_nat (j - i)) (drop (Z.to_nat i) s).

Definition HasPrefix (s pre : string) : bool := String.prefix pre s.

Definition TrimPrefix (s pre : string) : string :=
  if HasPrefix s pre then drop (String.length pre) s else s.

(** Index of the first instance of [substr] in [s], or -1. *)
Fixpoint Index (s substr : string) : Z :=
  if String.prefix substr s then 0
  else match s with
       | EmptyString => -1
       | String _ s' =>
           let i := Index s' substr in
           if i =? -1 then -1 else i + 1
       end.

(** Index of the last instance of [substr] in [s], or -1. *)
Fixpoint LastIndex (s substr : string) : Z :=
  match s with
  | EmptyString => if String.prefix substr EmptyString then 0 else -1
  | String _ s' =>
      let i := LastIndex s' substr in
      if i =? -1 then (if String.prefix substr s then 0 else -1) else i + 1
  end.

Definition Contains (s substr : string) : bool := 0 <=? Index s substr.

Definition HasSuffix (s suf : string) : bool :=
  (String.length suf <=? String.length s)%nat &&
  String.eqb (drop (String.length s - String.length suf) s) suf.

Definition TrimSuffix (s suf : string) : string :=
  if HasSuffix s suf then take (String.length s - String.length suf) s else s.

(** [strings.Split(s, sep)] for a non-empty [sep]: [skip] counts the bytes
    of a separator still to be passed over, [cur] is the piece being read. *)
Fixpoint splitFrom (sep : string) (skip : nat) (cur s : string) : list string :=
  match s with
  | EmptyString => [cur]
  | String c s' =>
      match skip with
      | S k => splitFrom sep k cur s'
      | O => if String.prefix sep s
             then cur :: splitFrom sep (String.length sep - 1) EmptyString s'
             else splitFrom sep O (cur +:+ String c EmptyString) s'
      end
  end.

Definition Split (s sep : string) : list string := splitFrom sep O EmptyString s.

Fixpoint Join (elems : list string) (sep : string) : string :=
  match elems with
  | [] => EmptyString
  | [x] => x
  | x :: rest => x +:+ sep +:+ Join rest sep
  end.

End strings.

(** ** gRPC status codes and errors *)

Module codes.
Inductive Code : Set :=
| OK | Canceled | Unknown | InvalidArgument | DeadlineExceeded | NotFound
| AlreadyExists | PermissionDenied | ResourceExhausted | FailedPrecondition
| Aborted | OutOfRange | Unimplemented | Internal | Unavailable | DataLoss
| Unauthenticated.

Definition eqb (a b : Code) : bool :=
  match a, b with
  | OK, OK | Canceled, Canceled | Unknown, Unknown
  | InvalidArgument, InvalidArgument | DeadlineExceeded, DeadlineExceeded
  | NotFound, NotFound | AlreadyExists, AlreadyExists
  | PermissionDenied, PermissionDenied | ResourceExhausted, ResourceExhausted
  | FailedPrecondition, FailedPrecondition | Aborted, Aborted
  | OutOfRange, OutOfRange | Unimplemented, Unimplemented
  | Internal, Internal | Unavailable, Unavailable | DataLoss, DataLoss
  | Unauthenticated, Unauthenticated => true
  | _, _ => false
  end.
End codes.

(** A Go [error] value: its message. *)
Definition error := string.

(** A value of [(T, error)] for a pointer or value result: the result is
    only looked at when the error is nil. *)
Inductive result (E A : Type) : Type :=
| Ok (a : A)
| Err (e : E).
Arguments Ok {E A} a.
Arguments Err {E A} e.

(** The outcome of an RPC handler: a response, or a status error of which
    the code is kept. *)
Abbreviation rpc A := (result codes.Code A).

(** ** Constants of the driver *)

(** Modelled from the spec: the protocol names of package [driver]
    (ProtocolNFS, ProtocolNVMeOF, ProtocolISCSI) are declared outside the
    files at hand; the spec and the comment on SnapshotMetadata.Protocol
    give them as nfs, nvmeof, iscsi. *)
Definition ProtocolNFS : string := "nfs".
Definition ProtocolNVMeOF : string := "nvmeof".
Definition ProtocolISCSI : string := "iscsi".

(** Modelled from the spec: VolumeContextValueTrue / VolumeContextValueFalse
    are declared outside the files at hand; the spec writes the flag values
    as true and false. *)
Definition VolumeContextValueTrue : string := "true".
Definition VolumeContextValueFalse : string := "false".

Definition DetachedSnapshotsParam : string := "detachedSnapshots".
Definition PromotedVolumesFromSnapshotsParam : string := "promotedVolumesFromSnapshots".
Definition DetachedVolumesFromSnapshotsParam : string := "detachedVolumesFromSnapshots".
Definition DetachedSnapshotsParentDatasetParam : string := "detachedSnapshotsParentDataset".
Definition DetachedSnapshotPrefix : string := "detached:".
Definition DefaultDetachedSnapshotsFolder : string := "csi-detached-snapshots".

Definition ErrProtocolRequired : error := "protocol is required for snapshot ID encoding".
Definition ErrSourceVolumeRequired : error := "source volume is required for snapshot ID encoding".
Definition ErrSnapshotNameRequired : error := "snapshot name is required for snapshot ID encoding".
Definition ErrInvalidSnapshotIDFormat : error := "invalid compact snapshot ID format".
Definition ErrInvalidProtocol : error := "invalid protocol in snapshot ID".
Definition ErrSnapshotNotFoundTrueNAS : error := "snapshot not found in TrueNAS".
Definition ErrDetachedSnapshotNotFound : error := "detached snapshot not found".

(** ** Snapshot ID codec *)

Record SnapshotMetadata : Type := mkSnapshotMetadata {
  SnapshotName : string;
  SourceVolume : string;
  DatasetName : string;
  Protocol : string;
  CreatedAt : Z;
  Detached : bool
}.

(** The part of a ZFS snapshot name after its last [@] (the whole name when
    it has none), as [encodeSnapshotID] extracts it. *)
Definition shortSnapshotName (name : string) : string :=
  let idx := strings.LastIndex name "@" in
  if negb (idx =? -1) then strings.from name (idx + 1) else name.

Definition encodeSnapshotID (meta : SnapshotMetadata) : result error string :=
  if String.eqb (Protocol meta) "" then Err ErrProtocolRequired
  else if String.eqb (SourceVolume meta) "" then Err ErrSourceVolumeRequired
  else
    let snapshotName := shortSnapshotName (SnapshotName meta) in
    if String.eqb snapshotName "" then Err ErrSnapshotNameRequired
    else
      let baseID := Protocol meta +:+ ":" +:+ SourceVolume meta +:+ "@" +:+ snapshotName in
      if Detached meta then Ok (DetachedSnapshotPrefix +:+ baseID) else Ok baseID.

Definition decodeCompactSnapshotID (snapshotID : string) : result error SnapshotMetadata :=
  let colonIdx := strings.Index snapshotID ":" in
  if colonIdx =? -1 then Err (ErrInvalidSnapshotIDFormat +:+ ": missing protocol separator")
  else
    let protocol := strings.upto snapshotID colonIdx in
    let remainder := strings.from snapshotID (colonIdx + 1) in
    if negb (String.eqb protocol ProtocolNFS) && negb (String.eqb protocol ProtocolNVMeOF)
       && negb (String.eqb protocol ProtocolISCSI)
    then Err (ErrInvalidProtocol +:+ ": " +:+ protocol)
    else
      let atIdx := strings.LastIndex remainder "@" in
      if atIdx =? -1 then Err (ErrInvalidSnapshotIDFormat +:+ ": missing snapshot separator")
      else
        let volumeID := strings.upto remainder atIdx in
        let snapshotName := strings.from remainder (atIdx + 1) in
        if String.eqb volumeID "" then Err (ErrInvalidSnapshotIDFormat +:+ ": empty volume ID")
        else if String.eqb snapshotName "" then Err (ErrInvalidSnapshotIDFormat +:+ ": empty snapshot name")
        else Ok {| SnapshotName := snapshotName;
                   SourceVolume := volumeID;
                   DatasetName := "";
                   Protocol := protocol;
                   CreatedAt := 0;
                   Detached := false |}.

Definition setDetached (m : SnapshotMetadata) (d : bool) : SnapshotMetadata :=
  {| SnapshotName := SnapshotName m; SourceVolume := SourceVolume m;
     DatasetName := DatasetName m; Protocol := Protocol m;
     CreatedAt := CreatedAt m; Detached := d |}.

Definition decodeSnapshotID (snapshotID : string) : result error SnapshotMetadata :=
  if strings.HasPrefix snapshotID DetachedSnapshotPrefix then
    let trimmedID := strings.TrimPrefix snapshotID DetachedSnapshotPrefix in
    match decodeCompactSnapshotID trimmedID with
    | Err e => Err e
    | Ok meta => Ok (setDetached meta true)
    end
  else decodeCompactSnapshotID snapshotID.

(** [isNotFoundError] and its substring scan. *)
Definition containsAny (s : string) (substrs : list string) : bool :=
  existsb (fun substr =>
    (strings.len substr <=? strings.len s) &&
    existsb (fun i => String.eqb (strings.slice s i (i + strings.len substr)) substr)
            (map Z.of_nat (seq 0 (S (String.length s - String.length substr)))))
    substrs.

Definition isNotFoundError (err : option error) : bool :=
  match err with
  | None => false
  | Some errStr => containsAny errStr ["not found"; "does not exist"; "ENOENT"]
  end.

(** ** Program trees

    A [Prog E R] is a finite tree of calls to the environment: [Vis e k]
    performs the call [e] and continues with [k] on its answer. *)

Inductive Prog (E : Type -> Type) (R : Type) : Type :=
| Ret (r : R)
| Vis {X : Type} (e : E X) (k : X -> Prog E R).
Arguments Ret {E R} r.
Arguments Vis {E R X} e k.

Fixpoint bind {E : Type -> Type} {A B : Type} (p : Prog E A) (f : A -> Prog E B) : Prog E B :=
  match p with
  | Ret r => f r
  | Vis e k => Vis e (fun x => bind (k x) f)
  end.

Definition call {E : Type -> Type} {X : Type} (e : E X) : Prog E X := Vis e Ret.

#[global] Instance prog_ret {E : Type -> Type} : MRet (Prog E) := fun _ r => Ret r.
#[global] Instance prog_bind {E : Type -> Type} : MBind (Prog E) := fun _ _ f p => bind p f.
#[global] Arguments prog_ret {E} _ _ /.
#[global] Arguments prog_bind {E} _ _ _ _ /.

(** One performed call with the answer it got. *)
Inductive Event (E : Type -> Type) : Type :=
| Ev {X : Type} (e : E X) (x : X).
Arguments Ev {E X} e x.

(** A handler answers every call from a state of the environment. *)
Definition Handler (E : Type -> Type) (W : Type) : Type := forall X, E X -> W -> X * W.

(** [run h p w]: the result of [p], the final state of the environment and
    the calls performed, in order. *)
Fixpoint run {E : Type -> Type} {W R : Type} (h : Handler E W) (p : Prog E R) (w : W)
  : R * W * list (Event E) :=
  match p with
  | Ret r => (r, w, [])
  | Vis e k =>
      let a := h _ e w in
      let o := run h (k (fst a)) (snd a) in
      (fst (fst o), snd (fst o), Ev e (fst a) :: snd o)
  end.

Definition resultOf {E : Type -> Type} {W R : Type} (h : Handler E W) (p : Prog E R) (w : W) : R :=
  fst (fst (run h p w)).
Definition worldOf {E : Type -> Type} {W R : Type} (h : Handler E W) (p : Prog E R) (w : W) : W :=
  snd (fst (run h p w)).
Definition traceOf {E : Type -> Type} {W R : Type} (h : Handler E W) (p : Prog E R) (w : W)
  : list (Event E) :=
  snd (run h p w).

(** [defer]: [cleanup] runs when [body] returns, whatever it returns. *)
Definition defer {E : Type -> Type} {A : Type} (cleanup : Prog E unit) (body : Prog E A) : Prog E A :=
  r ← body; cleanup;; Ret r.

(** Decimal text of an integer ([%d], [strconv.Itoa]). *)
Definition itoa (z : Z) : string := NilZero.string_of_int (Z.to_int z).


(** ** Appliance client types (package tnsapi) and CSI messages *)

Module tnsapi.

(** Modelled from the spec: the user-property keys and the sentinel of
    package tnsapi are declared outside the files at hand; the spec names
    the keys (all in the driver's namespace), and the code comments write
    them as tns-csi:snapshot_id and tns-csi:detached_snapshot. *)
Definition PropertyManagedBy : string := "tns-csi:managed_by".
Definition ManagedByValue : string := "tns-csi".
Definition PropertyCSIVolumeName : string := "tns-csi:csi_volume_name".
Definition PropertyProtocol : string := "tns-csi:protocol".
Definition PropertyCapacityBytes : string := "tns-csi:capacity_bytes".
Definition PropertyDeleteStrategy : string := "tns-csi:delete_strategy".
Definition PropertySnapshotID : string := "tns-csi:snapshot_id".
Definition PropertySourceVolumeID : string := "tns-csi:source_volume_id".
Definition PropertyDetachedSnapshot : string := "tns-csi:detached_snapshot".
Definition PropertySourceDataset : string := "tns-csi:source_dataset".
Definition CloneModeCOW : string := "cow".
Definition CloneModePromoted : string := "promoted".
Definition CloneModeDetached : string := "detached".

(** The fields of the appliance records that the driver reads. *)
Record Snapshot : Type := mkSnapshot {
  snap_ID : string;       (* dataset@name *)
  snap_Name : string;
  snap_Dataset : string
}.

Record Dataset : Type := mkDataset {
  ds_ID : string;
  ds_Name : string;
  ds_Type : string;
  ds_Mountpoint : string;
  ds_Volsize : option Z   (* Volsize[parsed], when present *)
}.

(** [UserProperties] maps a key to a property of which only [Value] is read. *)
Record DatasetWithProperties : Type := mkDatasetWithProperties {
  dwp_Dataset : Dataset;
  UserProperties : gmap string string
}.

Record NFSShare : Type := mkNFSShare { share_Path : string }.
Record NVMeOFNamespace : Type := mkNVMeOFNamespace { ns_Device : string }.
Record ISCSIExtent : Type := mkISCSIExtent { extent_Disk : string }.

Record SnapshotCreateParams : Type := mkSnapshotCreateParams {
  scp_Dataset : string; scp_Name : string; scp_Recursive : bool
}.

Record CloneSnapshotParams : Type := mkCloneSnapshotParams {
  csp_Snapshot : string; csp_Dataset : string
}.

Record DatasetCreateParams : Type := mkDatasetCreateParams {
  dcp_Name : string; dcp_Type : string
}.

Record ReplicationRunOnetimeParams : Type := mkReplicationRunOnetimeParams {
  Direction : string;
  Transport : string;
  SourceDatasets : list string;
  TargetDataset : string;
  Recursive : bool;
  Properties : bool;
  PropertiesExclude : list string;
  Replicate : bool;
  Encryption : bool;
  NameRegex : option string;
  NamingSchema : list string;
  AlsoIncludeNamingSchema : list string;
  RetentionPolicy : string;
  Readonly : string;
  AllowFromScratch : bool
}.

(** A query filter [[field, op, value]]. *)
Record Filter : Type := mkFilter { f_field : string; f_op : string; f_value : string }.

End tnsapi.
Import tnsapi.

Module csi.

Record Snapshot : Type := mkSnapshot {
  SnapshotId : string;
  SourceVolumeId : string;
  CreationTime : Z;       (* seconds *)
  ReadyToUse : bool;
  SizeBytes : Z
}.

Record CreateSnapshotResponse : Type := mkCreateSnapshotResponse { csr_Snapshot : Snapshot }.

(** [DeleteSnapshotResponse] has no fields. *)
Definition DeleteSnapshotResponse : Type := unit.

Record CreateSnapshotRequest : Type := mkCreateSnapshotRequest {
  csr_Name : string;
  csr_SourceVolumeId : string;
  csr_Parameters : gmap string string
}.

Record DeleteSnapshotRequest : Type := mkDeleteSnapshotRequest { dsr_SnapshotId : string }.

Record ListSnapshotsRequest : Type := mkListSnapshotsRequest {
  MaxEntries : Z;         (* int32 *)
  StartingToken : string;
  lsr_SourceVolumeId : string;
  lsr_SnapshotId : string
}.

Record ListSnapshotsResponse : Type := mkListSnapshotsResponse {
  Entries : list Snapshot;
  NextToken : string
}.

Record CreateVolumeRequest : Type := mkCreateVolumeRequest {
  cvr_Name : string;
  cvr_Parameters : option (gmap string string)   (* nil or a map *)
}.

(** Built by the protocol set-up functions, which are outside the files at hand. *)
Record CreateVolumeResponse : Type := mkCreateVolumeResponse {
  VolumeId : string;
  VolumeContext : gmap string string
}.

End csi.

(** [m[k]] on a Go [map[string]string]: the empty string when [k] is absent. *)
Definition at_key (m : gmap string string) (k : string) : string := default "" (m !! k).

(** Found by [lookupVolumeByCSIName]. *)
Record VolumeMetadata : Type := mkVolumeMetadata {
  vm_DatasetID : string;
  vm_DatasetName : string;
  vm_Protocol : string
}.

(** How a clone was made; handed to the protocol set-up. *)
Record cloneInfo : Type := mkCloneInfo {
  Mode : string;
  OriginSnapshot : string;
  ci_SnapshotID : string
}.

Record cloneParameters : Type := mkCloneParameters {
  pool : string;
  parentDataset : string;
  newVolumeName : string;
  newDatasetName : string
}.

(** ** Calls of the controller

    The methods of the appliance client that the controller paths use, the
    clock, and the methods of the controller service that live outside the
    files at hand (the two property look-ups and the protocol set-up after
    a clone).  A slice result that the code ranges over even when the call
    failed comes with its error side by side. *)
Inductive ApiE : Type -> Type :=
| QuerySnapshots (filters : list Filter) : ApiE (list tnsapi.Snapshot * option error)
| CreateSnapshot (params : SnapshotCreateParams) : ApiE (result error tnsapi.Snapshot)
| DeleteSnapshot (snapshotID : string) : ApiE (option error)
| SetSnapshotProperties (snapshotID : string) (update : gmap string string) (remove : list string)
    : ApiE (option error)
| CloneSnapshot (params : CloneSnapshotParams) : ApiE (result error Dataset)
| QueryAllDatasets (pre : string) : ApiE (list Dataset * option error)
| CreateDataset (params : DatasetCreateParams) : ApiE (result error Dataset)
| DeleteDataset (datasetID : string) : ApiE (option error)
| GetDataset (datasetID : string) : ApiE (result error Dataset)
| PromoteDataset (datasetID : string) : ApiE (option error)
| GetDatasetProperties (datasetID : string) (names : list string)
    : ApiE (result error (gmap string string))
| SetDatasetProperties (datasetID : string) (props : gmap string string) : ApiE (option error)
| GetDatasetWithProperties (datasetID : string) : ApiE (result error (option DatasetWithProperties))
| FindDatasetsByProperty (pre name value : string) : ApiE (result error (list DatasetWithProperties))
| RunOnetimeReplicationAndWait (params : ReplicationRunOnetimeParams) (pollSeconds : Z)
    : ApiE (option error)
| QueryAllNFSShares (pathPrefix : string) : ApiE (list NFSShare * option error)
| QueryAllNVMeOFNamespaces : ApiE (list NVMeOFNamespace * option error)
| QueryISCSIExtents : ApiE (list ISCSIExtent * option error)
| TimeNowUnix : ApiE Z
| TimeNowUnixNano : ApiE Z
| Sleep (seconds : Z) : ApiE unit
| lookupVolumeByCSIName (pre name : string) : ApiE (result error (option VolumeMetadata))
| lookupSnapshotByCSIName (pre name : string) : ApiE (result error (option SnapshotMetadata))
| setupNFSVolumeFromClone (req : csi.CreateVolumeRequest) (d : Dataset) (server : string)
    (info : cloneInfo) : ApiE (rpc csi.CreateVolumeResponse)
| setupNVMeOFVolumeFromClone (req : csi.CreateVolumeRequest) (d : Dataset) (server nqn : string)
    (info : cloneInfo) : ApiE (rpc csi.CreateVolumeResponse)
| setupISCSIVolumeFromClone (req : csi.CreateVolumeRequest) (d : Dataset) (server : string)
    (info : cloneInfo) : ApiE (rpc csi.CreateVolumeResponse).

Definition ReplicationPollInterval : Z := 2.

(** Modelled from the spec: [isDatasetPathVolumeID] is declared outside the
    files at hand; the spec takes a volume ID for a full dataset path when it
    contains a slash. *)
Definition isDatasetPathVolumeID (volumeID : string) : bool := strings.Contains volumeID "/".

(** Modelled from the spec: [mountpointToDatasetID] is declared outside the
    files at hand; the spec exports dataset tank/k8s/pvc-abc at
    /mnt/tank/k8s/pvc-abc. *)
Definition mountpointToDatasetID (path : string) : string := strings.TrimPrefix path "/mnt/".

(** ** CreateSnapshot and DeleteSnapshot *)

Definition hd_str (l : list string) : string := nth 0 l "".

(** The loop of [createRegularSnapshot] over the probe's answer; [None] when
    the loop ends without returning. *)
Fixpoint checkExistingSnapshots (sourceVolumeID datasetName protocol : string)
    (existingSnapshots : list tnsapi.Snapshot)
  : Prog ApiE (option (rpc csi.CreateSnapshotResponse)) :=
  match existingSnapshots with
  | [] => Ret None
  | snapshot :: rest =>
      let parts := strings.Split (snap_ID snapshot) "@" in
      if negb (length parts =? 2)%nat then
        checkExistingSnapshots sourceVolumeID datasetName protocol rest
      else
        let existingDataset := hd_str parts in
        if String.eqb existingDataset datasetName then
          createdAt ← call TimeNowUnix;
          let snapshotMeta :=
            {| SnapshotName := snap_ID snapshot; SourceVolume := sourceVolumeID;
               DatasetName := datasetName; Protocol := protocol;
               CreatedAt := createdAt; Detached := false |} in
          match encodeSnapshotID snapshotMeta with
          | Err _ => Ret (Some (Err codes.Internal))
          | Ok snapshotID =>
              Ret (Some (Ok (csi.mkCreateSnapshotResponse
                               {| csi.SnapshotId := snapshotID;
                                  csi.SourceVolumeId := sourceVolumeID;
                                  csi.CreationTime := createdAt;
                                  csi.ReadyToUse := true;
                                  csi.SizeBytes := 0 |})))
          end
        else Ret (Some (Err codes.AlreadyExists))
  end.

Definition regularSnapshotProps (snapshotName sourceVolumeID protocol : string)
  : gmap string string :=
  list_to_map
    [ (PropertyManagedBy, ManagedByValue);
      (PropertySnapshotID, snapshotName);
      (PropertySourceVolumeID, sourceVolumeID);
      (PropertyDetachedSnapshot, VolumeContextValueFalse);
      (PropertyProtocol, protocol);
      (PropertyDeleteStrategy, "delete") ].

Definition createRegularSnapshot (snapshotName sourceVolumeID datasetName protocol : string)
  : Prog ApiE (rpc csi.CreateSnapshotResponse) :=
  q ← call (QuerySnapshots [mkFilter "name" "=" snapshotName]);
  let '(existingSnapshots, err) := q in
  found ← match err with
          | Some _ => Ret None
          | None => checkExistingSnapshots sourceVolumeID datasetName protocol existingSnapshots
          end;
  match found with
  | Some r => Ret r
  | None =>
      created ← call (CreateSnapshot {| scp_Dataset := datasetName; scp_Name := snapshotName;
                                        scp_Recursive := false |});
      match created with
      | Err _ => Ret (Err codes.Internal)
      | Ok snapshot =>
          let props := regularSnapshotProps snapshotName sourceVolumeID protocol in
          call (SetSnapshotProperties (snap_ID snapshot) props []);;
          createdAt ← call TimeNowUnix;
          let snapshotMeta :=
            {| SnapshotName := snap_ID snapshot; SourceVolume := sourceVolumeID;
               DatasetName := datasetName; Protocol := protocol;
               CreatedAt := createdAt; Detached := false |} in
          match encodeSnapshotID snapshotMeta with
          | Err _ => Ret (Err codes.Internal)
          | Ok snapshotID =>
              Ret (Ok (csi.mkCreateSnapshotResponse
                         {| csi.SnapshotId := snapshotID;
                            csi.SourceVolumeId := sourceVolumeID;
                            csi.CreationTime := createdAt;
                            csi.ReadyToUse := true;
                            csi.SizeBytes := 0 |}))
          end
      end
  end.

(** [ensureDetachedSnapshotsParentDataset] *)
Definition ensureDetachedSnapshotsParentDataset (parent : string) : Prog ApiE (option error) :=
  q ← call (QueryAllDatasets parent);
  let '(datasets, err) := q in
  match err with
  | Some e => Ret (Some ("failed to query dataset " +:+ parent +:+ ": " +:+ e))
  | None =>
      if existsb (fun d => String.eqb (ds_Name d) parent || String.eqb (ds_ID d) parent) datasets
      then Ret None
      else
        created ← call (CreateDataset {| dcp_Name := parent; dcp_Type := "FILESYSTEM" |});
        match created with
        | Err e => Ret (Some ("failed to create parent dataset " +:+ parent +:+ ": " +:+ e))
        | Ok _ =>
            call (SetDatasetProperties parent {[ PropertyManagedBy := ManagedByValue ]});;
            Ret None
        end
  end.

Definition detachedSnapshotProps (snapshotName sourceVolumeID sourceDataset protocol : string)
  : gmap string string :=
  list_to_map
    [ (PropertyManagedBy, ManagedByValue);
      (PropertySnapshotID, snapshotName);
      (PropertySourceVolumeID, sourceVolumeID);
      (PropertyDetachedSnapshot, VolumeContextValueTrue);
      (PropertySourceDataset, sourceDataset);
      (PropertyProtocol, protocol);
      (PropertyDeleteStrategy, "delete") ].

Definition detachedReplicationParams (sourceDataset targetDataset tempSnapshotName : string)
  : ReplicationRunOnetimeParams :=
  {| Direction := "PUSH";
     Transport := "LOCAL";
     SourceDatasets := [sourceDataset];
     TargetDataset := targetDataset;
     Recursive := false;
     Properties := true;
     PropertiesExclude := ["mountpoint"; "sharenfs"; "sharesmb"; PropertyCSIVolumeName];
     Replicate := false;
     Encryption := false;
     NameRegex := Some tempSnapshotName;
     NamingSchema := [];
     AlsoIncludeNamingSchema := [];
     RetentionPolicy := "NONE";
     Readonly := "IGNORE";
     AllowFromScratch := true |}.

(** The response for a snapshot stored as the dataset [targetDataset]. *)
Definition detachedSnapshotResponse (snapshotName sourceVolumeID targetDataset protocol : string)
  : Prog ApiE (rpc csi.CreateSnapshotResponse) :=
  createdAt ← call TimeNowUnix;
  let snapshotMeta :=
    {| SnapshotName := snapshotName; SourceVolume := sourceVolumeID;
       DatasetName := targetDataset; Protocol := protocol;
       CreatedAt := createdAt; Detached := true |} in
  match encodeSnapshotID snapshotMeta with
  | Err _ => Ret (Err codes.Internal)
  | Ok snapshotID =>
      Ret (Ok (csi.mkCreateSnapshotResponse
                 {| csi.SnapshotId := snapshotID;
                    csi.SourceVolumeId := sourceVolumeID;
                    csi.CreationTime := createdAt;
                    csi.ReadyToUse := true;
                    csi.SizeBytes := 0 |}))
  end.

(** [createDetachedSnapshot], from the replication to its return. *)
Definition replicateDetachedSnapshot
    (snapshotName sourceVolumeID sourceDataset protocol targetDataset tempSnapshotName : string)
  : Prog ApiE (rpc csi.CreateSnapshotResponse) :=
  rerr ← call (RunOnetimeReplicationAndWait
                 (detachedReplicationParams sourceDataset targetDataset tempSnapshotName)
                 ReplicationPollInterval);
  match rerr with
  | Some _ =>
      call (DeleteDataset targetDataset);;
      Ret (Err codes.Internal)
  | None =>
      call (PromoteDataset targetDataset);;
      let targetTempSnapshot := targetDataset +:+ "@" +:+ tempSnapshotName in
      call (DeleteSnapshot targetTempSnapshot);;
      let props := detachedSnapshotProps snapshotName sourceVolumeID sourceDataset protocol in
      perr ← call (SetDatasetProperties targetDataset props);
      match perr with
      | Some _ =>
          call (DeleteDataset targetDataset);;
          Ret (Err codes.Internal)
      | None => detachedSnapshotResponse snapshotName sourceVolumeID targetDataset protocol
      end
  end.

(** [createDetachedSnapshot], once the parent dataset of detached snapshots is known. *)
Definition createDetachedSnapshotUnder
    (snapshotName sourceVolumeID sourceDataset protocol detachedParentDataset : string)
  : Prog ApiE (rpc csi.CreateSnapshotResponse) :=
  ensured ← ensureDetachedSnapshotsParentDataset detachedParentDataset;
  match ensured with
  | Some _ => Ret (Err codes.Internal)
  | None =>
      let targetDataset := detachedParentDataset +:+ "/" +:+ snapshotName in
      q ← call (QueryAllDatasets targetDataset);
      let '(existingDatasets, _) := q in
      if existsb (fun d => String.eqb (ds_Name d) targetDataset) existingDatasets
      then detachedSnapshotResponse snapshotName sourceVolumeID targetDataset protocol
      else
        nano ← call TimeNowUnixNano;
        let tempSnapshotName := "csi-detached-temp-" +:+ itoa nano in
        let tempSnapshot := sourceDataset +:+ "@" +:+ tempSnapshotName in
        created ← call (CreateSnapshot {| scp_Dataset := sourceDataset;
                                          scp_Name := tempSnapshotName;
                                          scp_Recursive := false |});
        match created with
        | Err _ => Ret (Err codes.Internal)
        | Ok _ =>
            defer (call (DeleteSnapshot tempSnapshot);; Ret tt)
                  (replicateDetachedSnapshot snapshotName sourceVolumeID sourceDataset
                     protocol targetDataset tempSnapshotName)
        end
  end.

Definition createDetachedSnapshot
    (snapshotName sourceVolumeID sourceDataset protocol pool0 detachedParentDataset0 : string)
  : Prog ApiE (rpc csi.CreateSnapshotResponse) :=
  let pool1 :=
    if String.eqb detachedParentDataset0 "" && String.eqb pool0 ""
    then hd_str (strings.Split sourceDataset "/") else pool0 in
  if String.eqb detachedParentDataset0 "" && String.eqb pool1 ""
  then Ret (Err codes.InvalidArgument)
  else
    let detachedParentDataset :=
      if String.eqb detachedParentDataset0 ""
      then pool1 +:+ "/" +:+ DefaultDetachedSnapshotsFolder
      else detachedParentDataset0 in
    createDetachedSnapshotUnder snapshotName sourceVolumeID sourceDataset protocol
                                detachedParentDataset.

(** [resolveZFSSnapshotName] *)
Fixpoint findSnapshotOfVolume (snapshotName volumeID : string) (snapshots : list tnsapi.Snapshot)
  : option string :=
  match snapshots with
  | [] => None
  | snap :: rest =>
      if negb (strings.HasSuffix (snap_ID snap) ("@" +:+ snapshotName))
      then findSnapshotOfVolume snapshotName volumeID rest
      else
        let datasetPath := strings.TrimSuffix (snap_ID snap) ("@" +:+ snapshotName) in
        if strings.Contains datasetPath volumeID then Some (snap_ID snap)
        else findSnapshotOfVolume snapshotName volumeID rest
  end.

Definition resolveZFSSnapshotName (meta : SnapshotMetadata) : Prog ApiE (result error string) :=
  if strings.Contains (SnapshotName meta) "@" then Ret (Ok (SnapshotName meta))
  else
    let snapshotName := SnapshotName meta in
    let volumeID := SourceVolume meta in
    if strings.Contains volumeID "/" then Ret (Ok (volumeID +:+ "@" +:+ snapshotName))
    else
      q ← call (QuerySnapshots [mkFilter "name" "=" snapshotName]);
      let '(snapshots, err) := q in
      match err with
      | Some e => Ret (Err ("failed to query snapshots: " +:+ e))
      | None =>
          match findSnapshotOfVolume snapshotName volumeID snapshots with
          | Some id => Ret (Ok id)
          | None => Ret (Err (ErrSnapshotNotFoundTrueNAS +:+ ": snapshot " +:+ snapshotName
                               +:+ " for volume " +:+ volumeID))
          end
      end.

Definition deleteRegularSnapshot (snapshotMeta : SnapshotMetadata)
  : Prog ApiE (rpc csi.DeleteSnapshotResponse) :=
  resolved ← resolveZFSSnapshotName snapshotMeta;
  match resolved with
  | Err _ => Ret (Ok tt)
  | Ok zfsSnapshotName =>
      err ← call (DeleteSnapshot zfsSnapshotName);
      match err with
      | Some e => if isNotFoundError (Some e) then Ret (Ok tt) else Ret (Err codes.Internal)
      | None => Ret (Ok tt)
      end
  end.

(** [deleteDetachedSnapshot], from the test of the resolved dataset path on. *)
Definition deleteDetachedDataset (datasetPath : string)
  : Prog ApiE (rpc csi.DeleteSnapshotResponse) :=
  if String.eqb datasetPath "" then Ret (Ok tt)
  else
    got ← call (GetDatasetProperties datasetPath [PropertyDetachedSnapshot; PropertyManagedBy]);
    let delete : Prog ApiE (rpc csi.DeleteSnapshotResponse) :=
      err ← call (DeleteDataset datasetPath);
      match err with
      | Some e => if isNotFoundError (Some e) then Ret (Ok tt) else Ret (Err codes.Internal)
      | None => Ret (Ok tt)
      end in
    match got with
    | Err e => if isNotFoundError (Some e) then Ret (Ok tt) else delete
    | Ok props =>
        if negb (String.eqb (at_key props PropertyManagedBy) ManagedByValue)
        then Ret (Err codes.FailedPrecondition)
        else if negb (String.eqb (at_key props PropertyDetachedSnapshot) VolumeContextValueTrue)
        then Ret (Err codes.FailedPrecondition)
        else delete
    end.

Definition deleteDetachedSnapshot (snapshotMeta : SnapshotMetadata)
  : Prog ApiE (rpc csi.DeleteSnapshotResponse) :=
  datasetPath ←
    (if String.eqb (DatasetName snapshotMeta) "" then
       looked ← call (lookupSnapshotByCSIName "" (SnapshotName snapshotMeta));
       match looked with
       | Err _ => Ret (DatasetName snapshotMeta)
       | Ok (Some resolvedMeta) => Ret (DatasetName resolvedMeta)
       | Ok None => Ret (DatasetName snapshotMeta)
       end
     else Ret (DatasetName snapshotMeta));
  deleteDetachedDataset datasetPath.

(** [discoverVolumeBySearching] *)
Record volumeDiscoveryResult : Type := mkVolumeDiscoveryResult {
  vdr_datasetName : string;
  vdr_protocol : string
}.

Fixpoint searchShares (volumeID : string) (shares : list NFSShare)
  : Prog ApiE (option volumeDiscoveryResult) :=
  match shares with
  | [] => Ret None
  | share :: rest =>
      if strings.HasSuffix (share_Path share) ("/" +:+ volumeID) then
        let datasetID := mountpointToDatasetID (share_Path share) in
        q ← call (QueryAllDatasets datasetID);
        match q with
        | (d :: _, None) => Ret (Some {| vdr_datasetName := ds_Name d; vdr_protocol := ProtocolNFS |})
        | _ => searchShares volumeID rest
        end
      else searchShares volumeID rest
  end.

Definition discoverVolumeBySearching (volumeID : string)
  : Prog ApiE (option volumeDiscoveryResult) :=
  looked ← call (lookupVolumeByCSIName "" volumeID);
  match looked with
  | Ok (Some meta) =>
      Ret (Some {| vdr_datasetName := vm_DatasetName meta; vdr_protocol := vm_Protocol meta |})
  | _ =>
      qs ← call (QueryAllNFSShares volumeID);
      fromShares ← match qs with
                   | (shares, None) => searchShares volumeID shares
                   | (_, Some _) => Ret None
                   end;
      match fromShares with
      | Some r => Ret (Some r)
      | None =>
          qn ← call QueryAllNVMeOFNamespaces;
          let fromNamespaces :=
            match qn with
            | (namespaces, None) =>
                match List.find (fun ns => strings.Contains (ns_Device ns) volumeID) namespaces with
                | Some ns => Some {| vdr_datasetName := strings.TrimPrefix (ns_Device ns) "zvol/";
                                     vdr_protocol := ProtocolNVMeOF |}
                | None => None
                end
            | (_, Some _) => None
            end in
          match fromNamespaces with
          | Some r => Ret (Some r)
          | None =>
              qe ← call QueryISCSIExtents;
              match qe with
              | (extents, None) =>
                  match List.find (fun x => strings.Contains (extent_Disk x) volumeID) extents with
                  | Some x => Ret (Some {| vdr_datasetName := strings.TrimPrefix (extent_Disk x) "zvol/";
                                           vdr_protocol := ProtocolISCSI |})
                  | None => Ret None
                  end
              | (_, Some _) => Ret None
              end
          end
      end
  end.

(** The two RPC entry points whose names the appliance client also uses. *)
Module ControllerService.

Definition CreateSnapshot (req : csi.CreateSnapshotRequest)
  : Prog ApiE (rpc csi.CreateSnapshotResponse) :=
  if String.eqb (csi.csr_Name req) "" then Ret (Err codes.InvalidArgument)
  else if String.eqb (csi.csr_SourceVolumeId req) "" then Ret (Err codes.InvalidArgument)
  else
    let snapshotName := csi.csr_Name req in
    let sourceVolumeID := csi.csr_SourceVolumeId req in
    let params := csi.csr_Parameters req in
    let pool := at_key params "pool" in
    let parentDataset :=
      if String.eqb (at_key params "parentDataset") "" then pool
      else at_key params "parentDataset" in
    let protocol0 :=
      if String.eqb (at_key params "protocol") "" then ProtocolNFS
      else at_key params "protocol" in
    let detached := String.eqb (at_key params DetachedSnapshotsParam) VolumeContextValueTrue in
    let detachedParentDataset := at_key params DetachedSnapshotsParentDatasetParam in
    found ←
      (if negb (String.eqb parentDataset "") then
         looked ← call (lookupVolumeByCSIName parentDataset sourceVolumeID);
         let '(datasetName, protocol) :=
           match looked with
           | Err _ => ("", protocol0)
           | Ok None => ("", protocol0)
           | Ok (Some volumeMeta) =>
               (vm_DatasetID volumeMeta,
                if negb (String.eqb (vm_Protocol volumeMeta) "")
                then vm_Protocol volumeMeta else protocol0)
           end in
         if String.eqb datasetName "" then
           if isDatasetPathVolumeID sourceVolumeID then Ret (sourceVolumeID, protocol)
           else Ret (parentDataset +:+ "/" +:+ sourceVolumeID, protocol)
         else Ret (datasetName, protocol)
       else
         discovered ← discoverVolumeBySearching sourceVolumeID;
         match discovered with
         | Some r => Ret (vdr_datasetName r, vdr_protocol r)
         | None => Ret ("", protocol0)
         end);
    let '(datasetName, protocol) := found in
    if String.eqb datasetName "" then Ret (Err codes.NotFound)
    else if detached then
      createDetachedSnapshot snapshotName sourceVolumeID datasetName protocol pool
                             detachedParentDataset
    else createRegularSnapshot snapshotName sourceVolumeID datasetName protocol.

Definition DeleteSnapshot (req : csi.DeleteSnapshotRequest)
  : Prog ApiE (rpc csi.DeleteSnapshotResponse) :=
  if String.eqb (csi.dsr_SnapshotId req) "" then Ret (Err codes.InvalidArgument)
  else
    let snapshotID := csi.dsr_SnapshotId req in
    match decodeSnapshotID snapshotID with
    | Err _ => Ret (Ok tt)
    | Ok snapshotMeta =>
        if Detached snapshotMeta then deleteDetachedSnapshot snapshotMeta
        else deleteRegularSnapshot snapshotMeta
    end.

End ControllerService.

(** ** CreateVolume from a snapshot *)

(** [resolveDetachedSnapshotMetadata]: the metadata with the resolved fields
    written into it. *)
Definition resolveDetachedSnapshotMetadata (meta : SnapshotMetadata)
  : Prog ApiE (result error SnapshotMetadata) :=
  looked ← call (lookupSnapshotByCSIName "" (SnapshotName meta));
  match looked with
  | Err e => Ret (Err ("failed to lookup detached snapshot " +:+ SnapshotName meta +:+ ": " +:+ e))
  | Ok None => Ret (Err (ErrDetachedSnapshotNotFound +:+ ": " +:+ SnapshotName meta))
  | Ok (Some resolvedMeta) =>
      Ret (Ok {| SnapshotName := SnapshotName meta;
                 SourceVolume := if negb (String.eqb (SourceVolume resolvedMeta) "")
                                 then SourceVolume resolvedMeta else SourceVolume meta;
                 DatasetName := DatasetName resolvedMeta;
                 Protocol := if negb (String.eqb (Protocol resolvedMeta) "")
                             then Protocol resolvedMeta else Protocol meta;
                 CreatedAt := CreatedAt meta;
                 Detached := Detached meta |})
  end.

Definition resolveSnapshotMetadata (meta : SnapshotMetadata)
  : Prog ApiE (result error SnapshotMetadata) :=
  if strings.Contains (SnapshotName meta) "@" && negb (String.eqb (DatasetName meta) "")
  then Ret (Ok meta)
  else if Detached meta then resolveDetachedSnapshotMetadata meta
  else
    resolved ← resolveZFSSnapshotName meta;
    match resolved with
    | Err e => Ret (Err e)
    | Ok zfsSnapshotName =>
        let idx := strings.LastIndex zfsSnapshotName "@" in
        Ret (Ok {| SnapshotName := zfsSnapshotName;
                   SourceVolume := SourceVolume meta;
                   DatasetName := if negb (idx =? -1) then strings.upto zfsSnapshotName idx
                                  else DatasetName meta;
                   Protocol := Protocol meta;
                   CreatedAt := CreatedAt meta;
                   Detached := Detached meta |})
    end.

Definition GetParameters (req : csi.CreateVolumeRequest) : gmap string string :=
  default ∅ (csi.cvr_Parameters req).

Definition validateCloneParameters (req : csi.CreateVolumeRequest) (snapshotMeta : SnapshotMetadata)
  : rpc cloneParameters :=
  let params := GetParameters req in
  let pool0 := at_key params "pool" in
  let parentDataset0 := at_key params "parentDataset" in
  if String.eqb (DatasetName snapshotMeta) "" then Err codes.Internal
  else
    let parts := strings.Split (DatasetName snapshotMeta) "/" in
    if String.eqb pool0 "" && negb ((0 <? length parts)%nat && negb (String.eqb (hd_str parts) ""))
    then Err codes.Internal
    else
      let pool := if String.eqb pool0 "" then hd_str parts else pool0 in
      let parentDataset :=
        if String.eqb parentDataset0 "" then
          if Detached snapshotMeta then pool
          else if (1 <? length parts)%nat
               then strings.Join (List.firstn (length parts - 1) parts) "/"
               else pool
        else parentDataset0 in
      let newVolumeName := csi.cvr_Name req in
      Ok {| pool := pool; parentDataset := parentDataset; newVolumeName := newVolumeName;
            newDatasetName := parentDataset +:+ "/" +:+ newVolumeName |}.

Definition cleanupPartialClone (datasetName : string) : Prog ApiE unit :=
  call (DeleteDataset datasetName);; Ret tt.

Definition executeSnapshotClone (snapshotMeta : SnapshotMetadata) (params : cloneParameters)
  : Prog ApiE (rpc Dataset) :=
  cloned ← call (CloneSnapshot {| csp_Snapshot := SnapshotName snapshotMeta;
                                  csp_Dataset := newDatasetName params |});
  match cloned with
  | Err _ => cleanupPartialClone (newDatasetName params);; Ret (Err codes.Internal)
  | Ok clonedDataset => Ret (Ok clonedDataset)
  end.

Definition executePromotedSnapshotClone (snapshotMeta : SnapshotMetadata) (params : cloneParameters)
  : Prog ApiE (rpc Dataset) :=
  cloned ← call (CloneSnapshot {| csp_Snapshot := SnapshotName snapshotMeta;
                                  csp_Dataset := newDatasetName params |});
  match cloned with
  | Err _ => cleanupPartialClone (newDatasetName params);; Ret (Err codes.Internal)
  | Ok clonedDataset =>
      perr ← call (PromoteDataset (newDatasetName params));
      match perr with
      | Some _ => call (DeleteDataset (newDatasetName params));; Ret (Err codes.Internal)
      | None => Ret (Ok clonedDataset)
      end
  end.

Definition executeDetachedVolumeClone (snapshotMeta : SnapshotMetadata) (params : cloneParameters)
  : Prog ApiE (rpc Dataset) :=
  let sourceDataset := DatasetName snapshotMeta in
  let snapshotNameOnly := shortSnapshotName (SnapshotName snapshotMeta) in
  rerr ← call (RunOnetimeReplicationAndWait
                 (detachedReplicationParams sourceDataset (newDatasetName params) snapshotNameOnly)
                 ReplicationPollInterval);
  match rerr with
  | Some _ => call (DeleteDataset (newDatasetName params));; Ret (Err codes.Internal)
  | None =>
      call (PromoteDataset (newDatasetName params));;
      let targetSnapshot := newDatasetName params +:+ "@" +:+ snapshotNameOnly in
      call (DeleteSnapshot targetSnapshot);;
      got ← call (GetDataset (newDatasetName params));
      match got with
      | Err _ => Ret (Err codes.Internal)
      | Ok clonedDataset => Ret (Ok clonedDataset)
      end
  end.

Definition executeDetachedSnapshotRestore (snapshotMeta : SnapshotMetadata) (params : cloneParameters)
  : Prog ApiE (rpc Dataset) :=
  let tempSnapshotName := "csi-restore-for-" +:+ newVolumeName params in
  let tempSnapshotFullName := DatasetName snapshotMeta +:+ "@" +:+ tempSnapshotName in
  q ← call (QuerySnapshots [mkFilter "dataset" "=" (DatasetName snapshotMeta)]);
  let '(existingSnapshots, _) := q in
  let snapshotExists :=
    existsb (fun snap => String.eqb (snap_Name snap) tempSnapshotFullName) existingSnapshots in
  let clone : Prog ApiE (rpc Dataset) :=
    cloned ← call (CloneSnapshot {| csp_Snapshot := tempSnapshotFullName;
                                    csp_Dataset := newDatasetName params |});
    match cloned with
    | Err _ => Ret (Err codes.Internal)
    | Ok clonedDataset => Ret (Ok clonedDataset)
    end in
  if negb snapshotExists then
    created ← call (CreateSnapshot {| scp_Dataset := DatasetName snapshotMeta;
                                      scp_Name := tempSnapshotName;
                                      scp_Recursive := false |});
    match created with
    | Err _ => Ret (Err codes.Internal)
    | Ok _ => clone
    end
  else clone.

Definition waitForZFSSyncIfNVMeOF (protocol : string) : Prog ApiE unit :=
  if negb (String.eqb protocol ProtocolNVMeOF) then Ret tt
  else call (Sleep 5).

Definition validateServerParameter (server : string) (clonedDataset : Dataset)
  : Prog ApiE (option codes.Code) :=
  if String.eqb server "" then
    call (DeleteDataset (ds_ID clonedDataset));; Ret (Some codes.InvalidArgument)
  else Ret None.

(** [getVolumeParametersForSnapshot]: server and subsystemNQN, or the status it fails with. *)
Definition getVolumeParametersForSnapshot (params : gmap string string)
    (snapshotMeta : SnapshotMetadata) (clonedDataset : Dataset)
  : Prog ApiE (rpc (string * string)) :=
  let server := at_key params "server" in
  let subsystemNQN := at_key params "subsystemNQN" in
  let needsSourceExtraction :=
    String.eqb server "" ||
    (String.eqb (Protocol snapshotMeta) ProtocolNVMeOF && String.eqb subsystemNQN "") in
  let finish (nqn : string) : Prog ApiE (rpc (string * string)) :=
    verr ← validateServerParameter server clonedDataset;
    match verr with
    | Some c => Ret (Err c)
    | None => Ret (Ok (server, nqn))
    end in
  if negb needsSourceExtraction then finish subsystemNQN
  else if String.eqb server "" then
    call (DeleteDataset (ds_ID clonedDataset));; Ret (Err codes.InvalidArgument)
  else if String.eqb subsystemNQN "" && String.eqb (Protocol snapshotMeta) ProtocolNVMeOF
  then finish "clone-will-generate-new-nqn"
  else finish subsystemNQN.

Definition handleUnknownProtocol (clonedDataset : Dataset)
  : Prog ApiE (rpc csi.CreateVolumeResponse) :=
  call (DeleteDataset (ds_ID clonedDataset));; Ret (Err codes.InvalidArgument).

Definition setupNVMeOFVolumeFromCloneWithValidation (req : csi.CreateVolumeRequest)
    (clonedDataset : Dataset) (server subsystemNQN : string) (info : cloneInfo)
  : Prog ApiE (rpc csi.CreateVolumeResponse) :=
  if String.eqb subsystemNQN "" then
    call (DeleteDataset (ds_ID clonedDataset));; Ret (Err codes.InvalidArgument)
  else call (setupNVMeOFVolumeFromClone req clonedDataset server subsystemNQN info).

Definition setupVolumeFromClone (req : csi.CreateVolumeRequest) (clonedDataset : Dataset)
    (protocol server subsystemNQN : string) (info : cloneInfo)
  : Prog ApiE (rpc csi.CreateVolumeResponse) :=
  if String.eqb protocol ProtocolNFS then
    call (setupNFSVolumeFromClone req clonedDataset server info)
  else if String.eqb protocol ProtocolNVMeOF then
    setupNVMeOFVolumeFromCloneWithValidation req clonedDataset server subsystemNQN info
  else if String.eqb protocol ProtocolISCSI then
    call (setupISCSIVolumeFromClone req clonedDataset server info)
  else handleUnknownProtocol clonedDataset.

Inductive cloneMode : Set :=
| cloneModeDetachedSnapshotRestore
| cloneModeDetached
| cloneModePromoted
| cloneModeCOW.

(** The mode switch of [createVolumeFromSnapshot]. *)
Definition selectCloneMode (snapshotMeta : SnapshotMetadata) (params : gmap string string)
  : cloneMode :=
  let detachedMode :=
    String.eqb (at_key params DetachedVolumesFromSnapshotsParam) VolumeContextValueTrue in
  let promotedMode0 :=
    String.eqb (at_key params PromotedVolumesFromSnapshotsParam) VolumeContextValueTrue in
  let promotedMode := if detachedMode && promotedMode0 then false else promotedMode0 in
  if Detached snapshotMeta then cloneModeDetachedSnapshotRestore
  else if detachedMode then cloneModeDetached
  else if promotedMode then cloneModePromoted
  else cloneModeCOW.

Definition executeClone (mode : cloneMode) (snapshotMeta : SnapshotMetadata)
    (cloneParams : cloneParameters) : Prog ApiE (rpc Dataset) :=
  match mode with
  | cloneModeDetachedSnapshotRestore => executeDetachedSnapshotRestore snapshotMeta cloneParams
  | cloneModeDetached => executeDetachedVolumeClone snapshotMeta cloneParams
  | cloneModePromoted => executePromotedSnapshotClone snapshotMeta cloneParams
  | cloneModeCOW => executeSnapshotClone snapshotMeta cloneParams
  end.

Definition cloneInfoFor (mode : cloneMode) (snapshotMeta : SnapshotMetadata)
    (req : csi.CreateVolumeRequest) (snapshotID : string) : cloneInfo :=
  match mode with
  | cloneModeDetachedSnapshotRestore =>
      {| Mode := CloneModeCOW;
         OriginSnapshot := DatasetName snapshotMeta +:+ "@csi-restore-for-" +:+ csi.cvr_Name req;
         ci_SnapshotID := snapshotID |}
  | cloneModeDetached =>
      {| Mode := CloneModeDetached; OriginSnapshot := ""; ci_SnapshotID := snapshotID |}
  | cloneModePromoted =>
      {| Mode := CloneModePromoted; OriginSnapshot := ""; ci_SnapshotID := snapshotID |}
  | cloneModeCOW =>
      {| Mode := CloneModeCOW; OriginSnapshot := SnapshotName snapshotMeta;
         ci_SnapshotID := snapshotID |}
  end.

Definition createVolumeFromSnapshot (req : csi.CreateVolumeRequest) (snapshotID : string)
  : Prog ApiE (rpc csi.CreateVolumeResponse) :=
  match decodeSnapshotID snapshotID with
  | Err _ => Ret (Err codes.NotFound)
  | Ok decoded =>
      resolved ← resolveSnapshotMetadata decoded;
      match resolved with
      | Err _ => Ret (Err codes.NotFound)
      | Ok snapshotMeta =>
          match validateCloneParameters req snapshotMeta with
          | Err c => Ret (Err c)
          | Ok cloneParams =>
              let params := GetParameters req in
              let mode := selectCloneMode snapshotMeta params in
              cloned ← executeClone mode snapshotMeta cloneParams;
              match cloned with
              | Err c => Ret (Err c)
              | Ok clonedDataset =>
                  let cloneInfoData := cloneInfoFor mode snapshotMeta req snapshotID in
                  waitForZFSSyncIfNVMeOF (Protocol snapshotMeta);;
                  got ← getVolumeParametersForSnapshot params snapshotMeta clonedDataset;
                  match got with
                  | Err c => Ret (Err c)
                  | Ok (server, subsystemNQN) =>
                      setupVolumeFromClone req clonedDataset (Protocol snapshotMeta)
                                           server subsystemNQN cloneInfoData
                  end
              end
          end
      end
  end.

(** ** ListSnapshots *)

Definition digitOf (c : ascii) : option Z :=
  let n := Z.of_nat (nat_of_ascii c) in
  if (48 <=? n) && (n <=? 57) then Some (n - 48) else None.

Fixpoint parseDigits (s : string) (acc : Z) : option Z :=
  match s with
  | EmptyString => Some acc
  | String c s' =>
      match digitOf c with
      | Some d => parseDigits s' (10 * acc + d)
      | None => None
      end
  end.

(** [strconv.ParseInt(s, 10, 64)]: an optional sign and decimal digits, in
    the range of int64. *)
Definition ParseInt (s : string) : option Z :=
  match s with
  | EmptyString => None
  | String c rest =>
      let neg := Ascii.eqb c "-" in
      let digits := if Ascii.eqb c "-" || Ascii.eqb c "+" then rest else s in
      if String.eqb digits "" then None
      else match parseDigits digits 0 with
           | None => None
           | Some n =>
               let v := if neg then - n else n in
               if (- 2 ^ 63 <=? v) && (v <? 2 ^ 63) then Some v else None
           end
  end.

(** Modelled from the spec: tnsapi.StringToInt64 is declared outside the
    files at hand; capacity_bytes holds decimal bytes, and an unreadable
    value counts as no capacity. *)
Definition StringToInt64 (s : string) : Z := default 0 (ParseInt s).

(** Modelled from the spec: getZvolCapacity is declared outside the files at
    hand; the spec takes the size of a ZVOL from its volsize. *)
Definition getZvolCapacity (d : Dataset) : Z := default 0 (ds_Volsize d).

Definition encodeSnapshotToken (offset : Z) : string := itoa offset.

Record datasetMeta : Type := mkDatasetMeta {
  dm_volumeID : string;
  dm_protocol : string;
  dm_capacityBytes : Z
}.

Definition emptyList : csi.ListSnapshotsResponse :=
  {| csi.Entries := []; csi.NextToken := "" |}.

(** Capacity of a source volume for [SizeBytes], as the two by-ID listings read it. *)
Definition sizeOfSourceVolume (sourceVolumeID : string) : Prog ApiE Z :=
  got ← call (GetDatasetWithProperties sourceVolumeID);
  match got with
  | Ok (Some ds) =>
      let sizeBytes := match UserProperties ds !! PropertyCapacityBytes with
                       | Some v => StringToInt64 v
                       | None => 0
                       end in
      Ret (if sizeBytes =? 0 then getZvolCapacity (dwp_Dataset ds) else sizeBytes)
  | _ => Ret 0
  end.

Definition listDetachedSnapshotByID (req : csi.ListSnapshotsRequest) (snapshotMeta : SnapshotMetadata)
  : Prog ApiE (rpc csi.ListSnapshotsResponse) :=
  looked ← call (lookupSnapshotByCSIName "" (SnapshotName snapshotMeta));
  match looked with
  | Err _ => Ret (Ok emptyList)
  | Ok None => Ret (Ok emptyList)
  | Ok (Some resolvedMeta) =>
      sizeBytes ←
        (if negb (String.eqb (SourceVolume resolvedMeta) "")
            && isDatasetPathVolumeID (SourceVolume resolvedMeta)
         then sizeOfSourceVolume (SourceVolume resolvedMeta) else Ret 0);
      now ← call TimeNowUnix;
      Ret (Ok {| csi.Entries :=
                   [ {| csi.SnapshotId := csi.lsr_SnapshotId req;
                        csi.SourceVolumeId := SourceVolume resolvedMeta;
                        csi.CreationTime := now;
                        csi.ReadyToUse := true;
                        csi.SizeBytes := sizeBytes |} ];
                 csi.NextToken := "" |})
  end.

Definition listSnapshotByID (req : csi.ListSnapshotsRequest)
  : Prog ApiE (rpc csi.ListSnapshotsResponse) :=
  match decodeSnapshotID (csi.lsr_SnapshotId req) with
  | Err _ => Ret (Ok emptyList)
  | Ok snapshotMeta =>
      if Detached snapshotMeta then listDetachedSnapshotByID req snapshotMeta
      else
        resolved ← resolveZFSSnapshotName snapshotMeta;
        match resolved with
        | Err _ => Ret (Ok emptyList)
        | Ok zfsSnapshotName =>
            q ← call (QuerySnapshots [mkFilter "id" "=" zfsSnapshotName]);
            match q with
            | (_, Some _) => Ret (Err codes.Internal)
            | ([], None) => Ret (Ok emptyList)
            | (_ :: _, None) =>
                let sourceVolumeID := SourceVolume snapshotMeta in
                sizeBytes ← (if isDatasetPathVolumeID sourceVolumeID
                             then sizeOfSourceVolume sourceVolumeID else Ret 0);
                Ret (Ok {| csi.Entries :=
                             [ {| csi.SnapshotId := csi.lsr_SnapshotId req;
                                  csi.SourceVolumeId := SourceVolume snapshotMeta;
                                  csi.CreationTime := CreatedAt snapshotMeta;
                                  csi.ReadyToUse := true;
                                  csi.SizeBytes := sizeBytes |} ];
                           csi.NextToken := "" |})
            end
        end
  end.

(** The managed datasets of [listAllSnapshots], keyed by dataset ID. *)
Definition addManagedDataset (managedMeta : gmap string datasetMeta) (ds : DatasetWithProperties)
  : gmap string datasetMeta :=
  let props := UserProperties ds in
  if match props !! PropertyDetachedSnapshot with
     | Some v => String.eqb v VolumeContextValueTrue
     | None => false
     end
  then managedMeta
  else
    let volumeID := match props !! PropertyCSIVolumeName with
                    | Some v => if negb (String.eqb v "") then v else ds_ID (dwp_Dataset ds)
                    | None => ds_ID (dwp_Dataset ds)
                    end in
    let protocol := match props !! PropertyProtocol with
                    | Some v => if negb (String.eqb v "") then v else ProtocolNFS
                    | None => ProtocolNFS
                    end in
    let capacityBytes0 := match props !! PropertyCapacityBytes with
                          | Some v => StringToInt64 v
                          | None => 0
                          end in
    let capacityBytes :=
      if capacityBytes0 =? 0 then getZvolCapacity (dwp_Dataset ds) else capacityBytes0 in
    <[ ds_ID (dwp_Dataset ds) :=
         {| dm_volumeID := volumeID; dm_protocol := protocol; dm_capacityBytes := capacityBytes |} ]>
      managedMeta.

Definition buildManagedMeta (datasets : list DatasetWithProperties) : gmap string datasetMeta :=
  fold_left addManagedDataset datasets ∅.

(** One snapshot query per managed dataset; a failed query is skipped. *)
Fixpoint querySnapshotsPerDataset (datasetIDs : list string) (allSnapshots : list tnsapi.Snapshot)
  : Prog ApiE (list tnsapi.Snapshot) :=
  match datasetIDs with
  | [] => Ret allSnapshots
  | datasetID :: rest =>
      q ← call (QuerySnapshots [mkFilter "dataset" "=" datasetID]);
      match q with
      | (_, Some _) => querySnapshotsPerDataset rest allSnapshots
      | (snaps, None) => querySnapshotsPerDataset rest (allSnapshots ++ snaps)
      end
  end.

Fixpoint allSnapshotEntries (managedMeta : gmap string datasetMeta) (page : list tnsapi.Snapshot)
  : Prog ApiE (list csi.Snapshot) :=
  match page with
  | [] => Ret []
  | snapshot :: rest =>
      match managedMeta !! snap_Dataset snapshot with
      | None => allSnapshotEntries managedMeta rest
      | Some meta =>
          now ← call TimeNowUnix;
          let snapshotMeta :=
            {| SnapshotName := snap_Name snapshot; SourceVolume := dm_volumeID meta;
               DatasetName := snap_Dataset snapshot; Protocol := dm_protocol meta;
               CreatedAt := now; Detached := false |} in
          match encodeSnapshotID snapshotMeta with
          | Err _ => allSnapshotEntries managedMeta rest
          | Ok snapshotID =>
              entries ← allSnapshotEntries managedMeta rest;
              Ret ({| csi.SnapshotId := snapshotID;
                      csi.SourceVolumeId := dm_volumeID meta;
                      csi.CreationTime := now;
                      csi.ReadyToUse := true;
                      csi.SizeBytes := dm_capacityBytes meta |} :: entries)
          end
      end
  end.

Fixpoint sourceVolumeEntries (sourceVolumeID protocol : string) (sizeBytes : Z)
    (page : list tnsapi.Snapshot) : Prog ApiE (list csi.Snapshot) :=
  match page with
  | [] => Ret []
  | snapshot :: rest =>
      now ← call TimeNowUnix;
      let snapshotMeta :=
        {| SnapshotName := snap_ID snapshot; SourceVolume := sourceVolumeID;
           DatasetName := snap_Dataset snapshot; Protocol := protocol;
           CreatedAt := now; Detached := false |} in
      match encodeSnapshotID snapshotMeta with
      | Err _ => sourceVolumeEntries sourceVolumeID protocol sizeBytes rest
      | Ok snapshotID =>
          entries ← sourceVolumeEntries sourceVolumeID protocol sizeBytes rest;
          Ret ({| csi.SnapshotId := snapshotID;
                  csi.SourceVolumeId := sourceVolumeID;
                  csi.CreationTime := now;
                  csi.ReadyToUse := true;
                  csi.SizeBytes := sizeBytes |} :: entries)
      end
  end.

Section Listing.

(** [fmt.Sscanf(token, "%d", &offset)] of the Go library: the offset read,
    or its error. *)
Variable Sscanf_d : string -> result error Z.

(** The order in which a [range] over the managed-dataset map visits its
    keys; Go leaves it unspecified. *)
Variable rangeKeys : gmap string datasetMeta -> list string.

Definition parseSnapshotToken (token : string) : result error Z :=
  match Sscanf_d token with
  | Err e => Err ("invalid token format: " +:+ e)
  | Ok offset => Ok offset
  end.

(** The pagination shared by the two listings: [entriesOf] turns the page
    [snapshots[startIndex:endIndex]] into entries. *)
Definition paginate (req : csi.ListSnapshotsRequest) (snapshots : list tnsapi.Snapshot)
    (entriesOf : list tnsapi.Snapshot -> Prog ApiE (list csi.Snapshot))
  : Prog ApiE (rpc csi.ListSnapshotsResponse) :=
  let n := Z.of_nat (length snapshots) in
  let maxEntries := if csi.MaxEntries req <=? 0 then n else csi.MaxEntries req in
  let start : result error Z :=
    if negb (String.eqb (csi.StartingToken req) "")
    then parseSnapshotToken (csi.StartingToken req) else Ok 0 in
  match start with
  | Err _ => Ret (Err codes.Aborted)
  | Ok startIndex =>
      if negb (String.eqb (csi.StartingToken req) "") && ((startIndex <? 0) || (n <=? startIndex))
      then Ret (Ok emptyList)
      else
        let endIndex := if n <? startIndex + maxEntries then n else startIndex + maxEntries in
        let page := List.firstn (Z.to_nat (endIndex - startIndex))
                                (List.skipn (Z.to_nat startIndex) snapshots) in
        entries ← entriesOf page;
        Ret (Ok {| csi.Entries := entries;
                   csi.NextToken := if endIndex <? n then encodeSnapshotToken endIndex else "" |})
  end.

Definition listSnapshotsBySourceVolume (req : csi.ListSnapshotsRequest)
  : Prog ApiE (rpc csi.ListSnapshotsResponse) :=
  let sourceVolumeID := csi.lsr_SourceVolumeId req in
  located ←
    (if isDatasetPathVolumeID sourceVolumeID then
       got ← call (GetDatasetWithProperties sourceVolumeID);
       match got with
       | Ok (Some dataset) =>
           let protocol := default "" (UserProperties dataset !! PropertyProtocol) in
           let sizeBytes0 := match UserProperties dataset !! PropertyCapacityBytes with
                             | Some v => StringToInt64 v
                             | None => 0
                             end in
           Ret (Some (sourceVolumeID, protocol,
                      if sizeBytes0 =? 0 then getZvolCapacity (dwp_Dataset dataset)
                      else sizeBytes0))
       | _ => Ret (Some (sourceVolumeID, "", 0))
       end
     else
       discovered ← discoverVolumeBySearching sourceVolumeID;
       match discovered with
       | None => Ret None
       | Some r => Ret (Some (vdr_datasetName r, vdr_protocol r, 0))
       end);
  match located with
  | None => Ret (Ok emptyList)
  | Some (datasetName, protocol, sizeBytes) =>
      q ← call (QuerySnapshots [mkFilter "dataset" "=" datasetName]);
      match q with
      | (_, Some _) => Ret (Err codes.Internal)
      | (snapshots, None) =>
          paginate req snapshots (sourceVolumeEntries sourceVolumeID protocol sizeBytes)
      end
  end.

Definition listAllSnapshots (req : csi.ListSnapshotsRequest)
  : Prog ApiE (rpc csi.ListSnapshotsResponse) :=
  found ← call (FindDatasetsByProperty "" PropertyManagedBy ManagedByValue);
  match found with
  | Err _ => Ret (Err codes.Internal)
  | Ok datasets =>
      let managedMeta := buildManagedMeta datasets in
      allSnapshots ← querySnapshotsPerDataset (rangeKeys managedMeta) [];
      paginate req allSnapshots (allSnapshotEntries managedMeta)
  end.

Definition ListSnapshots (req : csi.ListSnapshotsRequest)
  : Prog ApiE (rpc csi.ListSnapshotsResponse) :=
  if negb (String.eqb (csi.lsr_SnapshotId req) "") then listSnapshotByID req
  else if negb (String.eqb (csi.lsr_SourceVolumeId req) "") then listSnapshotsBySourceVolume req
  else listAllSnapshots req.

End Listing.

(** ** Node: NVMe-oF attach loop and device-size check *)

Definition ErrDeviceSizeMismatch : error := "device size does not match expected capacity".

(** Modelled from the spec: VolumeContextKeyClonedFromSnap is declared outside
    the files at hand; the spec only says that a volume cloned from a
    snapshot waits five more seconds, so the key text is a stand-in. *)
Definition VolumeContextKeyClonedFromSnap : string := "clonedFromSnapshot".

Record nvmeOFConnectionParams : Type := mkNvmeOFConnectionParams {
  nqn : string;
  server : string;
  transport : string;
  port : string;
  nrIOQueues : string;
  queueSize : string
}.

Record MountVolume : Type := mkMountVolume { FsType : string; MountFlags : list string }.

Record VolumeCapability : Type := mkVolumeCapability {
  GetMount : option MountVolume;
  GetBlock : bool
}.

(** [NodeStageVolumeResponse] has no fields. *)
Definition NodeStageVolumeResponse : Type := unit.

(** The steps of the node that shell out or wait on the host, the poll of
    the RPC context, and [stageBlockDevice] and [handleDeviceFormatting]. *)
Inductive NodeE : Type -> Type :=
| ctxDone : NodeE (option error)
| connectNVMeOFTarget (params : nvmeOFConnectionParams) : NodeE (option error)
| waitForSubsystemLive (nqn : string) (timeoutSeconds : Z) : NodeE (option error)
| waitForNVMeDevice (nqn : string) (timeoutSeconds : Z) : NodeE (result error string)
| disconnectNVMeOF (nqn : string) : NodeE (option error)
| timeSleep (seconds : Z) : NodeE unit
| waitForDeviceInitialization (devicePath : string) : NodeE (option error)
| forceDeviceRescan (devicePath : string) : NodeE (option error)
| stageBlockDevice (devicePath stagingTargetPath : string) : NodeE (rpc NodeStageVolumeResponse)
| osStat (path : string) : NodeE (option error)
| logDeviceInfo (devicePath : string) : NodeE unit
| getBlockDeviceSize (devicePath : string) : NodeE (result error Z)
| apiDatasetVolsize (datasetName : string) : NodeE (result error (option Z))
| handleDeviceFormatting (volumeID devicePath fsType datasetName nqn : string) (isClone : bool)
    : NodeE (option codes.Code)
| osMkdirAll (path : string) : NodeE (option error)
| mountIsMounted (path : string) : NodeE (result error bool)
| execMount (mountOptions : list string) (devicePath stagingTargetPath : string)
    : NodeE (option error).

(** An int64 result with Go's wrap-around. *)
Definition wrap64 (z : Z) : Z := (z + 2 ^ 63) mod 2 ^ 64 - 2 ^ 63.

Definition minTolerance : Z := 100 * 1024 * 1024.

Definition verifySizeMatch (actualSize expectedCapacity : Z) : option error :=
  if actualSize >=? expectedCapacity then None
  else
    let sizeDiff := wrap64 (expectedCapacity - actualSize) in
    let tolerance0 := Z.quot expectedCapacity 10 in
    let tolerance := if tolerance0 <? minTolerance then minTolerance else tolerance0 in
    if sizeDiff >? tolerance then
      Some (ErrDeviceSizeMismatch +:+ ": expected " +:+ itoa expectedCapacity +:+ " bytes, got "
            +:+ itoa actualSize +:+ " bytes (diff: " +:+ itoa sizeDiff +:+ " bytes)")
    else None.

(** [getExpectedCapacity]; [hasApiClient] says whether the node has an appliance client. *)
Definition getExpectedCapacity (hasApiClient : bool) (datasetName : string)
    (volumeContext : gmap string string) : Prog NodeE Z :=
  let expectedCapacityStr := at_key volumeContext "expectedCapacity" in
  match (if negb (String.eqb expectedCapacityStr "") then ParseInt expectedCapacityStr else None) with
  | Some capacity => Ret capacity
  | None =>
      if negb (String.eqb datasetName "") && hasApiClient then
        got ← call (apiDatasetVolsize datasetName);
        match got with
        | Err _ => Ret 0
        | Ok (Some parsedSize) => Ret parsedSize
        | Ok None => Ret 0
        end
      else Ret 0
  end.

(** The error of [verifyDeviceSize]: a status when the device is gone, the
    plain error otherwise. *)
Inductive sizeError : Type :=
| SizeUnavailable
| SizeOther (e : error).

Definition verifyDeviceSize (hasApiClient : bool) (devicePath : string)
    (volumeContext : gmap string string) : Prog NodeE (option sizeError) :=
  let datasetName := at_key volumeContext "datasetName" in
  got ← call (getBlockDeviceSize devicePath);
  match got with
  | Err e =>
      st ← call (osStat devicePath);
      match st with
      | Some _ => Ret (Some SizeUnavailable)
      | None => Ret (Some (SizeOther e))
      end
  | Ok actualSize =>
      expectedCapacity ← getExpectedCapacity hasApiClient datasetName volumeContext;
      if expectedCapacity =? 0 then Ret None
      else Ret (option_map SizeOther (verifySizeMatch actualSize expectedCapacity))
  end.

Definition defaultNVMeOFMountOptions : list string := ["noatime"].

Definition extractNVMeOFOptionKey (option : string) : string :=
  let i := strings.Index option "=" in
  if negb (i =? -1) then strings.upto option i else option.

Definition getNVMeOFMountOptions (userOptions : list string) : list string :=
  if (length userOptions =? 0)%nat then defaultNVMeOFMountOptions
  else
    let userOptionKeys := map extractNVMeOFOptionKey userOptions in
    userOptions ++
    List.filter (fun defaultOpt =>
                   negb (existsb (String.eqb (extractNVMeOFOptionKey defaultOpt)) userOptionKeys))
                defaultNVMeOFMountOptions.

Definition formatAndMountNVMeDevice (hasApiClient : bool)
    (volumeID devicePath stagingTargetPath : string) (volumeCapability : VolumeCapability)
    (volumeContext : gmap string string) : Prog NodeE (rpc NodeStageVolumeResponse) :=
  let datasetName := at_key volumeContext "datasetName" in
  let nqn := at_key volumeContext "nqn" in
  st ← call (osStat devicePath);
  match st with
  | Some _ => Ret (Err codes.Unavailable)
  | None =>
      call (logDeviceInfo devicePath);;
      verr ← verifyDeviceSize hasApiClient devicePath volumeContext;
      match verr with
      | Some _ => Ret (Err codes.FailedPrecondition)
      | None =>
          let fsType := match GetMount volumeCapability with
                        | Some mnt => if negb (String.eqb (FsType mnt) "") then FsType mnt else "ext4"
                        | None => "ext4"
                        end in
          let isClone := match volumeContext !! VolumeContextKeyClonedFromSnap with
                         | Some cloned => String.eqb cloned VolumeContextValueTrue
                         | None => false
                         end in
          (if isClone then call (timeSleep 5) else Ret tt);;
          ferr ← call (handleDeviceFormatting volumeID devicePath fsType datasetName nqn isClone);
          match ferr with
          | Some c => Ret (Err c)
          | None =>
              mk ← call (osMkdirAll stagingTargetPath);
              match mk with
              | Some _ => Ret (Err codes.Internal)
              | None =>
                  m ← call (mountIsMounted stagingTargetPath);
                  match m with
                  | Err _ => Ret (Err codes.Internal)
                  | Ok true => Ret (Ok tt)
                  | Ok false =>
                      let userMountOptions := match GetMount volumeCapability with
                                              | Some mnt => MountFlags mnt
                                              | None => []
                                              end in
                      let mountOptions := getNVMeOFMountOptions userMountOptions in
                      merr ← call (execMount mountOptions devicePath stagingTargetPath);
                      match merr with
                      | Some _ => Ret (Err codes.Internal)
                      | None => Ret (Ok tt)
                      end
                  end
              end
          end
      end
  end.

Definition stageNVMeDevice (hasApiClient : bool) (volumeID devicePath stagingTargetPath : string)
    (volumeCapability : VolumeCapability) (isBlockVolume : bool)
    (volumeContext : gmap string string) : Prog NodeE (rpc NodeStageVolumeResponse) :=
  ready ←
    (if negb isBlockVolume then
       werr ← call (waitForDeviceInitialization devicePath);
       match werr with
       | Some _ => Ret false
       | None =>
           call (forceDeviceRescan devicePath);;
           call (timeSleep 2);;
           Ret true
       end
     else Ret true);
  if negb ready then Ret (Err codes.Internal)
  else if isBlockVolume then call (stageBlockDevice devicePath stagingTargetPath)
  else formatAndMountNVMeDevice hasApiClient volumeID devicePath stagingTargetPath
                                volumeCapability volumeContext.

Definition stateWaitTimeout : Z := 60.
Definition deviceWaitTimeout : Z := 60.
Definition maxConnectRetries : Z := 10.
Definition retryDelay : Z := 2.

Definition sleepBeforeRetry (attempt : Z) : Prog NodeE unit :=
  if attempt <? maxConnectRetries then call (timeSleep retryDelay) else Ret tt.

(** The loop [for attempt := 1; attempt <= maxConnectRetries; attempt++] of
    [connectAndStageDevice], by recursion on the attempts left; the code
    after the loop is the case of none left.  [lastErr] only feeds the text
    of the final status and is left out with it. *)
Fixpoint attachAttempts (hasApiClient : bool) (params : nvmeOFConnectionParams)
    (volumeID stagingTargetPath : string) (volumeCapability : VolumeCapability)
    (isBlockVolume : bool) (volumeContext : gmap string string)
    (left : nat) : Prog NodeE (rpc NodeStageVolumeResponse) :=
  match left with
  | O => Ret (Err codes.Internal)
  | S left' =>
      let attempt := maxConnectRetries - Z.of_nat left' in
      let next := attachAttempts hasApiClient params volumeID stagingTargetPath
                                 volumeCapability isBlockVolume volumeContext left' in
      canceled ← call ctxDone;
      match canceled with
      | Some _ => Ret (Err codes.DeadlineExceeded)
      | None =>
          connectErr ← call (connectNVMeOFTarget params);
          match connectErr with
          | Some _ => sleepBeforeRetry attempt;; next
          | None =>
              stateErr ← call (waitForSubsystemLive (nqn params) stateWaitTimeout);
              match stateErr with
              | Some _ =>
                  call (disconnectNVMeOF (nqn params));;
                  sleepBeforeRetry attempt;;
                  next
              | None =>
                  found ← call (waitForNVMeDevice (nqn params) deviceWaitTimeout);
                  match found with
                  | Ok devicePath =>
                      staged ← stageNVMeDevice hasApiClient volumeID devicePath stagingTargetPath
                                               volumeCapability isBlockVolume volumeContext;
                      match staged with
                      | Ok resp => Ret (Ok resp)
                      | Err c =>
                          if codes.eqb c codes.Unavailable then
                            call (disconnectNVMeOF (nqn params));;
                            sleepBeforeRetry attempt;;
                            next
                          else Ret (Err c)
                      end
                  | Err _ =>
                      call (disconnectNVMeOF (nqn params));;
                      sleepBeforeRetry attempt;;
                      next
                  end
              end
          end
      end
  end.

Definition connectAndStageDevice (hasApiClient : bool) (params : nvmeOFConnectionParams)
    (volumeID stagingTargetPath : string) (volumeCapability : VolumeCapability)
    (isBlockVolume : bool) (volumeContext : gmap string string)
  : Prog NodeE (rpc NodeStageVolumeResponse) :=
  attachAttempts hasApiClient params volumeID stagingTargetPath volumeCapability
                 isBlockVolume volumeContext (Z.to_nat maxConnectRetries).


(** ** Node: connection parameters *)

Definition validateNVMeOFParams (volumeContext : gmap string string)
  : rpc nvmeOFConnectionParams :=
  let params := {| nqn := at_key volumeContext "nqn";
                   server := at_key volumeContext "server";
                   transport := at_key volumeContext "transport";
                   port := at_key volumeContext "port";
                   nrIOQueues := at_key volumeContext "nvmeof.nr-io-queues";
                   queueSize := at_key volumeContext "nvmeof.queue-size" |} in
  if String.eqb (nqn params) "" || String.eqb (server params) "" then Err codes.InvalidArgument
  else Ok {| nqn := nqn params;
             server := server params;
             transport := if String.eqb (transport params) "" then "tcp" else transport params;
             port := if String.eqb (port params) "" then "4420" else port params;
             nrIOQueues := nrIOQueues params;
             queueSize := queueSize params |}.

(** ** Dataset paths (utils.go) *)

Definition extractParentDatasetFromDataset (dataset : string) : string :=
  let parts := strings.Split dataset "/" in
  if (1 <? length parts)%nat
  then strings.Join (List.firstn (length parts - 1) parts) "/"
  else "".

Definition extractPoolFromDataset (dataset : string) : string :=
  let parts := strings.Split dataset "/" in
  if (0 <? length parts)%nat then hd_str parts else "".

(** ** kubectl plugin: bindings of volumes (k8s_enrichment.go) *)

Record K8sVolumeBinding : Type := mkK8sVolumeBinding {
  PVName : string;
  PVCName : string;
  PVCNamespace : string;
  PVStatus : string;
  Pods : list string
}.

(** The map holds pointers: [None] is a nil pointer stored under a key. *)
Definition matchK8sBinding (bindings : gmap string (option K8sVolumeBinding))
    (dataset volumeID : string) : option K8sVolumeBinding :=
  match bindings !! dataset with
  | Some b => b
  | None =>
      if negb (String.eqb volumeID "") && negb (String.eqb volumeID dataset) then
        match bindings !! volumeID with
        | Some b => b
        | None => None
        end
      else None
  end.

(** ** Node: the controller of a namespace device *)

Definition isDigit (c : ascii) : bool :=
  let n := nat_of_ascii c in (48 <=? n)%nat && (n <=? 57)%nat.

(** [p (s[i])], false outside [s]. *)
Definition byteIs (p : ascii -> bool) (s : string) (i : nat) : bool :=
  match String.get i s with
  | Some c => p c
  | None => false
  end.

(** The loop of [extractNVMeController], from index [i] down to 0. *)
Fixpoint extractNVMeControllerFrom (devicePath : string) (i : nat) : string :=
  if byteIs (Ascii.eqb "n") devicePath i && (0 <? i)%nat && byteIs isDigit devicePath (i - 1)
     && ((i + 1 <? String.length devicePath)%nat && byteIs isDigit devicePath (i + 1))
  then strings.take i devicePath
  else match i with
       | O => ""
       | S j => extractNVMeControllerFrom devicePath j
       end.

Definition extractNVMeController (devicePath : string) : string :=
  match String.length devicePath with
  | O => ""
  | S last => extractNVMeControllerFrom devicePath last
  end.

(** ** Node: staging an NVMe-oF volume

    [stageNVMeOFVolume] wraps the attach loop: it looks for a device that is
    already connected, checks for the nvme command line tool, and takes a
    slot of the connect semaphore for the time of the attach loop. *)

Definition ErrNVMeControllerNotFound : error :=
  "could not extract NVMe controller path from device path".

(** The steps of the node that the attach loop does not use.  The error of
    [findNVMeDeviceByNQN] comes with the answer to
    [errors.Is(err, ErrNVMeDeviceUnhealthy)]; [acquireConnectSlot] is the
    select between the semaphore and the done channel of the context:
    [None] when the slot was taken, the error of the context otherwise. *)
Inductive StageE : Type -> Type :=
| onNode {X : Type} (e : NodeE X) : StageE X
| findNVMeDeviceByNQN (nqn : string) : StageE (result (bool * error) string)
| nvmeNsRescan (controllerPath : string) : StageE (option error)
| sleepMillis (ms : Z) : StageE unit
| checkNVMeCLI : StageE (option error)
| acquireConnectSlot : StageE (option error)
| releaseConnectSlot : StageE unit.

Fixpoint liftNode {R : Type} (p : Prog NodeE R) : Prog StageE R :=
  match p with
  | Ret r => Ret r
  | Vis e k => Vis (onNode e) (fun x => liftNode (k x))
  end.

Definition rescanNVMeNamespace (devicePath : string) : Prog StageE (option error) :=
  let controllerPath := extractNVMeController devicePath in
  if String.eqb controllerPath "" then
    Ret (Some (ErrNVMeControllerNotFound +:+ ": " +:+ devicePath))
  else
    err ← call (nvmeNsRescan controllerPath);
    match err with
    | Some e => Ret (Some ("ns-rescan failed: " +:+ e))
    | None => Ret None
    end.

Definition healthCheckAttempts : Z := 5.

(** The loop of [verifyDeviceHealthy], by recursion on the attempts left;
    the read of the size (blockdev, trim, parse) is the one of
    [getBlockDeviceSize]. *)
Fixpoint healthChecks (devicePath : string) (left : nat) : Prog StageE bool :=
  match left with
  | O => Ret false
  | S left' =>
      let attempt := healthCheckAttempts - Z.of_nat left' in
      got ← call (onNode (getBlockDeviceSize devicePath));
      if match got with
         | Ok size => 0 <? size
         | Err _ => false
         end
      then Ret true
      else
        (if attempt <? healthCheckAttempts then call (sleepMillis 500) else Ret tt);;
        healthChecks devicePath left'
  end.

Definition verifyDeviceHealthy (devicePath : string) : Prog StageE bool :=
  healthChecks devicePath (Z.to_nat healthCheckAttempts).

(** [tryReuseExistingConnection]: the response when an existing device was
    staged, [None] when there is nothing to reuse, or the status of a failed
    staging. *)
Definition tryReuseExistingConnection (hasApiClient : bool) (params : nvmeOFConnectionParams)
    (volumeID stagingTargetPath : string) (volumeCapability : VolumeCapability)
    (isBlockVolume : bool) (volumeContext : gmap string string)
  : Prog StageE (rpc (option NodeStageVolumeResponse)) :=
  found ← call (findNVMeDeviceByNQN (nqn params));
  match found with
  | Err (true, _) =>
      call (onNode (disconnectNVMeOF (nqn params)));;
      call (onNode (timeSleep 2));;
      Ret (Ok None)
  | Err (false, _) => Ret (Ok None)
  | Ok devicePath =>
      if String.eqb devicePath "" then Ret (Ok None)
      else
        rescanNVMeNamespace devicePath;;
        healthy ← verifyDeviceHealthy devicePath;
        if negb healthy then
          call (onNode (disconnectNVMeOF (nqn params)));;
          Ret (Ok None)
        else
          staged ← liftNode (stageNVMeDevice hasApiClient volumeID devicePath stagingTargetPath
                                             volumeCapability isBlockVolume volumeContext);
          match staged with
          | Err c => Ret (Err c)
          | Ok resp => Ret (Ok (Some resp))
          end
  end.

Definition stageNVMeOFVolume (hasApiClient : bool) (volumeID stagingTargetPath : string)
    (volumeCapability : VolumeCapability) (volumeContext : gmap string string)
  : Prog StageE (rpc NodeStageVolumeResponse) :=
  match validateNVMeOFParams volumeContext with
  | Err c => Ret (Err c)
  | Ok params =>
      let isBlockVolume := GetBlock volumeCapability in
      reused ← tryReuseExistingConnection hasApiClient params volumeID stagingTargetPath
                                          volumeCapability isBlockVolume volumeContext;
      match reused with
      | Err c => Ret (Err c)
      | Ok (Some resp) => Ret (Ok resp)
      | Ok None =>
          cli ← call checkNVMeCLI;
          match cli with
          | Some _ => Ret (Err codes.FailedPrecondition)
          | None =>
              slot ← call acquireConnectSlot;
              match slot with
              | Some _ => Ret (Err codes.DeadlineExceeded)
              | None =>
                  defer (call releaseConnectSlot)
                        (liftNode (connectAndStageDevice hasApiClient params volumeID
                                     stagingTargetPath volumeCapability isBlockVolume
                                     volumeContext))
              end
          end
      end
  end.

(** ** Notions used in the statements *)

(** [s] holds no byte [c]. *)
Definition lacks (c : ascii) (s : string) : Prop :=
  strings.Contains s (String c EmptyString) = false.

Definition validProtocol (p : string) : Prop :=
  p = ProtocolNFS \/ p = ProtocolNVMeOF \/ p = ProtocolISCSI.

(** What a snapshot ID keeps of a metadata record. *)
Definition decodedForm (m : SnapshotMetadata) : SnapshotMetadata :=
  {| SnapshotName := shortSnapshotName (SnapshotName m);
     SourceVolume := SourceVolume m;
     DatasetName := "";
     Protocol := Protocol m;
     CreatedAt := 0;
     Detached := Detached m |}.

(** The metadata [createRegularSnapshot] builds for a snapshot of a volume. *)
Definition m0 : SnapshotMetadata :=
  {| SnapshotName := "tank/k8s/pvc-abc123@snap-xyz789"; SourceVolume := "pvc-abc123";
     DatasetName := "tank/k8s/pvc-abc123"; Protocol := "nfs"; CreatedAt := 1700000000;
     Detached := false |}.

(** The dataset and the name of a snapshot whose ID has the form dataset@name. *)
Definition snapshotOn (s : tnsapi.Snapshot) : option (string * string) :=
  match strings.Split (snap_ID s) "@" with
  | [d; n] => Some (d, n)
  | _ => None
  end.

(** The response of CreateSnapshot for a snapshot ID, a source volume and a time. *)
Definition snapshotResponse (snapshotID sourceVolumeID : string) (createdAt : Z)
  : csi.CreateSnapshotResponse :=
  csi.mkCreateSnapshotResponse
    {| csi.SnapshotId := snapshotID; csi.SourceVolumeId := sourceVolumeID;
       csi.CreationTime := createdAt; csi.ReadyToUse := true; csi.SizeBytes := 0 |}.

(** Calls of one kind in a trace. *)
Definition isCreateSnapshotCall (ev : Event ApiE) : bool :=
  match ev with
  | Ev e _ => match e with CreateSnapshot _ => true | _ => false end
  end.

(** The snapshot whose property write failed. *)
Definition failedSnapshotPropertyWrite (ev : Event ApiE) : option string :=
  match ev with
  | Ev e x =>
      match e in ApiE X return X -> option string with
      | SetSnapshotProperties snapshotID _ _ =>
          fun err => match err with Some _ => Some snapshotID | None => None end
      | _ => fun _ => None
      end x
  end.

(** The first snapshot of a list whose ID has the form dataset@name. *)
Fixpoint firstWellFormed (snaps : list tnsapi.Snapshot) : option tnsapi.Snapshot :=
  match snaps with
  | [] => None
  | s :: rest =>
      match snapshotOn s with
      | Some _ => Some s
      | None => firstWellFormed rest
      end
  end.

(** ** Scripted appliances

    Handlers with canned answers, in the manner of the mock client of the Go
    tests; they serve as concrete inputs. *)

Definition datasetNamed (name : string) : Dataset :=
  {| ds_ID := name; ds_Name := name; ds_Type := "FILESYSTEM";
     ds_Mountpoint := "/mnt/" +:+ name; ds_Volsize := None |}.

Definition snapshotNamed (dataset name : string) : tnsapi.Snapshot :=
  {| snap_ID := dataset +:+ "@" +:+ name; snap_Name := dataset +:+ "@" +:+ name;
     snap_Dataset := dataset |}.

(** Every call succeeds, every query comes back empty, the clock stands still. *)
Definition quietAnswer (X : Type) (e : ApiE X) : X :=
  match e in ApiE X return X with
  | QuerySnapshots _ => ([], None)
  | CreateSnapshot p => Ok (snapshotNamed (scp_Dataset p) (scp_Name p))
  | DeleteSnapshot _ => None
  | SetSnapshotProperties _ _ _ => None
  | CloneSnapshot p => Ok (datasetNamed (csp_Dataset p))
  | QueryAllDatasets _ => ([], None)
  | CreateDataset p => Ok (datasetNamed (dcp_Name p))
  | DeleteDataset _ => None
  | GetDataset d => Ok (datasetNamed d)
  | PromoteDataset _ => None
  | GetDatasetProperties _ _ => Ok ∅
  | SetDatasetProperties _ _ => None
  | GetDatasetWithProperties _ => Ok None
  | FindDatasetsByProperty _ _ _ => Ok []
  | RunOnetimeReplicationAndWait _ _ => None
  | QueryAllNFSShares _ => ([], None)
  | QueryAllNVMeOFNamespaces => ([], None)
  | QueryISCSIExtents => ([], None)
  | TimeNowUnix => 1700000000
  | TimeNowUnixNano => 1700000000000000000
  | Sleep _ => tt
  | lookupVolumeByCSIName _ _ => Ok None
  | lookupSnapshotByCSIName _ _ => Ok None
  | setupNFSVolumeFromClone _ d _ _ =>
      Ok {| csi.VolumeId := ds_ID d; csi.VolumeContext := ∅ |}
  | setupNVMeOFVolumeFromClone _ d _ _ _ =>
      Ok {| csi.VolumeId := ds_ID d; csi.VolumeContext := ∅ |}
  | setupISCSIVolumeFromClone _ d _ _ =>
      Ok {| csi.VolumeId := ds_ID d; csi.VolumeContext := ∅ |}
  end.

Definition quiet : Handler ApiE unit := fun X e w => (quietAnswer X e, w).

(** As [quiet], with every snapshot query answered by [snaps]. *)
Definition snapshotsListed (snaps : list tnsapi.Snapshot) : Handler ApiE unit :=
  fun X e w =>
    (match e in ApiE X return X -> X with
     | QuerySnapshots _ => fun _ => (snaps, None)
     | _ => fun d => d
     end (quietAnswer X e), w).

(** As [quiet], with every write of snapshot properties failing. *)
Definition snapshotPropertiesFail : Handler ApiE unit :=
  fun X e w =>
    (match e in ApiE X return X -> X with
     | SetSnapshotProperties _ _ _ => fun _ => Some "connection lost"
     | _ => fun d => d
     end (quietAnswer X e), w).

(** An answer that tells the snapshot described by [meta] is not there: a
    name query that fails or lists no snapshot of the volume, a property
    look-up that fails or finds no dataset, or a not-found error of the
    appliance. *)
Definition reportsMissing (meta : SnapshotMetadata) (ev : Event ApiE) : bool :=
  match ev with
  | Ev e x =>
      match e in ApiE X return X -> bool with
      | QuerySnapshots _ =>
          fun q => match q with
                   | (_, Some _) => true
                   | (snaps, None) =>
                       match findSnapshotOfVolume (SnapshotName meta) (SourceVolume meta) snaps with
                       | Some _ => false
                       | None => true
                       end
                   end
      | lookupSnapshotByCSIName _ _ =>
          fun r => match r with
                   | Err _ => true
                   | Ok None => true
                   | Ok (Some m) => String.eqb (DatasetName m) ""
                   end
      | GetDatasetProperties _ _ =>
          fun r => match r with
                   | Err e => isNotFoundError (Some e)
                   | Ok _ => false
                   end
      | DeleteSnapshot _ => fun err => isNotFoundError err
      | DeleteDataset _ => fun err => isNotFoundError err
      | _ => fun _ => false
      end x
  end.

Definition snapshotMissing (snapshotID : string) (tr : list (Event ApiE)) : bool :=
  match decodeSnapshotID snapshotID with
  | Err _ => true
  | Ok meta => existsb (reportsMissing meta) tr
  end.

(** The ownership test of [deleteDetachedSnapshot] on the properties read. *)
Definition verifiedOwnership (props : gmap string string) : bool :=
  String.eqb (at_key props PropertyManagedBy) ManagedByValue &&
  String.eqb (at_key props PropertyDetachedSnapshot) VolumeContextValueTrue.

Definition deletedDataset (ev : Event ApiE) : option string :=
  match ev with
  | Ev e _ => match e with DeleteDataset d => Some d | _ => None end
  end.

Definition propertiesRead (ev : Event ApiE)
  : option (string * result error (gmap string string)) :=
  match ev with
  | Ev e x =>
      match e in ApiE X return X -> option (string * result error (gmap string string)) with
      | GetDatasetProperties d _ => fun r => Some (d, r)
      | _ => fun _ => None
      end x
  end.

(** A small appliance: datasets with their user properties; [readsFail]
    makes every property read fail with a transport error. *)
Record Appliance : Type := mkAppliance {
  datasets : gmap string (gmap string string);
  readsFail : bool
}.

Definition taggedWith (name : string) (entry : string * gmap string string) : bool :=
  match entry.2 !! PropertySnapshotID with
  | Some v => String.eqb v name
  | None => false
  end.

Definition appliance : Handler ApiE Appliance :=
  fun X e a =>
    match e in ApiE X return X -> X * Appliance with
    | GetDatasetProperties d _ =>
        fun _ =>
          if readsFail a then (Err "connection lost", a)
          else match datasets a !! d with
               | Some props => (Ok props, a)
               | None => (Err ("dataset " +:+ d +:+ " does not exist"), a)
               end
    | DeleteDataset d =>
        fun _ =>
          match datasets a !! d with
          | Some _ => (None, {| datasets := delete d (datasets a); readsFail := readsFail a |})
          | None => (Some ("dataset " +:+ d +:+ " does not exist"), a)
          end
    | lookupSnapshotByCSIName _ name =>
        fun _ =>
          match List.find (taggedWith name) (map_to_list (datasets a)) with
          | Some (d, props) =>
              (Ok (Some {| SnapshotName := name;
                           SourceVolume := at_key props PropertySourceVolumeID;
                           DatasetName := d;
                           Protocol := at_key props PropertyProtocol;
                           CreatedAt := 0;
                           Detached := true |}), a)
          | None => (Ok None, a)
          end
    | _ => fun d => (d, a)
    end (quietAnswer X e).

(** A dataset that carries a snapshot_id tag but belongs to someone else, on
    an appliance whose property reads fail. *)
Definition foreignProps : gmap string string :=
  list_to_map [ (PropertySnapshotID, "snap-dr"); (PropertyManagedBy, "someone-else") ].

Definition faultyAppliance : Appliance :=
  {| datasets := {[ "tank/backups/snap-dr" := foreignProps ]}; readsFail := true |}.

(** The dataset on which a write of the CSI property bundle (the one that
    carries snapshot_id) failed, resp. succeeded. *)
Definition failedBundleWrite (ev : Event ApiE) : option string :=
  match ev with
  | Ev e x =>
      match e in ApiE X return X -> option string with
      | SetDatasetProperties d props =>
          fun err => match err, props !! PropertySnapshotID with
                     | Some _, Some _ => Some d
                     | _, _ => None
                     end
      | _ => fun _ => None
      end x
  end.

Definition bundleWritten (ev : Event ApiE) : bool :=
  match ev with
  | Ev e x =>
      match e in ApiE X return X -> bool with
      | SetDatasetProperties d props =>
          fun err => match err, props !! PropertySnapshotID with
                     | None, Some _ => true
                     | _, _ => false
                     end
      | _ => fun _ => false
      end x
  end.

Definition isReplication (ev : Event ApiE) : bool :=
  match ev with
  | Ev e _ => match e with RunOnetimeReplicationAndWait _ _ => true | _ => false end
  end.

(** The dataset of the first failed bundle write of a trace, with the calls after it. *)
Fixpoint afterFailedBundleWrite (tr : list (Event ApiE))
  : option (string * list (Event ApiE)) :=
  match tr with
  | [] => None
  | ev :: rest =>
      match failedBundleWrite ev with
      | Some d => Some (d, rest)
      | None => afterFailedBundleWrite rest
      end
  end.

(** As [quiet], with every write of dataset properties failing. *)
Definition datasetPropertiesFail : Handler ApiE unit :=
  fun X e w =>
    (match e in ApiE X return X -> X with
     | SetDatasetProperties _ _ => fun _ => Some "connection lost"
     | QueryAllDatasets pre => fun _ => ([datasetNamed "tank/csi-detached-snapshots"], None)
     | _ => fun d => d
     end (quietAnswer X e), w).

Definition isPromoteCall (ev : Event ApiE) : bool :=
  match ev with
  | Ev e _ => match e with PromoteDataset _ => true | _ => false end
  end.


Definition cloneCall (ev : Event ApiE) : option CloneSnapshotParams :=
  match ev with
  | Ev e _ => match e with CloneSnapshot p => Some p | _ => None end
  end.

Definition snapshotCreation (ev : Event ApiE) : option SnapshotCreateParams :=
  match ev with
  | Ev e _ => match e with CreateSnapshot p => Some p | _ => None end
  end.




(** A restore request that asks for a promoted and a detached clone at once. *)
Definition restoreRequest : csi.CreateVolumeRequest :=
  {| csi.cvr_Name := "pvc-restored";
     csi.cvr_Parameters :=
       Some (list_to_map [ ("server", "10.0.0.1");
                           (PromotedVolumesFromSnapshotsParam, "true");
                           (DetachedVolumesFromSnapshotsParam, "true") ]) |}.

(** The filters of a snapshot query. *)
Definition snapshotQuery (ev : Event ApiE) : option (list Filter) :=
  match ev with
  | Ev e x =>
      match e in ApiE X return X -> option (list Filter) with
      | QuerySnapshots filters => fun _ => Some filters
      | _ => fun _ => None
      end x
  end.

(** The dataset carries the user property detached_snapshot = true. *)
Definition markedDetached (ds : DatasetWithProperties) : bool :=
  match UserProperties ds !! PropertyDetachedSnapshot with
  | Some v => String.eqb v VolumeContextValueTrue
  | None => false
  end.

(** A [range] visits keys of the map only. *)
Definition visitsKeys (rangeKeys : gmap string datasetMeta -> list string) : Prop :=
  forall m k, In k (rangeKeys m) -> is_Some (m !! k).

(** One order a [range] may take: the keys as the map lists them. *)
Definition keysOf (m : gmap string datasetMeta) : list string := (map_to_list m).*1.

Definition managedDataset (id : string) (props : list (string * string)) : DatasetWithProperties :=
  {| dwp_Dataset := datasetNamed id; UserProperties := list_to_map props |}.

(** As [quiet], with the property search finding two volumes and one
    detached-snapshot dataset. *)
Definition threeManaged : Handler ApiE unit :=
  fun X e w =>
    (match e in ApiE X return X -> X with
     | FindDatasetsByProperty _ _ _ =>
         fun _ => Ok [ managedDataset "tank/k8s/vol1" [(PropertyManagedBy, ManagedByValue)];
                       managedDataset "tank/csi-detached-snapshots/snap-dr"
                         [(PropertyManagedBy, ManagedByValue);
                          (PropertyDetachedSnapshot, VolumeContextValueTrue)];
                       managedDataset "tank/k8s/vol2" [(PropertyManagedBy, ManagedByValue)] ]
     | _ => fun d => d
     end (quietAnswer X e), w).

Definition listEverything : csi.ListSnapshotsRequest :=
  {| csi.MaxEntries := 0; csi.StartingToken := ""; csi.lsr_SourceVolumeId := "";
     csi.lsr_SnapshotId := "" |}.

(** Events of the node. *)
Definition deviceSizeRead (ev : Event NodeE) : option Z :=
  match ev with
  | Ev e x =>
      match e in NodeE X return X -> option Z with
      | getBlockDeviceSize _ => fun r => match r with Ok a => Some a | Err _ => None end
      | _ => fun _ => None
      end x
  end.

Definition isFormatting (ev : Event NodeE) : bool :=
  match ev with
  | Ev e _ => match e with handleDeviceFormatting _ _ _ _ _ _ => true | _ => false end
  end.

Definition isConnect (ev : Event NodeE) : bool :=
  match ev with
  | Ev e _ => match e with connectNVMeOFTarget _ => true | _ => false end
  end.


(** The wait for the device came back with a device path. *)
Definition deviceAppeared (ev : Event NodeE) : bool :=
  match ev with
  | Ev e x =>
      match e in NodeE X return X -> bool with
      | waitForNVMeDevice _ _ => fun r => match r with Ok _ => true | Err _ => false end
      | _ => fun _ => false
      end x
  end.

(** The poll of the RPC context found it done. *)
Definition contextCanceled (ev : Event NodeE) : bool :=
  match ev with
  | Ev e x =>
      match e in NodeE X return X -> bool with
      | ctxDone => fun r => match r with Some _ => true | None => false end
      | _ => fun _ => false
      end x
  end.


(** A host on which every step succeeds; the device, of [size] bytes, is
    there when [present]. *)
Definition hostAnswer (present : bool) (size : Z) (X : Type) (e : NodeE X) : X :=
  match e in NodeE X return X with
  | ctxDone => None
  | connectNVMeOFTarget _ => None
  | waitForSubsystemLive _ _ => None
  | waitForNVMeDevice _ _ => if present then Ok "/dev/nvme0n1" else Err "timeout waiting for NVMe device"
  | disconnectNVMeOF _ => None
  | timeSleep _ => tt
  | waitForDeviceInitialization _ => None
  | forceDeviceRescan _ => None
  | stageBlockDevice _ _ => Ok tt
  | osStat _ => None
  | logDeviceInfo _ => tt
  | getBlockDeviceSize _ => Ok size
  | apiDatasetVolsize _ => Ok None
  | handleDeviceFormatting _ _ _ _ _ _ => None
  | osMkdirAll _ => None
  | mountIsMounted _ => Ok false
  | execMount _ _ _ => None
  end.

Definition host (present : bool) (size : Z) : Handler NodeE unit :=
  fun X e w => (hostAnswer present size X e, w).

Definition ext4Mount : VolumeCapability :=
  {| GetMount := Some {| FsType := "ext4"; MountFlags := [] |}; GetBlock := false |}.

Definition oneGiBVolume : gmap string string :=
  list_to_map [ ("nqn", "nqn.2137.csi.tns:pvc-1"); ("server", "10.0.0.1");
                ("datasetName", "tank/k8s/pvc-1"); ("expectedCapacity", "1073741824") ].



(** The error of a failed delete call, of a snapshot or of a dataset. *)
Definition deleteFailure (ev : Event ApiE) : option error :=
  match ev with
  | Ev e x =>
      match e in ApiE X return X -> option error with
      | DeleteSnapshot _ => fun err => err
      | DeleteDataset _ => fun err => err
      | _ => fun _ => None
      end x
  end.

(** As [quiet], with every delete call failing with [msg]. *)
Definition deletesFail (msg : string) : Handler ApiE unit :=
  fun X e w =>
    (match e in ApiE X return X -> X with
     | DeleteSnapshot _ => fun _ => Some msg
     | DeleteDataset _ => fun _ => Some msg
     | _ => fun d => d
     end (quietAnswer X e), w).

(** More events of the node. *)
Definition mountCall (ev : Event NodeE) : option (list string * string * string) :=
  match ev with
  | Ev e _ =>
      match e with
      | execMount mountOptions devicePath stagingTargetPath =>
          Some (mountOptions, devicePath, stagingTargetPath)
      | _ => None
      end
  end.

Definition alreadyMounted (ev : Event NodeE) : bool :=
  match ev with
  | Ev e x =>
      match e in NodeE X return X -> bool with
      | mountIsMounted _ => fun r => match r with Ok true => true | _ => false end
      | _ => fun _ => false
      end x
  end.

Definition formattingPassed (ev : Event NodeE) : bool :=
  match ev with
  | Ev e x =>
      match e in NodeE X return X -> bool with
      | handleDeviceFormatting _ _ _ _ _ _ =>
          fun r => match r with None => true | Some _ => false end
      | _ => fun _ => false
      end x
  end.

Definition sizeReadFailed (ev : Event NodeE) : bool :=
  match ev with
  | Ev e x =>
      match e in NodeE X return X -> bool with
      | getBlockDeviceSize _ => fun r => match r with Err _ => true | Ok _ => false end
      | _ => fun _ => false
      end x
  end.

Definition isVolsizeQuery (ev : Event NodeE) : bool :=
  match ev with
  | Ev e _ => match e with apiDatasetVolsize _ => true | _ => false end
  end.

Definition userMountFlags (volumeCapability : VolumeCapability) : list string :=
  match GetMount volumeCapability with
  | Some mnt => MountFlags mnt
  | None => []
  end.

(** As [host], with the staging path already mounted. *)
Definition hostMounted : Handler NodeE unit :=
  fun X e w =>
    (match e in NodeE X return X -> X with
     | mountIsMounted _ => fun _ => Ok true
     | _ => fun d => d
     end (hostAnswer true 1073741824 X e), w).




(** As [quiet], with every queried dataset found. *)
Definition everythingExists : Handler ApiE unit :=
  fun X e w =>
    (match e in ApiE X return X -> X with
     | QueryAllDatasets pre => fun _ => ([datasetNamed pre], None)
     | _ => fun d => d
     end (quietAnswer X e), w).

Definition zeroCapacityVolume : gmap string string :=
  list_to_map [ ("nqn", "nqn.2137.csi.tns:pvc-1"); ("server", "10.0.0.1");
                ("datasetName", "tank/k8s/pvc-1"); ("expectedCapacity", "0") ].

(** The dataset of a successful creation, and the query that found [parent]. *)
Definition createdDataset (ev : Event ApiE) : option DatasetCreateParams :=
  match ev with
  | Ev e x =>
      match e in ApiE X return X -> option DatasetCreateParams with
      | CreateDataset p => fun r => match r with Ok _ => Some p | Err _ => None end
      | _ => fun _ => None
      end x
  end.

Definition datasetCreation (ev : Event ApiE) : option DatasetCreateParams :=
  match ev with
  | Ev e _ => match e with CreateDataset p => Some p | _ => None end
  end.

Definition parentFound (parent : string) (ev : Event ApiE) : bool :=
  match ev with
  | Ev e x =>
      match e in ApiE X return X -> bool with
      | QueryAllDatasets pre =>
          fun q => match q.2 with
                   | Some _ => false
                   | None => existsb (fun d => String.eqb (ds_Name d) parent
                                               || String.eqb (ds_ID d) parent) q.1
                   end
      | _ => fun _ => false
      end x
  end.

(** A string of decimal digits. *)
Fixpoint allDigits (s : string) : bool :=
  match s with
  | EmptyString => true
  | String c s' => isDigit c && allDigits s'
  end.

(** Events of the staging entry point. *)
Definition liftEv (ev : Event NodeE) : Event StageE :=
  match ev with
  | Ev e x => Ev (onNode e) x
  end.

(** The handler of the node steps inside a handler of the staging steps. *)
Definition restrict {W : Type} (h : Handler StageE W) : Handler NodeE W :=
  fun X e w => h X (onNode e) w.

Definition isConnectStep (ev : Event StageE) : bool :=
  match ev with
  | Ev e _ =>
      match e with
      | onNode e' => match e' with connectNVMeOFTarget _ => true | _ => false end
      | _ => false
      end
  end.

Definition slotTaken (ev : Event StageE) : bool :=
  match ev with
  | Ev e x =>
      match e in StageE X return X -> bool with
      | acquireConnectSlot => fun r => match r with None => true | Some _ => false end
      | _ => fun _ => false
      end x
  end.

Definition slotDenied (ev : Event StageE) : bool :=
  match ev with
  | Ev e x =>
      match e in StageE X return X -> bool with
      | acquireConnectSlot => fun r => match r with None => false | Some _ => true end
      | _ => fun _ => false
      end x
  end.

Definition isRelease (ev : Event StageE) : bool :=
  match ev with
  | Ev e _ => match e with releaseConnectSlot => true | _ => false end
  end.

Definition cliMissing (ev : Event StageE) : bool :=
  match ev with
  | Ev e x =>
      match e in StageE X return X -> bool with
      | checkNVMeCLI => fun r => match r with None => false | Some _ => true end
      | _ => fun _ => false
      end x
  end.

(** A connect, or a step on the connect semaphore or the tool check. *)
Definition gateEvent (ev : Event StageE) : bool :=
  match ev with
  | Ev e _ =>
      match e with
      | onNode e' => match e' with connectNVMeOFTarget _ => true | _ => false end
      | checkNVMeCLI | acquireConnectSlot | releaseConnectSlot => true
      | _ => false
      end
  end.

(** A node on which every step succeeds; a device is already connected
    when [connected]. *)
Definition stagingHost (connected : bool) : Handler StageE unit :=
  fun X e w =>
    (match e in StageE X return X with
     | onNode e' => hostAnswer true 1073741824 _ e'
     | findNVMeDeviceByNQN _ =>
         if connected then Ok "/dev/nvme0n1" else Err (false, "NVMe device not found")
     | nvmeNsRescan _ => None
     | sleepMillis _ => tt
     | checkNVMeCLI => None
     | acquireConnectSlot => None
     | releaseConnectSlot => tt
     end, w).

Definition positiveRead (ev : Event StageE) : bool :=
  match ev with
  | Ev e x =>
      match e in StageE X return X -> bool with
      | onNode e' =>
          match e' in NodeE X return X -> bool with
          | getBlockDeviceSize _ => fun r => match r with Ok size => 0 <? size | Err _ => false end
          | _ => fun _ => false
          end
      | _ => fun _ => false
      end x
  end.

Definition isSizeRead (ev : Event StageE) : bool :=
  match ev with
  | Ev e _ =>
      match e with
      | onNode e' => match e' with getBlockDeviceSize _ => true | _ => false end
      | _ => false
      end
  end.

Definition isShortSleep (ev : Event StageE) : bool :=
  match ev with
  | Ev e _ => match e with sleepMillis ms => ms =? 500 | _ => false end
  end.


(** As [quiet], with the property search finding one volume, and every
    snapshot query listing two snapshots of it. *)
Definition managedWithSnapshots : Handler ApiE unit :=
  fun X e w =>
    (match e in ApiE X return X -> X with
     | FindDatasetsByProperty _ _ _ =>
         fun _ => Ok [ managedDataset "tank/k8s/vol1"
                         [(PropertyManagedBy, ManagedByValue); (PropertyProtocol, "nfs")] ]
     | QuerySnapshots _ =>
         fun _ => ([snapshotNamed "tank/k8s/vol1" "snap-1";
                    snapshotNamed "tank/k8s/vol1" "snap-2"], None)
     | _ => fun d => d
     end (quietAnswer X e), w).

Definition listOnePerPage : csi.ListSnapshotsRequest :=
  {| csi.MaxEntries := 1; csi.StartingToken := ""; csi.lsr_SourceVolumeId := "";
     csi.lsr_SnapshotId := "" |}.

(* ====================================================================== *)
(** * Part II. Properties                                                  *)
(* ====================================================================== *)

(** ** Facts about the string primitives *)

Lemma prefix_byte (c : ascii) (s : string) :
  String.prefix (String c EmptyString) s =
  match s with String a _ => Ascii.eqb c a | EmptyString => false end.
Proof.
  destruct s as [|a s]; simpl; [reflexivity|].
  destruct (ascii_dec c a) as [->|Hne].
  - rewrite Ascii.eqb_refl. destruct s; reflexivity.
  - symmetry. apply Ascii.eqb_neq. exact Hne.
Qed.

Lemma len_nonneg (s : string) : 0 <= strings.len s.
Proof. unfold strings.len. lia. Qed.

Lemma len_cons (a : ascii) (s : string) : strings.len (String a s) = strings.len s + 1.
Proof. unfold strings.len. simpl String.length. lia. Qed.

Lemma len_app (s t : string) : strings.len (s +:+ t) = strings.len s + strings.len t.
Proof.
  induction s as [|a s IH]; simpl.
  - unfold strings.len. simpl. lia.
  - rewrite !len_cons, IH. lia.
Qed.

Lemma Index_cons_byte (c a : ascii) (s : string) :
  strings.Index (String a s) (String c EmptyString) =
  if Ascii.eqb c a then 0
  else if strings.Index s (String c EmptyString) =? -1 then -1
       else strings.Index s (String c EmptyString) + 1.
Proof.
  change (strings.Index (String a s) (String c EmptyString))
    with (if String.prefix (String c EmptyString) (String a s) then 0
          else if strings.Index s (String c EmptyString) =? -1 then -1
               else strings.Index s (String c EmptyString) + 1).
  rewrite prefix_byte. reflexivity.
Qed.

Lemma Index_cons (a : ascii) (s sub : string) :
  strings.Index (String a s) sub =
  if String.prefix sub (String a s) then 0
  else if strings.Index s sub =? -1 then -1 else strings.Index s sub + 1.
Proof. reflexivity. Qed.

Lemma Index_range (s sub : string) : -1 <= strings.Index s sub.
Proof.
  induction s as [|a s IH].
  - destruct sub; simpl; lia.
  - rewrite Index_cons. destruct (String.prefix sub (String a s)); [lia|].
    destruct (strings.Index s sub =? -1) eqn:E; lia.
Qed.

Lemma LastIndex_cons_byte (c a : ascii) (s : string) :
  strings.LastIndex (String a s) (String c EmptyString) =
  if strings.LastIndex s (String c EmptyString) =? -1
  then (if Ascii.eqb c a then 0 else -1)
  else strings.LastIndex s (String c EmptyString) + 1.
Proof.
  change (strings.LastIndex (String a s) (String c EmptyString))
    with (if strings.LastIndex s (String c EmptyString) =? -1
          then (if String.prefix (String c EmptyString) (String a s) then 0 else -1)
          else strings.LastIndex s (String c EmptyString) + 1).
  rewrite prefix_byte. reflexivity.
Qed.

Lemma lacks_nil (c : ascii) : lacks c EmptyString.
Proof. reflexivity. Qed.

Lemma lacks_cons (c a : ascii) (s : string) :
  lacks c (String a s) <-> a <> c /\ lacks c s.
Proof.
  unfold lacks, strings.Contains. rewrite Index_cons_byte.
  pose proof (Index_range s (String c EmptyString)) as Hr.
  destruct (Ascii.eqb c a) eqn:Eca.
  - apply Ascii.eqb_eq in Eca. subst. simpl. split; [discriminate|]. intros [H _]. congruence.
  - apply Ascii.eqb_neq in Eca.
    destruct (strings.Index s (String c EmptyString) =? -1) eqn:Ei.
    + apply Z.eqb_eq in Ei. rewrite Ei. simpl. split; [intros _; split; [congruence|reflexivity]|reflexivity].
    + apply Z.eqb_neq in Ei. split.
      * intros H. apply Z.leb_gt in H. lia.
      * intros [_ H]. apply Z.leb_gt in H. lia.
Qed.

Lemma lacks_Index (c : ascii) (s : string) :
  lacks c s <-> strings.Index s (String c EmptyString) = -1.
Proof.
  unfold lacks, strings.Contains.
  pose proof (Index_range s (String c EmptyString)).
  rewrite Z.leb_gt. lia.
Qed.

Lemma Index_app_byte (c : ascii) (p r : string) :
  lacks c p -> strings.Index (p +:+ String c r) (String c EmptyString) = strings.len p.
Proof.
  induction p as [|a p IH]; intros Hp.
  - simpl String.append. rewrite Index_cons_byte, Ascii.eqb_refl. reflexivity.
  - apply lacks_cons in Hp as [Hne Hp]. simpl String.append.
    rewrite Index_cons_byte, (IH Hp), len_cons.
    assert (Ascii.eqb c a = false) as -> by (apply Ascii.eqb_neq; congruence).
    pose proof (len_nonneg p).
    destruct (strings.len p =? -1) eqn:E; [apply Z.eqb_eq in E; lia|reflexivity].
Qed.

Lemma lacks_LastIndex (c : ascii) (s : string) :
  lacks c s -> strings.LastIndex s (String c EmptyString) = -1.
Proof.
  induction s as [|a s IH]; intros Hs; [reflexivity|].
  apply lacks_cons in Hs as [Hne Hs].
  rewrite LastIndex_cons_byte, (IH Hs). simpl.
  assert (Ascii.eqb c a = false) as -> by (apply Ascii.eqb_neq; congruence).
  reflexivity.
Qed.

Lemma LastIndex_app_byte (c : ascii) (v n : string) :
  lacks c n -> strings.LastIndex (v +:+ String c n) (String c EmptyString) = strings.len v.
Proof.
  intros Hn. induction v as [|a v IH].
  - simpl String.append. rewrite LastIndex_cons_byte, (lacks_LastIndex _ _ Hn), Ascii.eqb_refl. reflexivity.
  - simpl String.append. rewrite LastIndex_cons_byte, IH, len_cons.
    pose proof (len_nonneg v).
    destruct (strings.len v =? -1) eqn:E; [apply Z.eqb_eq in E; lia|reflexivity].
Qed.

(** The last separator splits a string into a head and a tail without it. *)
Lemma LastIndex_byte_spec (c : ascii) (s : string) :
  (lacks c s /\ strings.LastIndex s (String c EmptyString) = -1) \/
  (exists v n, s = v +:+ String c n /\ lacks c n /\
               strings.LastIndex s (String c EmptyString) = strings.len v).
Proof.
  induction s as [|a s IH].
  - left. split; reflexivity.
  - destruct IH as [[Hs Hi]|(v & n & -> & Hn & Hi)].
    + destruct (ascii_dec a c) as [->|Hne].
      * right. exists EmptyString, s. split; [reflexivity|]. split; [exact Hs|].
        rewrite LastIndex_cons_byte, Hi, Ascii.eqb_refl. reflexivity.
      * left. split; [apply lacks_cons; split; assumption|].
        rewrite LastIndex_cons_byte, Hi. simpl.
        assert (Ascii.eqb c a = false) as -> by (apply Ascii.eqb_neq; congruence).
        reflexivity.
    + right. exists (String a v), n. split; [reflexivity|]. split; [exact Hn|].
      apply (LastIndex_app_byte c (String a v) n Hn).
Qed.

Lemma take_app (p r : string) : strings.take (String.length p) (p +:+ r) = p.
Proof. induction p as [|a p IH]; simpl; [destruct r; reflexivity|]. rewrite IH. reflexivity. Qed.

Lemma drop_app (p r : string) : strings.drop (String.length p) (p +:+ r) = r.
Proof. induction p as [|a p IH]; simpl; [reflexivity|exact IH]. Qed.

Lemma upto_app (p r : string) : strings.upto (p +:+ r) (strings.len p) = p.
Proof. unfold strings.upto, strings.len. rewrite Nat2Z.id. apply take_app. Qed.

Lemma from_app_byte (p r : string) (c : ascii) :
  strings.from (p +:+ String c r) (strings.len p + 1) = r.
Proof.
  unfold strings.from, strings.len.
  replace (Z.to_nat (Z.of_nat (String.length p) + 1)) with (String.length (p +:+ String c EmptyString)).
  - replace (p +:+ String c r) with ((p +:+ String c EmptyString) +:+ r).
    + apply drop_app.
    + induction p as [|a p IH]; simpl; [reflexivity|]. rewrite IH. reflexivity.
  - induction p as [|a p IH]; simpl; [reflexivity|]. simpl in IH. lia.
Qed.

Lemma shortSnapshotName_spec (name : string) :
  (lacks "@" name /\ shortSnapshotName name = name) \/
  (exists v n, name = v +:+ "@" +:+ n /\ lacks "@" n /\ shortSnapshotName name = n).
Proof.
  unfold shortSnapshotName.
  destruct (LastIndex_byte_spec "@" name) as [[Hs Hi]|(v & n & -> & Hn & Hi)].
  - left. rewrite Hi. simpl. auto.
  - right. exists v, n. split; [reflexivity|]. split; [exact Hn|].
    rewrite Hi. pose proof (len_nonneg v).
    destruct (strings.len v =? -1) eqn:E; [apply Z.eqb_eq in E; lia|]. simpl.
    apply from_app_byte.
Qed.

Lemma shortSnapshotName_lacks (name : string) : lacks "@" (shortSnapshotName name).
Proof.
  destruct (shortSnapshotName_spec name) as [[H ->]|(v & n & _ & H & ->)]; exact H.
Qed.

Lemma shortSnapshotName_id (name : string) : lacks "@" name -> shortSnapshotName name = name.
Proof.
  intros H. unfold shortSnapshotName. rewrite (lacks_LastIndex _ _ H). reflexivity.
Qed.

(** ** The snapshot ID codec *)

Lemma eqb_empty_false (s : string) : s <> "" -> String.eqb s "" = false.
Proof. intros H. apply String.eqb_neq. exact H. Qed.

Lemma validProtocol_lacks_colon (p : string) : validProtocol p -> lacks ":" p.
Proof. intros [-> | [-> | ->]]; reflexivity. Qed.

Lemma validProtocol_accepted (p : string) :
  validProtocol p ->
  negb (String.eqb p ProtocolNFS) && negb (String.eqb p ProtocolNVMeOF)
    && negb (String.eqb p ProtocolISCSI) = false.
Proof. intros [-> | [-> | ->]]; reflexivity. Qed.

Lemma validProtocol_not_detached_prefix (p rest : string) :
  validProtocol p -> strings.HasPrefix (p +:+ ":" +:+ rest) DetachedSnapshotPrefix = false.
Proof. intros [-> | [-> | ->]]; reflexivity. Qed.

Lemma decodeCompactSnapshotID_base (p v n : string) :
  validProtocol p -> v <> "" -> n <> "" -> lacks "@" n ->
  decodeCompactSnapshotID (p +:+ ":" +:+ v +:+ "@" +:+ n) =
  Ok {| SnapshotName := n; SourceVolume := v; DatasetName := ""; Protocol := p;
        CreatedAt := 0; Detached := false |}.
Proof.
  intros Hp Hv Hn Hat. unfold decodeCompactSnapshotID.
  change (p +:+ ":" +:+ v +:+ "@" +:+ n) with (p +:+ String ":" (v +:+ String "@" n)).
  rewrite (Index_app_byte ":" p _ (validProtocol_lacks_colon p Hp)).
  pose proof (len_nonneg p) as Hlen.
  destruct (strings.len p =? -1) eqn:E; [apply Z.eqb_eq in E; lia|].
  rewrite upto_app, from_app_byte, (validProtocol_accepted p Hp).
  rewrite (LastIndex_app_byte "@" v n Hat).
  pose proof (len_nonneg v) as Hlenv.
  destruct (strings.len v =? -1) eqn:E'; [apply Z.eqb_eq in E'; lia|].
  rewrite upto_app, from_app_byte, (eqb_empty_false v Hv), (eqb_empty_false n Hn).
  reflexivity.
Qed.

Lemma encodeSnapshotID_ok (m : SnapshotMetadata) :
  Protocol m <> "" -> SourceVolume m <> "" -> shortSnapshotName (SnapshotName m) <> "" ->
  encodeSnapshotID m =
  Ok ((if Detached m then DetachedSnapshotPrefix else "") +:+
      Protocol m +:+ ":" +:+ SourceVolume m +:+ "@" +:+ shortSnapshotName (SnapshotName m)).
Proof.
  intros Hp Hv Hn. unfold encodeSnapshotID.
  rewrite (eqb_empty_false _ Hp), (eqb_empty_false _ Hv), (eqb_empty_false _ Hn).
  destruct (Detached m); reflexivity.
Qed.

Lemma encodeSnapshotID_fails_iff (m : SnapshotMetadata) :
  (exists e, encodeSnapshotID m = Err e) <->
  (Protocol m = "" \/ SourceVolume m = "" \/ shortSnapshotName (SnapshotName m) = "").
Proof.
  unfold encodeSnapshotID.
  destruct (String.eqb_spec (Protocol m) "") as [Hp|Hp].
  { split; [auto|]. intros _. eexists. reflexivity. }
  destruct (String.eqb_spec (SourceVolume m) "") as [Hv|Hv].
  { split; [auto|]. intros _. eexists. reflexivity. }
  destruct (String.eqb_spec (shortSnapshotName (SnapshotName m)) "") as [Hn|Hn].
  { split; [auto|]. intros _. eexists. reflexivity. }
  split.
  - intros [e He]. destruct (Detached m); discriminate.
  - intros [H|[H|H]]; contradiction.
Qed.

Lemma validProtocol_nonempty (p : string) : validProtocol p -> p <> "".
Proof. intros [-> | [-> | ->]]; discriminate. Qed.

Lemma HasPrefix_app (p x : string) : strings.HasPrefix (p +:+ x) p = true.
Proof.
  unfold strings.HasPrefix. induction p as [|a p IH]; simpl.
  - destruct x; reflexivity.
  - destruct (ascii_dec a a); [exact IH|congruence].
Qed.

Lemma TrimPrefix_app (p x : string) : strings.TrimPrefix (p +:+ x) p = x.
Proof. unfold strings.TrimPrefix. rewrite HasPrefix_app. apply drop_app. Qed.

Lemma decode_encode (m : SnapshotMetadata) :
  validProtocol (Protocol m) -> SourceVolume m <> "" ->
  shortSnapshotName (SnapshotName m) <> "" ->
  exists id, encodeSnapshotID m = Ok id /\ decodeSnapshotID id = Ok (decodedForm m).
Proof.
  intros Hp Hv Hn.
  eexists. split; [apply encodeSnapshotID_ok; auto using validProtocol_nonempty|].
  unfold decodeSnapshotID, decodedForm.
  pose proof (decodeCompactSnapshotID_base _ _ _ Hp Hv Hn (shortSnapshotName_lacks _)) as Hd.
  destruct (Detached m).
  - rewrite HasPrefix_app, TrimPrefix_app, Hd. reflexivity.
  - change ("" +:+ ?x) with x.
    rewrite (validProtocol_not_detached_prefix _ _ Hp), Hd. reflexivity.
Qed.

(** C1 (as amended): [encodeSnapshotID] fails exactly when the protocol, the
    source volume or the part of the snapshot name after its last [@] is
    empty.  For a protocol among nfs, nvmeof and iscsi it succeeds otherwise,
    and decoding its ID gives back the protocol, the source volume, the
    detached flag and that short snapshot name, with an empty dataset name and
    a zero creation time: the round trip returns [m] itself exactly when [m]
    already has this shape. *)
Theorem snapshot_id_roundtrip (m : SnapshotMetadata) :
  ((exists e, encodeSnapshotID m = Err e) <->
   (Protocol m = "" \/ SourceVolume m = "" \/ shortSnapshotName (SnapshotName m) = ""))
  /\
  (validProtocol (Protocol m) -> SourceVolume m <> "" ->
   shortSnapshotName (SnapshotName m) <> "" ->
   exists id, encodeSnapshotID m = Ok id /\ decodeSnapshotID id = Ok (decodedForm m))
  /\
  (validProtocol (Protocol m) -> SourceVolume m <> "" -> SnapshotName m <> "" ->
   lacks "@" (SnapshotName m) -> DatasetName m = "" -> CreatedAt m = 0 ->
   exists id, encodeSnapshotID m = Ok id /\ decodeSnapshotID id = Ok m).
Proof.
  split; [apply encodeSnapshotID_fails_iff|]. split; [apply decode_encode|].
  intros Hp Hv Hn Hat Hd Hc.
  destruct (decode_encode m Hp Hv) as (id & He & Hdec).
  { rewrite (shortSnapshotName_id _ Hat). exact Hn. }
  exists id. split; [exact He|]. rewrite Hdec. f_equal.
  unfold decodedForm. rewrite (shortSnapshotName_id _ Hat).
  destruct m; simpl in *; subst; reflexivity.
Qed.


(** C1, counterexample: the metadata that [createRegularSnapshot] builds
    (full ZFS snapshot name, dataset name, creation time) encodes, and the ID
    decodes to a different record. *)
Lemma snapshot_id_roundtrip_counterexample :
  encodeSnapshotID m0 = Ok "nfs:pvc-abc123@snap-xyz789" /\
  decodeSnapshotID "nfs:pvc-abc123@snap-xyz789" =
    Ok {| SnapshotName := "snap-xyz789"; SourceVolume := "pvc-abc123"; DatasetName := "";
          Protocol := "nfs"; CreatedAt := 0; Detached := false |} /\
  {| SnapshotName := "snap-xyz789"; SourceVolume := "pvc-abc123"; DatasetName := "";
     Protocol := "nfs"; CreatedAt := 0; Detached := false |} <> m0.
Proof.
  split; [reflexivity|]. split; [reflexivity|].
  intros H. apply (f_equal DatasetName) in H. simpl in H. discriminate H.
Qed.

Lemma snapshot_id_roundtrip_witness :
  exists id, encodeSnapshotID m0 = Ok id /\ decodeSnapshotID id = Ok (decodedForm m0).
Proof.
  apply (snapshot_id_roundtrip m0).
  - left. reflexivity.
  - unfold m0. simpl. intros H. discriminate H.
  - unfold m0. intros H. vm_compute in H. discriminate H.
Defined.

(** ** Running a program *)

Lemma run_bind {E : Type -> Type} {W A B : Type} (h : Handler E W)
    (p : Prog E A) (f : A -> Prog E B) (w : W) :
  run h (bind p f) w =
  (let o1 := run h p w in
   let o2 := run h (f o1.1.1) o1.1.2 in
   (o2.1.1, o2.1.2, (o1.2 ++ o2.2)%list)).
Proof.
  revert w. induction p as [r|X e k IH]; intros w; simpl.
  - destruct (run h (f r) w) as [[? ?] ?]. reflexivity.
  - rewrite IH. reflexivity.
Qed.

(** Unfold the program at hand, keeping the pure helpers folded. *)
Ltac crunch :=
  cbn -[isNotFoundError at_key String.eqb String.append findSnapshotOfVolume encodeSnapshotID
        regularSnapshotProps detachedSnapshotProps detachedReplicationParams
        checkExistingSnapshots verifiedOwnership validateCloneParameters selectCloneMode
        GetParameters Z.eqb Z.ltb Z.leb] in *.

(** Answer the next call of the goal by cases. *)
Ltac answer h :=
  match goal with
  | |- context [h ?X ?e ?w] =>
      let a := fresh "a" in let w' := fresh "w" in let Hh := fresh "Hh" in
      destruct (h X e w) as [a w'] eqn:Hh; cbn [fst snd]
  end.

(** The straight-line helpers of the controller, unfolded on demand. *)
Create HintDb prog.
#[local] Hint Unfold waitForZFSSyncIfNVMeOF getVolumeParametersForSnapshot
  validateServerParameter setupVolumeFromClone setupNVMeOFVolumeFromCloneWithValidation
  handleUnknownProtocol cleanupPartialClone : prog.

(** Follow every path of the program under [run h]: answer its calls and
    split on the tests that steer it. *)
Ltac head_case p :=
  lazymatch p with
  | @mbind _ _ _ _ _ ?q => head_case q
  | bind ?q _ => head_case q
  | (if ?b then _ else _) => destruct b eqn:?
  | (match ?x with _ => _ end) => destruct x eqn:?
  end.

Ltac explore h :=
  repeat first
    [ progress crunch
    | answer h
    | match goal with
      | |- context [run h ?p _] => head_case p
      end
    | match goal with
      | |- context [run h (match ?x with _ => _ end) _] => destruct x eqn:?
      | |- context [run h (if ?b then _ else _) _] => destruct b eqn:?
      | |- context [run h (bind (match ?x with _ => _ end) _) _] => destruct x eqn:?
      | |- context [run h (bind (if ?b then _ else _) _) _] => destruct b eqn:?
      | |- context [run h ((match ?x with _ => _ end) ≫= _) _] => destruct x eqn:?
      | |- context [run h ((if ?b then _ else _) ≫= _) _] => destruct b eqn:?
      end
    | progress autounfold with prog ].

(** ** [strings.Split] at a one-byte separator *)

Lemma append_byte_assoc (cur : string) (a : ascii) (s : string) :
  (cur +:+ String a EmptyString) +:+ s = cur +:+ String a s.
Proof. induction cur as [|b cur IH]; simpl; [reflexivity|]. rewrite IH. reflexivity. Qed.

Lemma append_nil_r (s : string) : s +:+ "" = s.
Proof. induction s as [|a s IH]; simpl; [reflexivity|]. rewrite IH. reflexivity. Qed.

Lemma splitFrom_cons_byte (c a : ascii) (cur s : string) :
  strings.splitFrom (String c EmptyString) O cur (String a s) =
  if Ascii.eqb c a
  then cur :: strings.splitFrom (String c EmptyString) O EmptyString s
  else strings.splitFrom (String c EmptyString) O (cur +:+ String a EmptyString) s.
Proof.
  change (strings.splitFrom (String c EmptyString) O cur (String a s))
    with (if String.prefix (String c EmptyString) (String a s)
          then cur :: strings.splitFrom (String c EmptyString) O EmptyString s
          else strings.splitFrom (String c EmptyString) O (cur +:+ String a EmptyString) s).
  rewrite prefix_byte. reflexivity.
Qed.

Lemma splitFrom_lacks (c : ascii) (s cur : string) :
  lacks c s -> strings.splitFrom (String c EmptyString) O cur s = [cur +:+ s].
Proof.
  revert cur. induction s as [|a s IH]; intros cur Hs.
  - simpl. rewrite append_nil_r. reflexivity.
  - apply lacks_cons in Hs as [Hne Hs]. rewrite splitFrom_cons_byte.
    assert (Ascii.eqb c a = false) as -> by (apply Ascii.eqb_neq; congruence).
    rewrite (IH _ Hs), append_byte_assoc. reflexivity.
Qed.

Lemma splitFrom_nonempty (c : ascii) (s cur : string) :
  strings.splitFrom (String c EmptyString) O cur s <> [].
Proof.
  revert cur. induction s as [|a s IH]; intros cur; [discriminate|].
  rewrite splitFrom_cons_byte. destruct (Ascii.eqb c a); [discriminate|apply IH].
Qed.

Lemma splitFrom_one (c : ascii) (s cur x : string) :
  strings.splitFrom (String c EmptyString) O cur s = [x] -> x = cur +:+ s /\ lacks c s.
Proof.
  revert cur. induction s as [|a s IH]; intros cur H.
  - simpl in H. injection H as <-. rewrite append_nil_r. split; reflexivity.
  - rewrite splitFrom_cons_byte in H. destruct (Ascii.eqb c a) eqn:Eca.
    + injection H as _ H. exfalso. exact (splitFrom_nonempty _ _ _ H).
    + apply IH in H as [-> Hs]. rewrite append_byte_assoc. split; [reflexivity|].
      apply lacks_cons. split; [|exact Hs]. apply Ascii.eqb_neq in Eca. congruence.
Qed.

Lemma splitFrom_two (c : ascii) (s cur d n : string) :
  strings.splitFrom (String c EmptyString) O cur s = [d; n] ->
  exists d', d = cur +:+ d' /\ s = d' +:+ String c n /\ lacks c n.
Proof.
  revert cur. induction s as [|a s IH]; intros cur H.
  - discriminate H.
  - rewrite splitFrom_cons_byte in H. destruct (Ascii.eqb c a) eqn:Eca.
    + injection H as <- H. apply splitFrom_one in H as [-> Hs].
      apply Ascii.eqb_eq in Eca. subst a.
      exists EmptyString. rewrite append_nil_r. simpl. auto.
    + apply IH in H as (d' & -> & -> & Hn).
      exists (String a d'). rewrite append_byte_assoc. simpl. auto.
Qed.

(** A snapshot ID that splits in two at [@] is dataset@name, and
    [encodeSnapshotID] keeps the name. *)
Lemma snapshotOn_spec (s : tnsapi.Snapshot) (d n : string) :
  snapshotOn s = Some (d, n) ->
  strings.Split (snap_ID s) "@" = [d; n] /\ snap_ID s = d +:+ "@" +:+ n /\
  shortSnapshotName (snap_ID s) = n.
Proof.
  unfold snapshotOn. intros H.
  destruct (strings.Split (snap_ID s) "@") as [|d0 [|n0 [|? ?]]] eqn:Hs; try discriminate.
  injection H as -> ->. split; [reflexivity|].
  unfold strings.Split in Hs. apply splitFrom_two in Hs as (d' & -> & Hid & Hn).
  simpl String.append. split; [exact Hid|].
  rewrite Hid. unfold shortSnapshotName.
  rewrite (LastIndex_app_byte "@" d' n Hn).
  pose proof (len_nonneg d').
  destruct (strings.len d' =? -1) eqn:E; [apply Z.eqb_eq in E; lia|]. simpl.
  apply from_app_byte.
Qed.

Lemma snapshotOn_None (s : tnsapi.Snapshot) :
  snapshotOn s = None -> (length (strings.Split (snap_ID s) "@") =? 2)%nat = false.
Proof.
  unfold snapshotOn.
  destruct (strings.Split (snap_ID s) "@") as [|d0 [|n0 [|? ?]]]; try reflexivity.
  discriminate.
Qed.

Lemma run_mbind {E : Type -> Type} {W A B : Type} (h : Handler E W)
    (p : Prog E A) (f : A -> Prog E B) (w : W) :
  run h (p ≫= f) w =
  (let o1 := run h p w in
   let o2 := run h (f o1.1.1) o1.1.2 in
   (o2.1.1, o2.1.2, (o1.2 ++ o2.2)%list)).
Proof. apply run_bind. Qed.

(** ** CreateSnapshot, regular path *)

Lemma snapshotOn_Some_length (s : tnsapi.Snapshot) (d n : string) :
  snapshotOn s = Some (d, n) ->
  (length (strings.Split (snap_ID s) "@") =? 2)%nat = true /\
  hd_str (strings.Split (snap_ID s) "@") = d.
Proof.
  intros H. apply snapshotOn_spec in H as (-> & _ & _). split; reflexivity.
Qed.

(** Only the first well-formed entry of the probe's answer is looked at. *)
Lemma checkExistingSnapshots_first (sourceVolumeID datasetName protocol : string)
    (snaps : list tnsapi.Snapshot) :
  checkExistingSnapshots sourceVolumeID datasetName protocol snaps =
  match firstWellFormed snaps with
  | None => Ret None
  | Some s => checkExistingSnapshots sourceVolumeID datasetName protocol [s]
  end.
Proof.
  induction snaps as [|s rest IH]; [reflexivity|].
  simpl firstWellFormed. destruct (snapshotOn s) as [[d n]|] eqn:Hs.
  - apply snapshotOn_Some_length in Hs as [Hlen Hhd].
    simpl. rewrite Hlen. reflexivity.
  - apply snapshotOn_None in Hs. simpl. rewrite Hs. simpl. exact IH.
Qed.



Lemma firstWellFormed_In (snaps : list tnsapi.Snapshot) (s : tnsapi.Snapshot) :
  firstWellFormed snaps = Some s -> In s snaps /\ exists d n, snapshotOn s = Some (d, n).
Proof.
  induction snaps as [|s0 rest IH]; [discriminate|]. simpl.
  destruct (snapshotOn s0) as [[d n]|] eqn:Hs.
  - intros H. injection H as <-. split; [left; reflexivity|]. eauto.
  - intros H. apply IH in H as [Hin Hex]. split; [right; exact Hin|exact Hex].
Qed.

Lemma firstWellFormed_None (snaps : list tnsapi.Snapshot) (s : tnsapi.Snapshot) :
  firstWellFormed snaps = None -> In s snaps -> snapshotOn s = None.
Proof.
  induction snaps as [|s0 rest IH]; [contradiction|]. simpl.
  destruct (snapshotOn s0) as [[d n]|] eqn:Hs; [discriminate|].
  intros H [<-|Hin]; [exact Hs|apply IH; assumption].
Qed.

(** What a run of the probe loop can look like: it asks for nothing but the time. *)
Lemma checkExistingSnapshots_run {W : Type} (h : Handler ApiE W) (w : W)
    (sourceVolumeID datasetName protocol : string) (snaps : list tnsapi.Snapshot) :
  run h (checkExistingSnapshots sourceVolumeID datasetName protocol snaps) w = (None, w, []) \/
  (exists r, run h (checkExistingSnapshots sourceVolumeID datasetName protocol snaps) w
             = (Some r, w, [])) \/
  (exists r, run h (checkExistingSnapshots sourceVolumeID datasetName protocol snaps) w
             = (Some r, (h _ TimeNowUnix w).2, [Ev TimeNowUnix (h _ TimeNowUnix w).1])).
Proof.
  rewrite checkExistingSnapshots_first.
  destruct (firstWellFormed snaps) as [s|]; [|left; reflexivity].
  simpl checkExistingSnapshots.
  destruct (negb (length (strings.Split (snap_ID s) "@") =? 2)%nat); [left; reflexivity|].
  right.
  destruct (String.eqb (hd_str (strings.Split (snap_ID s) "@")) datasetName);
    [|left; eexists; reflexivity].
  right. cbn -[encodeSnapshotID].
  destruct (encodeSnapshotID _); eexists; reflexivity.
Qed.

(** C10: in [createRegularSnapshot], a failed write of the CSI properties on
    the snapshot just created does not fail the call: it still returns the
    snapshot, so success does not tell that the properties are set. *)
Theorem createRegularSnapshot_property_failure_swallowed {W : Type} (h : Handler ApiE W) (w : W)
    (snapshotName sourceVolumeID datasetName protocol snapID : string) :
  protocol <> "" -> sourceVolumeID <> "" -> shortSnapshotName snapID <> "" ->
  let out := run h (createRegularSnapshot snapshotName sourceVolumeID datasetName protocol) w in
  In (Some snapID) (map failedSnapshotPropertyWrite out.2) ->
  exists t,
    out.1.1 = Ok (snapshotResponse
                    (protocol +:+ ":" +:+ sourceVolumeID +:+ "@" +:+ shortSnapshotName snapID)
                    sourceVolumeID t).
Proof.
  intros Hp Hv Hn out. subst out. unfold createRegularSnapshot.
  cbn -[checkExistingSnapshots regularSnapshotProps encodeSnapshotID].
  answer h. destruct a as [snaps qerr].
  assert (Hcreate : forall w0 : W,
    let out := run h
      (created ← call (CreateSnapshot {| scp_Dataset := datasetName; scp_Name := snapshotName;
                                         scp_Recursive := false |});
       match created with
       | Err _ => Ret (Err codes.Internal)
       | Ok snapshot =>
           call (SetSnapshotProperties (snap_ID snapshot)
                   (regularSnapshotProps snapshotName sourceVolumeID protocol) []);;
           createdAt ← call TimeNowUnix;
           match encodeSnapshotID
                   {| SnapshotName := snap_ID snapshot; SourceVolume := sourceVolumeID;
                      DatasetName := datasetName; Protocol := protocol;
                      CreatedAt := createdAt; Detached := false |} with
           | Err _ => Ret (Err codes.Internal)
           | Ok snapshotID =>
               Ret (Ok (csi.mkCreateSnapshotResponse
                          {| csi.SnapshotId := snapshotID;
                             csi.SourceVolumeId := sourceVolumeID;
                             csi.CreationTime := createdAt;
                             csi.ReadyToUse := true;
                             csi.SizeBytes := 0 |}))
           end
       end) w0 in
    In (Some snapID) (map failedSnapshotPropertyWrite out.2) ->
    exists t, out.1.1 = Ok (snapshotResponse
                    (protocol +:+ ":" +:+ sourceVolumeID +:+ "@" +:+ shortSnapshotName snapID)
                    sourceVolumeID t)).
  { intros w1. cbn -[regularSnapshotProps encodeSnapshotID].
    answer h. destruct a as [snapshot|e]; cbn -[regularSnapshotProps encodeSnapshotID].
    - answer h. answer h. cbn -[regularSnapshotProps encodeSnapshotID].
      destruct (encodeSnapshotID _) as [id|ee] eqn:He; cbn; destruct a as [e|]; cbn;
        intros [H|[H|[H|[]]]]; try discriminate H; injection H as Hid; subst snapID;
        rewrite encodeSnapshotID_ok in He by assumption; [|discriminate He].
      injection He as <-. eexists. reflexivity.
    - intros [H|[]]. discriminate H. }
  destruct qerr as [e|].
  - cbn -[regularSnapshotProps encodeSnapshotID]. intros [H|H]; [discriminate H|].
    apply Hcreate. exact H.
  - rewrite run_mbind.
    destruct (checkExistingSnapshots_run h w0 sourceVolumeID datasetName protocol snaps)
      as [Hr|[[r Hr]|[r Hr]]]; rewrite Hr; cbn -[regularSnapshotProps encodeSnapshotID].
    + intros [H|H]; [discriminate H|]. apply Hcreate. exact H.
    + intros [H|[]]. discriminate H.
    + intros [H|[H|[]]]; discriminate H.
Qed.

Lemma createRegularSnapshot_property_failure_swallowed_witness :
  exists t,
    (run snapshotPropertiesFail
         (createRegularSnapshot "snap1" "tank/k8s/vol1" "tank/k8s/vol1" "nfs") tt).1.1 =
    Ok (snapshotResponse
          ("nfs" +:+ ":" +:+ "tank/k8s/vol1" +:+ "@" +:+ shortSnapshotName "tank/k8s/vol1@snap1")
          "tank/k8s/vol1" t).
Proof.
  apply (createRegularSnapshot_property_failure_swallowed snapshotPropertiesFail tt
           "snap1" "tank/k8s/vol1" "tank/k8s/vol1" "nfs" "tank/k8s/vol1@snap1").
  - intros H; discriminate H.
  - intros H; discriminate H.
  - intros H; vm_compute in H; discriminate H.
  - vm_compute. right. right. left. reflexivity.
Defined.

(** ** DeleteSnapshot *)

Lemma decodeCompactSnapshotID_DatasetName (snapshotID : string) (meta : SnapshotMetadata) :
  decodeCompactSnapshotID snapshotID = Ok meta -> DatasetName meta = "" /\ Detached meta = false.
Proof.
  unfold decodeCompactSnapshotID.
  repeat match goal with
         | |- context [if ?b then _ else _] => destruct b
         end; intros H; try discriminate H.
  injection H as <-. split; reflexivity.
Qed.

Lemma decodeSnapshotID_DatasetName (snapshotID : string) (meta : SnapshotMetadata) :
  decodeSnapshotID snapshotID = Ok meta -> DatasetName meta = "".
Proof.
  unfold decodeSnapshotID. destruct (strings.HasPrefix snapshotID DetachedSnapshotPrefix).
  - destruct (decodeCompactSnapshotID _) as [m|e] eqn:Hd; intros H; [|discriminate H].
    injection H as <-. apply decodeCompactSnapshotID_DatasetName in Hd as [Hd _]. exact Hd.
  - intros H. apply decodeCompactSnapshotID_DatasetName in H as [H _]. exact H.
Qed.

(** C3: DeleteSnapshot with a snapshot ID (a request that carries one)
    returns OK whenever the snapshot is not there: the ID does not decode, the
    name cannot be resolved (the name query fails or lists no snapshot of the
    volume; the property look-up of a detached snapshot fails or finds no
    dataset), or the appliance answers not-found to the property read or to
    the delete call, on the regular and on the detached path. *)
Theorem DeleteSnapshot_idempotent {W : Type} (h : Handler ApiE W) (w : W) (snapshotID : string) :
  snapshotID <> "" ->
  let out := run h (ControllerService.DeleteSnapshot {| csi.dsr_SnapshotId := snapshotID |}) w in
  snapshotMissing snapshotID out.2 = true ->
  out.1.1 = Ok tt.
Proof.
  intros Hid out. subst out. unfold snapshotMissing, ControllerService.DeleteSnapshot.
  cbn [csi.dsr_SnapshotId]. rewrite (eqb_empty_false _ Hid).
  destruct (decodeSnapshotID snapshotID) as [meta|e] eqn:Hdec; [|reflexivity].
  pose proof (decodeSnapshotID_DatasetName _ _ Hdec) as Hds.
  destruct (Detached meta).
  - unfold deleteDetachedSnapshot, deleteDetachedDataset. rewrite Hds, String.eqb_refl.
    crunch.
    answer h.
    destruct a as [[m|]|e]; crunch; try reflexivity.
    destruct (String.eqb (DatasetName m) "") eqn:Hm; [reflexivity|].
    crunch. answer h.
    destruct a as [props|e]; crunch.
    + destruct (negb (String.eqb (at_key props PropertyManagedBy) ManagedByValue));
        crunch; [intros H; discriminate H|].
      destruct (negb (String.eqb (at_key props PropertyDetachedSnapshot) VolumeContextValueTrue));
        crunch; [intros H; discriminate H|].
      answer h. destruct a as [e|]; [|reflexivity].
      crunch. destruct (isNotFoundError (Some e)); [reflexivity|].
      intros H; discriminate H.
    + destruct (isNotFoundError (Some e)) eqn:Hnf; crunch; [reflexivity|].
      answer h. destruct a as [e'|]; [|reflexivity].
      crunch. destruct (isNotFoundError (Some e')); [reflexivity|].
      intros H; discriminate H.
  - unfold deleteRegularSnapshot, resolveZFSSnapshotName.
    assert (Hdel : forall (name : string) (w0 : W) (b : bool),
      let out := run h
        (err ← call (DeleteSnapshot name);
         match err with
         | Some e => if isNotFoundError (Some e) then Ret (Ok tt) else Ret (Err codes.Internal)
         | None => Ret (Ok tt)
         end) w0 in
      b || existsb (reportsMissing meta) out.2 = true -> b = false -> out.1.1 = Ok tt).
    { intros name w0 b. crunch. answer h. intros H ->.
      destruct a as [e|]; [|reflexivity]. crunch.
      destruct (isNotFoundError (Some e)); [reflexivity|discriminate H]. }
    destruct (strings.Contains (SnapshotName meta) "@").
    { crunch. intros H. apply (Hdel _ _ false); auto. }
    destruct (strings.Contains (SourceVolume meta) "/").
    { crunch. intros H. apply (Hdel _ _ false); auto. }
    crunch. answer h.
    destruct a as [snaps [e|]]; crunch; [reflexivity|].
    destruct (findSnapshotOfVolume (SnapshotName meta) (SourceVolume meta) snaps) as [name|];
      crunch; [|reflexivity].
    intros H. apply (Hdel _ _ false); auto.
Qed.

Lemma DeleteSnapshot_idempotent_witness :
  (run quiet (ControllerService.DeleteSnapshot
                {| csi.dsr_SnapshotId := "nfs:pvc-abc123@snap-xyz789" |}) tt).1.1 = Ok tt.
Proof.
  apply (DeleteSnapshot_idempotent quiet tt "nfs:pvc-abc123@snap-xyz789").
  - intros H; discriminate H.
  - vm_compute. reflexivity.
Defined.

Lemma deleteDetachedDataset_ownership {W : Type} (h : Handler ApiE W) (w : W)
    (datasetPath : string) :
  let out := run h (deleteDetachedDataset datasetPath) w in
  (forall d, In (Some d) (map deletedDataset out.2) ->
     exists ans err,
       out.2 = [Ev (GetDatasetProperties d [PropertyDetachedSnapshot; PropertyManagedBy]) ans;
                Ev (DeleteDataset d) err] /\
       match ans with
       | Ok props => verifiedOwnership props = true
       | Err e => isNotFoundError (Some e) = false
       end)
  /\
  (forall d props, In (Some (d, Ok props)) (map propertiesRead out.2) ->
     verifiedOwnership props = false ->
     out.1.1 = Err codes.FailedPrecondition /\
     forall d', ~ In (Some d') (map deletedDataset out.2)).
Proof.
  intros out. subst out. unfold deleteDetachedDataset, verifiedOwnership.
  destruct (String.eqb datasetPath ""); [split; [intros d []|intros d props []]|].
  crunch. answer h. destruct a as [props|e]; crunch.
  - destruct (String.eqb (at_key props PropertyManagedBy) ManagedByValue) eqn:Hm; crunch.
    + destruct (String.eqb (at_key props PropertyDetachedSnapshot) VolumeContextValueTrue) eqn:Hd;
        crunch.
      * answer h. destruct a as [e'|]; [destruct (isNotFoundError (Some e'))|]; crunch; split.
        all: try (intros d [H|[H|[]]]; [discriminate H|]; injection H as <-;
                  eexists _, _; split; [reflexivity|]; cbv beta iota; rewrite Hm, Hd; reflexivity).
        all: intros d props' [H|[H|[]]]; [|discriminate H]; injection H as <- <-;
             rewrite Hm, Hd; intros H; discriminate H.
      * split; [intros d [H|[]]; discriminate H|].
        intros d props' _ _. split; [reflexivity|]. intros d' [H|[]]; discriminate H.
    + split; [intros d [H|[]]; discriminate H|].
      intros d props' _ _. split; [reflexivity|]. intros d' [H|[]]; discriminate H.
  - destruct (isNotFoundError (Some e)) eqn:Hnf; crunch.
    + split; [intros d [H|[]]; discriminate H|]. intros d props' [H|[]]; discriminate H.
    + answer h. destruct a as [e'|]; [destruct (isNotFoundError (Some e'))|]; crunch; split.
      all: try (intros d [H|[H|[]]]; [discriminate H|]; injection H as <-;
                eexists _, _; split; [reflexivity|]; cbv beta iota; exact Hnf).
      all: intros d props' [H|[H|[]]]; discriminate H.
Qed.

(** C4 (as amended): [deleteDetachedSnapshot] calls dataset delete only
    right after reading the dataset's properties, and then only when the read
    showed managed_by equal to the sentinel and detached_snapshot equal to
    true, or when the read failed with an error that is not a not-found
    error (the deletion then goes ahead unverified).  When the read succeeds
    and shows anything else, the call fails with FailedPrecondition and no
    dataset is deleted. *)
Theorem deleteDetachedSnapshot_ownership {W : Type} (h : Handler ApiE W) (w : W)
    (meta : SnapshotMetadata) :
  let out := run h (deleteDetachedSnapshot meta) w in
  (forall d, In (Some d) (map deletedDataset out.2) ->
     exists pre ans err,
       out.2 = (pre ++ [Ev (GetDatasetProperties d [PropertyDetachedSnapshot; PropertyManagedBy]) ans;
                        Ev (DeleteDataset d) err])%list /\
       match ans with
       | Ok props => verifiedOwnership props = true
       | Err e => isNotFoundError (Some e) = false
       end)
  /\
  (forall d props, In (Some (d, Ok props)) (map propertiesRead out.2) ->
     verifiedOwnership props = false ->
     out.1.1 = Err codes.FailedPrecondition /\
     forall d', ~ In (Some d') (map deletedDataset out.2)).
Proof.
  intros out. subst out. unfold deleteDetachedSnapshot. rewrite run_mbind.
  set (o1 := run h _ w). cbv zeta.
  assert (Hpre : o1.2 = [] \/ exists a, o1.2 = [Ev (lookupSnapshotByCSIName "" (SnapshotName meta)) a]).
  { subst o1. destruct (String.eqb (DatasetName meta) ""); [|left; reflexivity].
    crunch. answer h. right. destruct a as [[m|]|e]; eexists; reflexivity. }
  destruct (deleteDetachedDataset_ownership h o1.1.2 o1.1.1) as [HA HB].
  set (o2 := run h (deleteDetachedDataset o1.1.1) o1.1.2) in *. cbn [fst snd].
  assert (Hmap1 : map deletedDataset (o1.2 ++ o2.2) = (map deletedDataset o1.2 ++ map deletedDataset o2.2)%list)
    by apply map_app.
  assert (Hmap2 : map propertiesRead (o1.2 ++ o2.2) = (map propertiesRead o1.2 ++ map propertiesRead o2.2)%list)
    by apply map_app.
  assert (Hin1 : forall d, In (Some d) (map deletedDataset (o1.2 ++ o2.2)) ->
                           In (Some d) (map deletedDataset o2.2)).
  { intros d. rewrite Hmap1, in_app_iff. intros [H|H]; [|exact H].
    destruct Hpre as [Hp|[a Hp]]; rewrite Hp in H;
      [destruct H|destruct H as [H|[]]; discriminate H]. }
  assert (Hin2 : forall x, In (Some x) (map propertiesRead (o1.2 ++ o2.2)) ->
                           In (Some x) (map propertiesRead o2.2)).
  { intros x. rewrite Hmap2, in_app_iff. intros [H|H]; [|exact H].
    destruct Hpre as [Hp|[a Hp]]; rewrite Hp in H;
      [destruct H|destruct H as [H|[]]; discriminate H]. }
  split.
  - intros d Hd. destruct (HA d (Hin1 d Hd)) as (ans & err & Htr & Hans).
    exists o1.2, ans, err. rewrite Htr. split; [reflexivity|exact Hans].
  - intros d props Hr Hv. destruct (HB d props (Hin2 _ Hr) Hv) as [Hres Hno].
    split; [exact Hres|]. intros d' Hd'. exact (Hno d' (Hin1 d' Hd')).
Qed.

(** C4, counterexample: the property read fails with a transport error, and
    DeleteSnapshot deletes a dataset whose managed_by is not the sentinel,
    returning OK instead of FailedPrecondition. *)
Lemma deleteDetachedSnapshot_unverified_delete :
  let out := run appliance
               (ControllerService.DeleteSnapshot
                  {| csi.dsr_SnapshotId := "detached:nfs:tank/k8s/vol1@snap-dr" |})
               faultyAppliance in
  datasets faultyAppliance !! "tank/backups/snap-dr" = Some foreignProps /\
  at_key foreignProps PropertyManagedBy <> ManagedByValue /\
  out.1.1 = Ok tt /\
  datasets out.1.2 !! "tank/backups/snap-dr" = None.
Proof.
  vm_compute. split; [reflexivity|]. split; [intros H; discriminate H|]. split; reflexivity.
Qed.

(** ** CreateSnapshot, detached path *)

Lemma detachedSnapshotProps_snapshot_id (snapshotName sourceVolumeID sourceDataset protocol : string) :
  detachedSnapshotProps snapshotName sourceVolumeID sourceDataset protocol !! PropertySnapshotID
  = Some snapshotName.
Proof. reflexivity. Qed.

Lemma managedByOnly_snapshot_id :
  ({[ PropertyManagedBy := ManagedByValue ]} : gmap string string) !! PropertySnapshotID = None.
Proof. reflexivity. Qed.

Lemma managedByOnly_snapshot_id' :
  (<["tns-csi:managed_by" := ManagedByValue]> (∅ : gmap string string)) !! PropertySnapshotID = None.
Proof. reflexivity. Qed.

Ltac lookup_bundle :=
  rewrite ?detachedSnapshotProps_snapshot_id, ?managedByOnly_snapshot_id,
          ?managedByOnly_snapshot_id' in *.

(** Split on the answers that a statement about the trace still looks at. *)
Ltac split_answers :=
  repeat match goal with
         | |- context [match ?x with _ => _ end] => is_var x; destruct x
         | H : context [match ?x with _ => _ end] |- _ => is_var x; destruct x
         end.

Lemma createDetachedSnapshotUnder_property_failure {W : Type} (h : Handler ApiE W) (w : W)
    (snapshotName sourceVolumeID sourceDataset protocol parent : string) :
  let out := run h (createDetachedSnapshotUnder snapshotName sourceVolumeID sourceDataset
                                                protocol parent) w in
  (forall d rest, afterFailedBundleWrite out.2 = Some (d, rest) ->
     d = parent +:+ "/" +:+ snapshotName /\
     out.1.1 = Err codes.Internal /\
     exists err tmp err', rest = [Ev (DeleteDataset d) err; Ev (DeleteSnapshot tmp) err'])
  /\
  (forall resp, out.1.1 = Ok resp -> existsb isReplication out.2 = true ->
     existsb bundleWritten out.2 = true).
Proof.
  intros out. subst out.
  unfold createDetachedSnapshotUnder, ensureDetachedSnapshotsParentDataset.
  explore h.
  all: lookup_bundle.
  all: split; [intros d rest H|intros resp H1 H2]; split_answers;
       try discriminate; try reflexivity.
  all: injection H as <- <-; split; [reflexivity|]; split; [reflexivity|];
       eexists _, _, _; reflexivity.
Qed.

(** C8: in the detached path of CreateSnapshot, when the write of the CSI
    property bundle (with snapshot_id) on the replicated dataset fails, the
    next call deletes that dataset (only the deferred removal of the
    temporary source snapshot follows) and the RPC fails with Internal; a
    call that replicated and returned success has written the bundle. *)
Theorem createDetachedSnapshot_property_failure {W : Type} (h : Handler ApiE W) (w : W)
    (snapshotName sourceVolumeID sourceDataset protocol pool0 detachedParentDataset0 : string) :
  let out := run h (createDetachedSnapshot snapshotName sourceVolumeID sourceDataset protocol
                                           pool0 detachedParentDataset0) w in
  (forall d rest, afterFailedBundleWrite out.2 = Some (d, rest) ->
     out.1.1 = Err codes.Internal /\
     exists err tmp err', rest = [Ev (DeleteDataset d) err; Ev (DeleteSnapshot tmp) err'])
  /\
  (forall resp, out.1.1 = Ok resp -> existsb isReplication out.2 = true ->
     existsb bundleWritten out.2 = true).
Proof.
  intros out. subst out. unfold createDetachedSnapshot. cbv zeta.
  destruct (String.eqb detachedParentDataset0 "" && String.eqb _ "").
  - split; [intros d rest H; discriminate H|intros resp H; discriminate H].
  - match goal with
    | |- context [createDetachedSnapshotUnder _ _ _ _ ?p] =>
        destruct (createDetachedSnapshotUnder_property_failure h w snapshotName sourceVolumeID
                    sourceDataset protocol p) as [HA HB]
    end.
    split; [|exact HB].
    intros d rest H. destruct (HA d rest H) as (_ & Hres & Hrest). auto.
Qed.

Lemma createDetachedSnapshot_property_failure_witness :
  let out := run datasetPropertiesFail
               (createDetachedSnapshot "snap-dr" "tank/k8s/vol1" "tank/k8s/vol1" "nfs" "tank" "") tt in
  out.1.1 = Err codes.Internal /\
  exists err tmp err',
    [Ev (DeleteDataset "tank/csi-detached-snapshots/snap-dr") None;
     Ev (DeleteSnapshot "tank/k8s/vol1@csi-detached-temp-1700000000000000000") None]
    = [Ev (DeleteDataset "tank/csi-detached-snapshots/snap-dr") err; Ev (DeleteSnapshot tmp) err'].
Proof.
  apply (createDetachedSnapshot_property_failure datasetPropertiesFail tt
           "snap-dr" "tank/k8s/vol1" "tank/k8s/vol1" "nfs" "tank" "").
  vm_compute. reflexivity.
Defined.

(** ** CreateVolume from a snapshot *)





(** ** ListSnapshots without a filter *)

Lemma querySnapshotsPerDataset_run {W : Type} (h : Handler ApiE W) (datasetIDs : list string) :
  forall (acc : list tnsapi.Snapshot) (w : W),
    omap snapshotQuery (run h (querySnapshotsPerDataset datasetIDs acc) w).2
    = map (fun datasetID => [mkFilter "dataset" "=" datasetID]) datasetIDs.
Proof.
  induction datasetIDs as [|d rest IH]; intros acc w; [reflexivity|].
  crunch. answer h. destruct a as [snaps [e|]]; crunch; rewrite IH; reflexivity.
Qed.

Lemma allSnapshotEntries_no_query {W : Type} (h : Handler ApiE W)
    (managedMeta : gmap string datasetMeta) (page : list tnsapi.Snapshot) :
  forall w : W, omap snapshotQuery (run h (allSnapshotEntries managedMeta page) w).2 = [].
Proof.
  induction page as [|s rest IH]; intros w; [reflexivity|].
  cbn [allSnapshotEntries]. destruct (managedMeta !! snap_Dataset s) as [meta|]; [|apply IH].
  crunch. answer h. destruct (encodeSnapshotID _); crunch.
  - rewrite run_mbind. crunch. rewrite omap_app, IH. reflexivity.
  - apply IH.
Qed.

Lemma paginate_no_query {W : Type} (h : Handler ApiE W) (Sscanf_d : string -> result error Z)
    (req : csi.ListSnapshotsRequest) (snapshots : list tnsapi.Snapshot)
    (entriesOf : list tnsapi.Snapshot -> Prog ApiE (list csi.Snapshot)) (w : W) :
  (forall page w', omap snapshotQuery (run h (entriesOf page) w').2 = []) ->
  omap snapshotQuery (run h (paginate Sscanf_d req snapshots entriesOf) w).2 = [].
Proof.
  intros Hentries. unfold paginate.
  destruct (if negb _ then _ else _) as [startIndex|e]; [|reflexivity].
  destruct (_ && _); [reflexivity|].
  rewrite run_mbind. crunch. rewrite omap_app, Hentries. reflexivity.
Qed.

Lemma addManagedDataset_keys (m : gmap string datasetMeta) (ds : DatasetWithProperties)
    (k : string) :
  is_Some (addManagedDataset m ds !! k) ->
  is_Some (m !! k) \/ (markedDetached ds = false /\ k = ds_ID (dwp_Dataset ds)).
Proof.
  unfold addManagedDataset. fold (markedDetached ds).
  destruct (markedDetached ds); [auto|].
  destruct (decide (ds_ID (dwp_Dataset ds) = k)) as [<-|Hne]; [auto|].
  rewrite lookup_insert_ne by exact Hne. auto.
Qed.

Lemma buildManagedMeta_keys (datasets : list DatasetWithProperties) (k : string) :
  is_Some (buildManagedMeta datasets !! k) ->
  exists ds, In ds datasets /\ markedDetached ds = false /\ k = ds_ID (dwp_Dataset ds).
Proof.
  unfold buildManagedMeta.
  assert (forall m, is_Some (fold_left addManagedDataset datasets m !! k) ->
            is_Some (m !! k) \/
            exists ds, In ds datasets /\ markedDetached ds = false /\ k = ds_ID (dwp_Dataset ds))
    as H.
  { induction datasets as [|d rest IH]; intros m Hk; [left; exact Hk|].
    cbn [fold_left] in Hk. destruct (IH _ Hk) as [Hm|(ds & Hin & Hds)].
    - destruct (addManagedDataset_keys _ _ _ Hm) as [Hm'|[Hd Hk']]; [left; exact Hm'|].
      right. exists d. split; [left; reflexivity|auto].
    - right. exists ds. split; [right; exact Hin|exact Hds]. }
  intros Hk. destruct (H ∅ Hk) as [Hempty|Hex]; [|exact Hex].
  rewrite lookup_empty in Hempty. destruct Hempty as [x Hx]. discriminate Hx.
Qed.

Lemma keysOf_visitsKeys : visitsKeys keysOf.
Proof.
  intros m k Hin. unfold keysOf in Hin. apply list_elem_of_In in Hin.
  apply list_elem_of_fmap in Hin as ([k' v] & -> & Hkv).
  apply elem_of_map_to_list in Hkv. exists v. exact Hkv.
Qed.

(** C9. A ListSnapshots request with neither a snapshot ID nor a source
    volume starts with the property search for the datasets managed by the
    driver, and every snapshot query it then issues carries exactly one
    filter, "dataset = ID", where ID is the ID of a dataset that the search
    returned and that is not marked detached_snapshot = true.  So no
    snapshot query goes out without a filter. *)
Theorem ListSnapshots_unfiltered_never_global {W : Type} (h : Handler ApiE W) (w : W)
    (Sscanf_d : string -> result error Z) (rangeKeys : gmap string datasetMeta -> list string)
    (req : csi.ListSnapshotsRequest) :
  csi.lsr_SnapshotId req = "" -> csi.lsr_SourceVolumeId req = "" -> visitsKeys rangeKeys ->
  let out := run h (ListSnapshots Sscanf_d rangeKeys req) w in
  exists found rest,
    out.2 = Ev (FindDatasetsByProperty "" PropertyManagedBy ManagedByValue) found :: rest /\
    forall filters, In filters (omap snapshotQuery out.2) ->
      exists datasets ds,
        found = Ok datasets /\ In ds datasets /\ markedDetached ds = false /\
        filters = [mkFilter "dataset" "=" (ds_ID (dwp_Dataset ds))].
Proof.
  intros Hid Hsrc Hkeys out. subst out. unfold ListSnapshots. rewrite Hid, Hsrc.
  cbn [String.eqb negb]. unfold listAllSnapshots. crunch. answer h.
  eexists _, _. split; [reflexivity|].
  destruct a as [datasets|e]; crunch; [|intros filters []].
  intros filters Hin. rewrite run_mbind in Hin. crunch.
  rewrite omap_app, querySnapshotsPerDataset_run in Hin.
  rewrite paginate_no_query in Hin by apply allSnapshotEntries_no_query.
  rewrite app_nil_r in Hin. apply in_map_iff in Hin as (k & <- & Hk).
  apply Hkeys, buildManagedMeta_keys in Hk as (ds & Hds & Hmark & ->).
  exists datasets, ds. auto.
Qed.

Lemma ListSnapshots_unfiltered_never_global_witness :
  let out := run threeManaged (ListSnapshots (fun _ => Ok 0) keysOf listEverything) tt in
  exists found rest,
    out.2 = Ev (FindDatasetsByProperty "" PropertyManagedBy ManagedByValue) found :: rest /\
    forall filters, In filters (omap snapshotQuery out.2) ->
      exists datasets ds,
        found = Ok datasets /\ In ds datasets /\ markedDetached ds = false /\
        filters = [mkFilter "dataset" "=" (ds_ID (dwp_Dataset ds))].
Proof.
  apply (ListSnapshots_unfiltered_never_global threeManaged tt (fun _ => Ok 0) keysOf
           listEverything); [reflexivity|reflexivity|exact keysOf_visitsKeys].
Defined.

(** ** Node: device size and the attach loop *)

Lemma wrap64_small (z : Z) : - 2 ^ 63 <= z < 2 ^ 63 -> wrap64 z = z.
Proof.
  intros H. unfold wrap64.
  rewrite Z.mod_small by lia. lia.
Qed.

Lemma verifySizeMatch_spec (a e : Z) :
  0 <= a < 2 ^ 63 -> 0 < e < 2 ^ 63 ->
  verifySizeMatch a e = None <-> (a >= e \/ e - a <= Z.max (e / 10) (100 * 1024 * 1024)).
Proof.
  intros Ha He. unfold verifySizeMatch, minTolerance.
  rewrite wrap64_small by lia. rewrite Z.quot_div_nonneg by lia.
  destruct (Z.geb_spec a e) as [Hge|Hlt]; [split; [lia|reflexivity]|].
  assert ((if e / 10 <? 100 * 1024 * 1024 then 100 * 1024 * 1024 else e / 10)
          = Z.max (e / 10) (100 * 1024 * 1024)) as ->.
  { destruct (Z.ltb_spec (e / 10) (100 * 1024 * 1024)); lia. }
  destruct (Z.gtb_spec (e - a) (Z.max (e / 10) (100 * 1024 * 1024))) as [Hgt|Hle].
  - split; [discriminate|lia].
  - split; [lia|reflexivity].
Qed.

Ltac node_crunch :=
  cbn -[at_key String.eqb String.append verifySizeMatch ParseInt getNVMeOFMountOptions
        attachAttempts maxConnectRetries Z.sub Z.of_nat Z.eqb Z.ltb Z.leb Z.gtb Z.geb] in *.

Ltac node_explore h :=
  repeat first
    [ progress node_crunch
    | answer h
    | match goal with
      | |- context [run h ?p _] => head_case p
      end ].

(** C5. For a device of [a] bytes and an expected capacity of [e] bytes,
    both non-negative 64-bit sizes with [e] positive: the size check
    passes when [a >= e], passes when [e - a <= max (e/10, 100 MiB)], and
    fails otherwise.  In the staging path, with the expected capacity [e]
    taken from the volume context: whenever the device is read as [a]
    bytes, a failed check ends the staging with FailedPrecondition and a
    passed check lets it go on to the formatting step; and when the device
    node is present and its size reads as [a], the staging does read it,
    and then a failed check ends it with FailedPrecondition before any
    formatting, and a passed check lets it go on to the formatting step. *)
Theorem device_size_tolerance {W : Type} (h : Handler NodeE W) (w : W) (a e : Z)
    (hasApiClient : bool) (volumeID devicePath stagingTargetPath : string)
    (volumeCapability : VolumeCapability) (volumeContext : gmap string string) :
  0 <= a < 2 ^ 63 -> 0 < e < 2 ^ 63 ->
  ParseInt (at_key volumeContext "expectedCapacity") = Some e ->
  let out := run h (formatAndMountNVMeDevice hasApiClient volumeID devicePath stagingTargetPath
                                             volumeCapability volumeContext) w in
  (a >= e -> verifySizeMatch a e = None) /\
  (e - a <= Z.max (e / 10) (100 * 1024 * 1024) -> verifySizeMatch a e = None) /\
  (a < e -> e - a > Z.max (e / 10) (100 * 1024 * 1024) -> verifySizeMatch a e <> None) /\
  (In (Some a) (map deviceSizeRead out.2) ->
     (verifySizeMatch a e <> None -> out.1.1 = Err codes.FailedPrecondition) /\
     (verifySizeMatch a e = None -> existsb isFormatting out.2 = true)) /\
  ((h _ (osStat devicePath) w).1 = None ->
   (forall w', (h _ (getBlockDeviceSize devicePath) w').1 = Ok a) ->
     In (Some a) (map deviceSizeRead out.2) /\
     (verifySizeMatch a e <> None ->
        out.1.1 = Err codes.FailedPrecondition /\ existsb isFormatting out.2 = false) /\
     (verifySizeMatch a e = None -> existsb isFormatting out.2 = true)).
Proof.
  intros Ha He Hparse out. pose proof (verifySizeMatch_spec a e Ha He) as Hspec.
  split; [intros; apply Hspec; lia|]. split; [intros; apply Hspec; lia|].
  split; [intros Hlt Hgt Hnone; apply Hspec in Hnone; lia|].
  subst out. unfold formatAndMountNVMeDevice, verifyDeviceSize, getExpectedCapacity.
  rewrite Hparse.
  assert ((at_key volumeContext "expectedCapacity" =? "")%string = false) as ->.
  { destruct (at_key volumeContext "expectedCapacity"); [discriminate Hparse|reflexivity]. }
  assert ((e =? 0) = false) as Hz by (apply Z.eqb_neq; lia).
  cbn [negb]. split.
  { node_explore h.
    all: intros Hin; repeat (destruct Hin as [Hin|Hin]; [try discriminate Hin|]);
      try contradiction.
    all: try (injection Hin as ->); try congruence.
    all: match goal with
         | Hm : option_map _ ?v = _ |- _ => destruct v eqn:Hv; try discriminate Hm
         end.
    all: split; [intros Hne|intros Hnone]; try reflexivity; try congruence.
    all: cbn; rewrite ?orb_true_r; reflexivity. }
  node_explore h.
  all: intros Hst Hsz; try discriminate Hst.
  all: try congruence.
  all: match goal with
       | Hh : _ _ (getBlockDeviceSize _) ?w1 = _, Hs : forall w', _ = Ok _ |- _ =>
           let Hr := fresh "Hr" in
           pose proof (Hs w1) as Hr; rewrite Hh in Hr; cbn in Hr
       end.
  all: try discriminate.
  all: match goal with
       | Hr : Ok _ = Ok _ |- _ => injection Hr as ->
       end.
  all: match goal with
       | Hm : option_map _ ?v = _ |- _ => destruct v eqn:Hv; try discriminate Hm
       end.
  all: split; [cbn; auto 10|].
  all: split; [intros Hne|intros Hnone]; try congruence.
  all: try (split; reflexivity).
  all: cbn; rewrite ?orb_true_r; reflexivity.
Qed.

Lemma device_size_tolerance_witness :
  let a := 900000000 in
  let e := 1073741824 in
  let out := run (host true a)
               (formatAndMountNVMeDevice false "pvc-1" "/dev/nvme0n1" "/var/lib/kubelet/staging/pvc-1"
                                         ext4Mount oneGiBVolume) tt in
  verifySizeMatch a e <> None /\
  In (Some a) (map deviceSizeRead out.2) /\
  out.1.1 = Err codes.FailedPrecondition /\
  existsb isFormatting out.2 = false.
Proof.
  destruct (device_size_tolerance (host true 900000000) tt 900000000 1073741824 false "pvc-1"
              "/dev/nvme0n1" "/var/lib/kubelet/staging/pvc-1" ext4Mount oneGiBVolume)
    as (_ & _ & Hfails & _ & Hstaged).
  - lia.
  - lia.
  - vm_compute. reflexivity.
  - destruct Hstaged as (Hread & Hfailed & _).
    + reflexivity.
    + intros w'. reflexivity.
    + assert (verifySizeMatch 900000000 1073741824 <> None) as Hne.
      { apply Hfails; vm_compute; [reflexivity|reflexivity]. }
      split; [exact Hne|]. split; [exact Hread|]. exact (Hfailed Hne).
Defined.

(** ** The attach loop *)

Lemma sleepBeforeRetry_quiet {W : Type} (h : Handler NodeE W) (attempt : Z) (w : W)
    (f : Event NodeE -> bool) :
  (forall x, f (Ev (timeSleep retryDelay) x) = false) ->
  existsb f (run h (sleepBeforeRetry attempt) w).2 = false.
Proof.
  intros Hf. unfold sleepBeforeRetry. destruct (attempt <? maxConnectRetries); [|reflexivity].
  cbn. rewrite Hf. reflexivity.
Qed.






(** ** CreateSnapshot: the probe for the snapshot name *)











(* ====================================================================== *)
(** * Part III. Further properties of the code                            *)
(* ====================================================================== *)

(** ** Snapshot IDs: from an ID to its metadata and back *)

Lemma Index_byte_spec (c : ascii) (s : string) :
  (lacks c s /\ strings.Index s (String c EmptyString) = -1) \/
  (exists p r, s = p +:+ String c r /\ lacks c p /\
               strings.Index s (String c EmptyString) = strings.len p).
Proof.
  induction s as [|a s IH].
  - left. split; reflexivity.
  - rewrite Index_cons_byte. destruct (Ascii.eqb_spec c a) as [<-|Hne].
    + right. exists "", s. repeat split.
    + destruct IH as [[Hl Hi]|(p & r & -> & Hp & Hi)].
      * left. rewrite Hi. split; [|reflexivity].
        apply lacks_cons. split; [congruence|exact Hl].
      * right. exists (String a p), r. rewrite Hi.
        pose proof (len_nonneg p). destruct (Z.eqb_spec (strings.len p) (-1)) as [Hm1|_]; [lia|].
        repeat split; [apply lacks_cons; split; [congruence|exact Hp]|].
        rewrite len_cons. reflexivity.
Qed.

Lemma HasPrefix_inv (s p : string) :
  strings.HasPrefix s p = true -> s = p +:+ strings.TrimPrefix s p.
Proof.
  unfold strings.TrimPrefix. intros H. rewrite H. unfold strings.HasPrefix in H.
  revert s H. induction p as [|a p IH]; intros s H; [reflexivity|].
  destruct s as [|b s]; [discriminate H|]. simpl in H.
  destruct (Ascii.ascii_dec a b) as [<-|]; [|discriminate H].
  simpl. f_equal. apply IH. exact H.
Qed.

Lemma protocol_test_valid (p : string) :
  negb (String.eqb p ProtocolNFS) && negb (String.eqb p ProtocolNVMeOF)
    && negb (String.eqb p ProtocolISCSI) = false -> validProtocol p.
Proof.
  unfold validProtocol.
  destruct (String.eqb_spec p ProtocolNFS); [auto|].
  destruct (String.eqb_spec p ProtocolNVMeOF); [auto|].
  destruct (String.eqb_spec p ProtocolISCSI); [auto|]. discriminate.
Qed.

Lemma decodeCompactSnapshotID_inv (s : string) (m : SnapshotMetadata) :
  decodeCompactSnapshotID s = Ok m ->
  exists p v n,
    s = p +:+ ":" +:+ v +:+ "@" +:+ n /\ validProtocol p /\ v <> "" /\ n <> "" /\ lacks "@" n /\
    m = {| SnapshotName := n; SourceVolume := v; DatasetName := ""; Protocol := p;
           CreatedAt := 0; Detached := false |}.
Proof.
  unfold decodeCompactSnapshotID.
  destruct (Index_byte_spec ":" s) as [[_ Hi]|(p & r & -> & Hp & Hi)]; rewrite Hi.
  { discriminate. }
  pose proof (len_nonneg p). destruct (Z.eqb_spec (strings.len p) (-1)) as [Hm1|_]; [lia|].
  rewrite upto_app, from_app_byte.
  destruct (negb _ && _ && _) eqn:Hproto; [discriminate|].
  apply protocol_test_valid in Hproto.
  destruct (LastIndex_byte_spec "@" r) as [[_ Hl]|(v & n & -> & Hn & Hl)]; rewrite Hl.
  { discriminate. }
  pose proof (len_nonneg v). destruct (Z.eqb_spec (strings.len v) (-1)) as [Hm1|_]; [lia|].
  rewrite upto_app, from_app_byte.
  destruct (String.eqb_spec v "") as [|Hv]; [discriminate|].
  destruct (String.eqb_spec n "") as [|Hn']; [discriminate|].
  intros Hok. injection Hok as <-. exists p, v, n. repeat split; assumption.
Qed.

(** Every ID that [decodeSnapshotID] accepts is the ID that
    [encodeSnapshotID] gives for the decoded metadata: decoding loses
    nothing of an ID. *)
Theorem decodeSnapshotID_encode (snapshotID : string) (m : SnapshotMetadata) :
  decodeSnapshotID snapshotID = Ok m -> encodeSnapshotID m = Ok snapshotID.
Proof.
  unfold decodeSnapshotID.
  destruct (strings.HasPrefix snapshotID DetachedSnapshotPrefix) eqn:Hpre.
  - apply HasPrefix_inv in Hpre. revert Hpre.
    generalize (strings.TrimPrefix snapshotID DetachedSnapshotPrefix). intros t ->.
    destruct (decodeCompactSnapshotID t) as [m'|e] eqn:Hd; [|discriminate].
    intros H. injection H as <-.
    apply decodeCompactSnapshotID_inv in Hd as (p & v & n & -> & Hp & Hv & Hn & Hat & ->).
    rewrite encodeSnapshotID_ok; cbn [setDetached Protocol SourceVolume SnapshotName Detached];
      rewrite ?shortSnapshotName_id by exact Hat; auto using validProtocol_nonempty.
  - intros Hd.
    apply decodeCompactSnapshotID_inv in Hd as (p & v & n & -> & Hp & Hv & Hn & Hat & ->).
    rewrite encodeSnapshotID_ok; cbn [Protocol SourceVolume SnapshotName Detached];
      rewrite ?shortSnapshotName_id by exact Hat; auto using validProtocol_nonempty.
Qed.

Lemma decodeSnapshotID_encode_witness :
  encodeSnapshotID {| SnapshotName := "snap-dr"; SourceVolume := "tank/k8s/vol1";
                      DatasetName := ""; Protocol := "nfs"; CreatedAt := 0; Detached := true |}
  = Ok "detached:nfs:tank/k8s/vol1@snap-dr".
Proof.
  apply (decodeSnapshotID_encode "detached:nfs:tank/k8s/vol1@snap-dr"). reflexivity.
Defined.

(** What [decodeSnapshotID] returns is always of one shape: a protocol
    among nfs, nvmeof and iscsi, a non-empty source volume, a non-empty
    snapshot name without [@], no dataset name, no creation time, and the
    detached flag set exactly when the ID starts with the detached prefix. *)
Theorem decodeSnapshotID_shape (snapshotID : string) (m : SnapshotMetadata) :
  decodeSnapshotID snapshotID = Ok m ->
  validProtocol (Protocol m) /\ SourceVolume m <> "" /\ SnapshotName m <> "" /\
  lacks "@" (SnapshotName m) /\ DatasetName m = "" /\ CreatedAt m = 0 /\
  Detached m = strings.HasPrefix snapshotID DetachedSnapshotPrefix.
Proof.
  unfold decodeSnapshotID.
  destruct (strings.HasPrefix snapshotID DetachedSnapshotPrefix).
  - destruct (decodeCompactSnapshotID _) as [m'|e] eqn:Hd; [|discriminate].
    intros H. injection H as <-.
    apply decodeCompactSnapshotID_inv in Hd as (p & v & n & _ & Hp & Hv & Hn & Hat & ->).
    cbn. auto 10.
  - intros Hd.
    apply decodeCompactSnapshotID_inv in Hd as (p & v & n & _ & Hp & Hv & Hn & Hat & ->).
    cbn. auto 10.
Qed.

Lemma decodeSnapshotID_shape_witness :
  let m := {| SnapshotName := "snap-xyz789"; SourceVolume := "pvc-abc123"; DatasetName := "";
              Protocol := "nfs"; CreatedAt := 0; Detached := false |} in
  validProtocol (Protocol m) /\ SourceVolume m <> "" /\ SnapshotName m <> "" /\
  lacks "@" (SnapshotName m) /\ DatasetName m = "" /\ CreatedAt m = 0 /\
  Detached m = strings.HasPrefix "nfs:pvc-abc123@snap-xyz789" DetachedSnapshotPrefix.
Proof.
  apply (decodeSnapshotID_shape "nfs:pvc-abc123@snap-xyz789"). reflexivity.
Defined.

(** ** CreateSnapshot and DeleteSnapshot: what is asked of the appliance *)

(** [createRegularSnapshot] asks the appliance for at most one snapshot,
    always the requested name on the volume's dataset, not recursive.  A
    probe that fails does not stop it: the creation is then attempted
    whatever the probe listed.  When the call fails with AlreadyExists no
    snapshot was asked for. *)
Theorem createRegularSnapshot_create_call {W : Type} (h : Handler ApiE W) (w : W)
    (snapshotName sourceVolumeID datasetName protocol : string) :
  let out := run h (createRegularSnapshot snapshotName sourceVolumeID datasetName protocol) w in
  let params := {| scp_Dataset := datasetName; scp_Name := snapshotName;
                   scp_Recursive := false |} in
  (omap snapshotCreation out.2 = [] \/ omap snapshotCreation out.2 = [params]) /\
  (forall snaps e, (h _ (QuerySnapshots [mkFilter "name" "=" snapshotName]) w).1 = (snaps, Some e) ->
     omap snapshotCreation out.2 = [params]) /\
  (out.1.1 = Err codes.AlreadyExists -> omap snapshotCreation out.2 = []).
Proof.
  intros out params. subst out params. unfold createRegularSnapshot.
  cbn -[checkExistingSnapshots regularSnapshotProps encodeSnapshotID].
  answer h. destruct a as [snaps [e|]].
  - explore h; (split; [auto|split; [reflexivity|discriminate]]).
  - cbn -[checkExistingSnapshots regularSnapshotProps encodeSnapshotID].
    rewrite run_mbind.
    destruct (checkExistingSnapshots_run h w0 sourceVolumeID datasetName protocol snaps)
      as [Hr|[[r Hr]|[r Hr]]]; rewrite Hr; clear Hr.
    + explore h; (split; [auto|split; [intros ? ? H; discriminate H|discriminate]]).
    + crunch. split; [auto|split; [intros ? ? H; discriminate H|reflexivity]].
    + crunch. split; [auto|split; [intros ? ? H; discriminate H|reflexivity]].
Qed.

Lemma createRegularSnapshot_create_call_witness :
  let out := run (snapshotsListed [snapshotNamed "tank/k8s/other" "snap-1"])
               (createRegularSnapshot "snap-1" "pvc-abc123" "tank/k8s/pvc-abc123" "nfs") tt in
  out.1.1 = Err codes.AlreadyExists /\ omap snapshotCreation out.2 = [].
Proof.
  split; [vm_compute; reflexivity|].
  apply (createRegularSnapshot_create_call
           (snapshotsListed [snapshotNamed "tank/k8s/other" "snap-1"]) tt
           "snap-1" "pvc-abc123" "tank/k8s/pvc-abc123" "nfs").
  vm_compute. reflexivity.
Defined.

(** DeleteSnapshot fails with Internal exactly when a delete call, of the
    snapshot or of the detached-snapshot dataset, failed with an error that
    is not a not-found error: such errors are never swallowed, and nothing
    else makes the RPC fail with Internal. *)
Theorem DeleteSnapshot_Internal_iff {W : Type} (h : Handler ApiE W) (w : W)
    (req : csi.DeleteSnapshotRequest) :
  let out := run h (ControllerService.DeleteSnapshot req) w in
  out.1.1 = Err codes.Internal <->
  exists e, In (Some e) (map deleteFailure out.2) /\ isNotFoundError (Some e) = false.
Proof.
  intros out. subst out.
  unfold ControllerService.DeleteSnapshot, deleteDetachedSnapshot, deleteDetachedDataset,
    deleteRegularSnapshot, resolveZFSSnapshotName.
  destruct (String.eqb (csi.dsr_SnapshotId req) "");
    [split; [discriminate|intros (e & [] & _)]|].
  destruct (decodeSnapshotID (csi.dsr_SnapshotId req)) as [m|err];
    [|split; [discriminate|intros (e & [] & _)]].
  destruct (Detached m); explore h.
  all: split;
    [ intros Hres;
      first [ discriminate Hres
            | eexists; split; [|eassumption]; cbn; auto 10 ]
    | intros (e' & Hin & Hnf);
      first [ reflexivity
            | exfalso;
              repeat (destruct Hin as [Hin|Hin];
                      [first [discriminate Hin | injection Hin as <-; congruence]|]);
              exact Hin ] ].
Qed.

(** ** Not-found errors *)

Lemma take_drop (n : nat) (s : string) : strings.take n s +:+ strings.drop n s = s.
Proof.
  revert s. induction n as [|n IH]; intros s; [reflexivity|].
  destruct s as [|a s]; [reflexivity|]. simpl. rewrite IH. reflexivity.
Qed.

Lemma slice_at (pre sub post : string) :
  strings.slice (pre +:+ sub +:+ post) (strings.len pre) (strings.len pre + strings.len sub) = sub.
Proof.
  unfold strings.slice, strings.len.
  replace (Z.of_nat (String.length pre) + Z.of_nat (String.length sub)
           - Z.of_nat (String.length pre)) with (Z.of_nat (String.length sub)) by lia.
  rewrite !Nat2Z.id, drop_app. apply take_app.
Qed.

Lemma slice_inv (s sub : string) (i : nat) :
  strings.slice s (Z.of_nat i) (Z.of_nat i + strings.len sub) = sub ->
  exists pre post, s = pre +:+ sub +:+ post.
Proof.
  unfold strings.slice, strings.len.
  replace (Z.of_nat i + Z.of_nat (String.length sub) - Z.of_nat i)
    with (Z.of_nat (String.length sub)) by lia.
  rewrite !Nat2Z.id. intros H.
  exists (strings.take i s), (strings.drop (String.length sub) (strings.drop i s)).
  rewrite <- (take_drop i s) at 1. f_equal.
  rewrite <- (take_drop (String.length sub) (strings.drop i s)) at 1. rewrite H. reflexivity.
Qed.

Lemma containsAny_spec (s : string) (substrs : list string) :
  containsAny s substrs = true <->
  exists sub pre post, In sub substrs /\ s = pre +:+ sub +:+ post.
Proof.
  unfold containsAny. rewrite existsb_exists. split.
  - intros (sub & Hin & H). apply andb_true_iff in H as [_ H].
    apply existsb_exists in H as (z & Hz & H). apply in_map_iff in Hz as (i & <- & _).
    apply String.eqb_eq in H. apply slice_inv in H as (pre & post & ->).
    exists sub, pre, post. auto.
  - intros (sub & pre & post & Hin & ->). exists sub. split; [exact Hin|].
    apply andb_true_iff. split.
    + apply Z.leb_le. rewrite !len_app. pose proof (len_nonneg pre). pose proof (len_nonneg post).
      lia.
    + apply existsb_exists. exists (strings.len pre). split.
      * apply in_map_iff. exists (String.length pre). split; [reflexivity|].
        apply in_seq. pose proof (len_app pre (sub +:+ post)) as H1.
        pose proof (len_app sub post) as H2. unfold strings.len in H1, H2. lia.
      * apply String.eqb_eq. apply slice_at.
Qed.

(** [isNotFoundError] holds of an error exactly when its message has one of
    the texts "not found", "does not exist" and "ENOENT" somewhere inside,
    in this very spelling; no error (nil) is never a not-found error. *)
Theorem isNotFoundError_spec (err : option error) :
  isNotFoundError err = true <->
  exists msg sub pre post,
    err = Some msg /\ In sub ["not found"; "does not exist"; "ENOENT"] /\
    msg = pre +:+ sub +:+ post.
Proof.
  destruct err as [msg|]; cbn [isNotFoundError].
  - rewrite containsAny_spec. split.
    + intros (sub & pre & post & Hin & ->). exists (pre +:+ sub +:+ post), sub, pre, post. auto.
    + intros (msg' & sub & pre & post & Hm & Hin & ->). injection Hm as ->.
      exists sub, pre, post. auto.
  - split; [discriminate|]. intros (msg & sub & pre & post & Hm & _). discriminate Hm.
Qed.

(** ** CreateVolume from a snapshot: the clone modes *)

Lemma selectCloneMode_detached_inv (meta : SnapshotMetadata) (params : gmap string string) :
  selectCloneMode meta params = cloneModeDetached ->
  Detached meta = false /\
  at_key params DetachedVolumesFromSnapshotsParam = VolumeContextValueTrue.
Proof.
  unfold selectCloneMode. destruct (Detached meta); [discriminate|].
  destruct (String.eqb_spec (at_key params DetachedVolumesFromSnapshotsParam)
                            VolumeContextValueTrue) as [->|]; [auto|].
  cbn. destruct (String.eqb _ _); discriminate.
Qed.

Lemma selectCloneMode_promoted_inv (meta : SnapshotMetadata) (params : gmap string string) :
  selectCloneMode meta params = cloneModePromoted ->
  Detached meta = false /\
  at_key params DetachedVolumesFromSnapshotsParam <> VolumeContextValueTrue /\
  at_key params PromotedVolumesFromSnapshotsParam = VolumeContextValueTrue.
Proof.
  unfold selectCloneMode. destruct (Detached meta); [discriminate|].
  destruct (String.eqb_spec (at_key params DetachedVolumesFromSnapshotsParam)
                            VolumeContextValueTrue) as [|Hd]; [discriminate|].
  cbn. destruct (String.eqb_spec (at_key params PromotedVolumesFromSnapshotsParam)
                                 VolumeContextValueTrue) as [->|]; [auto|discriminate].
Qed.

(** CreateVolume from a snapshot copies by replication only when the
    request sets detachedVolumesFromSnapshots to true, and promotes a
    dataset only when it sets that flag or promotedVolumesFromSnapshots to
    true.  No run both replicates and clones, and no run clones twice. *)
Theorem createVolumeFromSnapshot_modes {W : Type} (h : Handler ApiE W) (w : W)
    (req : csi.CreateVolumeRequest) (snapshotID : string) :
  let params := GetParameters req in
  let out := run h (createVolumeFromSnapshot req snapshotID) w in
  (existsb isReplication out.2 = true ->
     at_key params DetachedVolumesFromSnapshotsParam = VolumeContextValueTrue /\
     omap cloneCall out.2 = []) /\
  (existsb isPromoteCall out.2 = true ->
     at_key params DetachedVolumesFromSnapshotsParam = VolumeContextValueTrue \/
     at_key params PromotedVolumesFromSnapshotsParam = VolumeContextValueTrue) /\
  (length (omap cloneCall out.2) <= 1)%nat.
Proof.
  intros params out. subst params out. unfold createVolumeFromSnapshot.
  destruct (decodeSnapshotID snapshotID) as [decoded|err];
    [|cbn; repeat split; [discriminate..|lia]].
  unfold resolveSnapshotMetadata, resolveDetachedSnapshotMetadata, resolveZFSSnapshotName,
    executeClone, executeSnapshotClone, executePromotedSnapshotClone,
    executeDetachedVolumeClone, executeDetachedSnapshotRestore.
  explore h.
  all: repeat match goal with
         | Hm : selectCloneMode _ _ = cloneModeDetached |- _ =>
             apply selectCloneMode_detached_inv in Hm as [_ Hm]
         | Hm : selectCloneMode _ _ = cloneModePromoted |- _ =>
             apply selectCloneMode_promoted_inv in Hm as (_ & _ & Hm)
         end.
  all: repeat split; intros; try discriminate; auto; cbn; lia.
Qed.

Lemma createVolumeFromSnapshot_modes_witness :
  let out := run (snapshotsListed [snapshotNamed "tank/k8s/vol1" "snap-1"])
               (createVolumeFromSnapshot restoreRequest "nfs:tank/k8s/vol1@snap-1") tt in
  existsb isReplication out.2 = true /\
  at_key (GetParameters restoreRequest) DetachedVolumesFromSnapshotsParam
    = VolumeContextValueTrue /\
  omap cloneCall out.2 = [].
Proof.
  assert (existsb isReplication
            (run (snapshotsListed [snapshotNamed "tank/k8s/vol1" "snap-1"])
               (createVolumeFromSnapshot restoreRequest "nfs:tank/k8s/vol1@snap-1") tt).2 = true)
    as H by (vm_compute; reflexivity).
  split; [exact H|].
  apply (createVolumeFromSnapshot_modes (snapshotsListed [snapshotNamed "tank/k8s/vol1" "snap-1"])
           tt restoreRequest "nfs:tank/k8s/vol1@snap-1").
  exact H.
Defined.

(** The COW clone and the promoted clone either succeed, having cloned the
    snapshot into the new dataset (and, promoted, having promoted exactly
    the new dataset, with nothing else done), or fail with Internal, and
    then the last thing they do is to delete the new dataset. *)
Theorem snapshot_clone_outcome {W : Type} (h : Handler ApiE W) (w : W)
    (meta : SnapshotMetadata) (params : cloneParameters) (promoted : bool) :
  let out := run h (if promoted then executePromotedSnapshotClone meta params
                    else executeSnapshotClone meta params) w in
  let clone := CloneSnapshot {| csp_Snapshot := SnapshotName meta;
                                csp_Dataset := newDatasetName params |} in
  match out.1.1 with
  | Ok d => out.2 = if promoted
                    then [Ev clone (Ok d); Ev (PromoteDataset (newDatasetName params)) None]
                    else [Ev clone (Ok d)]
  | Err c => c = codes.Internal /\
             List.last (map deletedDataset out.2) None = Some (newDatasetName params)
  end.
Proof.
  intros out clone. subst out clone.
  destruct promoted; unfold executePromotedSnapshotClone, executeSnapshotClone;
    explore h; auto.
Qed.

(** The detached volume clone replicates the snapshot's dataset into the
    new dataset first.  When the replication fails the new dataset is
    deleted and the call fails with Internal.  Otherwise the copy is
    promoted, the replicated snapshot is removed from it (whatever these two
    calls answer), and the dataset is read back; the call succeeds exactly
    when this read does. *)
Theorem executeDetachedVolumeClone_outcome {W : Type} (h : Handler ApiE W) (w : W)
    (meta : SnapshotMetadata) (params : cloneParameters) :
  let out := run h (executeDetachedVolumeClone meta params) w in
  let target := newDatasetName params in
  let replication :=
    RunOnetimeReplicationAndWait
      (detachedReplicationParams (DatasetName meta) target (shortSnapshotName (SnapshotName meta)))
      ReplicationPollInterval in
  (exists e err, out.2 = [Ev replication (Some e); Ev (DeleteDataset target) err] /\
                 out.1.1 = Err codes.Internal) \/
  (exists perr derr got,
     out.2 = [Ev replication None; Ev (PromoteDataset target) perr;
              Ev (DeleteSnapshot (target +:+ "@" +:+ shortSnapshotName (SnapshotName meta))) derr;
              Ev (GetDataset target) got] /\
     out.1.1 = match got with Ok d => Ok d | Err _ => Err codes.Internal end).
Proof.
  intros out target replication. subst out target replication.
  unfold executeDetachedVolumeClone.
  cbn -[detachedReplicationParams shortSnapshotName String.append].
  answer h. destruct a as [e|]; cbn -[detachedReplicationParams shortSnapshotName String.append].
  - answer h. left. eexists _, _. split; reflexivity.
  - answer h. answer h. answer h. right.
    destruct a1; cbn -[detachedReplicationParams shortSnapshotName String.append];
      eexists _, _, _; split; reflexivity.
Qed.

(** ** ListSnapshots: what is asked and how much is returned *)

Lemma paginate_result {W : Type} (h : Handler ApiE W) (Sscanf_d : string -> result error Z)
    (req : csi.ListSnapshotsRequest) (snapshots : list tnsapi.Snapshot)
    (entriesOf : list tnsapi.Snapshot -> Prog ApiE (list csi.Snapshot)) (w : W) :
  (forall page w', (length (run h (entriesOf page) w').1.1 <= length page)%nat) ->
  match (run h (paginate Sscanf_d req snapshots entriesOf) w).1.1 with
  | Ok resp => 0 < csi.MaxEntries req -> Z.of_nat (length (csi.Entries resp)) <= csi.MaxEntries req
  | Err c => c = codes.Aborted
  end.
Proof.
  intros Hlen. unfold paginate.
  destruct (if negb _ then _ else _) as [startIndex|e] eqn:Hstart; [|reflexivity].
  destruct (_ && _) eqn:Hrange; [cbn; lia|].
  rewrite run_mbind. cbn -[Z.ltb Z.leb Z.add Z.sub Z.of_nat Z.to_nat].
  intros Hmax.
  match goal with |- context [run h (entriesOf ?p) w] => specialize (Hlen p w); revert Hlen end.
  rewrite length_firstn.
  assert (0 <= startIndex) as Hs.
  { destruct (String.eqb (csi.StartingToken req) "") eqn:Htok; cbn in Hstart, Hrange.
    - injection Hstart as <-. lia.
    - apply orb_false_iff in Hrange as [Hneg _]. apply Z.ltb_ge in Hneg. exact Hneg. }
  destruct (csi.MaxEntries req <=? 0) eqn:Hle; [apply Z.leb_le in Hle; lia|].
  destruct (Z.ltb_spec (Z.of_nat (length snapshots)) (startIndex + csi.MaxEntries req)); lia.
Qed.

Lemma allSnapshotEntries_length {W : Type} (h : Handler ApiE W)
    (managedMeta : gmap string datasetMeta) (page : list tnsapi.Snapshot) :
  forall w : W, (length (run h (allSnapshotEntries managedMeta page) w).1.1 <= length page)%nat.
Proof.
  induction page as [|s rest IH]; intros w; [reflexivity|].
  cbn [allSnapshotEntries length].
  destruct (managedMeta !! snap_Dataset s) as [meta|]; [|specialize (IH w); lia].
  crunch. answer h. destruct (encodeSnapshotID _); crunch.
  - rewrite run_mbind. crunch. specialize (IH w0). lia.
  - specialize (IH w0). lia.
Qed.

Lemma sourceVolumeEntries_length {W : Type} (h : Handler ApiE W)
    (sourceVolumeID protocol : string) (sizeBytes : Z) (page : list tnsapi.Snapshot) :
  forall w : W,
    (length (run h (sourceVolumeEntries sourceVolumeID protocol sizeBytes page) w).1.1
     <= length page)%nat.
Proof.
  induction page as [|s rest IH]; intros w; [reflexivity|].
  cbn [sourceVolumeEntries length].
  crunch. answer h. destruct (encodeSnapshotID _); crunch.
  - rewrite run_mbind. crunch. specialize (IH w0). lia.
  - specialize (IH w0). lia.
Qed.

Lemma listSnapshotByID_entries {W : Type} (h : Handler ApiE W) (w : W)
    (req : csi.ListSnapshotsRequest) (resp : csi.ListSnapshotsResponse) :
  (run h (listSnapshotByID req) w).1.1 = Ok resp ->
  csi.NextToken resp = "" /\
  (csi.Entries resp = [] \/
   exists e, csi.Entries resp = [e] /\ csi.SnapshotId e = csi.lsr_SnapshotId req /\
             csi.ReadyToUse e = true).
Proof.
  unfold listSnapshotByID, listDetachedSnapshotByID, resolveZFSSnapshotName, sizeOfSourceVolume.
  destruct (decodeSnapshotID (csi.lsr_SnapshotId req)) as [m|e].
  - destruct (Detached m); explore h; intros Hr; try discriminate Hr;
      injection Hr as <-; (split; [reflexivity|]); cbn; eauto.
  - cbn. intros Hr. injection Hr as <-. auto.
Qed.

(** ListSnapshots never returns more entries than the request's
    max_entries, when that is positive: on the listing by snapshot ID (at
    most one entry), by source volume, and of everything. *)
Theorem ListSnapshots_max_entries {W : Type} (h : Handler ApiE W) (w : W)
    (Sscanf_d : string -> result error Z) (rangeKeys : gmap string datasetMeta -> list string)
    (req : csi.ListSnapshotsRequest) (resp : csi.ListSnapshotsResponse) :
  0 < csi.MaxEntries req ->
  (run h (ListSnapshots Sscanf_d rangeKeys req) w).1.1 = Ok resp ->
  Z.of_nat (length (csi.Entries resp)) <= csi.MaxEntries req.
Proof.
  intros Hmax. unfold ListSnapshots.
  destruct (negb (String.eqb (csi.lsr_SnapshotId req) "")).
  { intros Hr. apply listSnapshotByID_entries in Hr as [_ [->|(e & -> & _)]]; cbn; lia. }
  destruct (negb (String.eqb (csi.lsr_SourceVolumeId req) "")).
  - unfold listSnapshotsBySourceVolume. rewrite run_mbind.
    cbn -[paginate isDatasetPathVolumeID discoverVolumeBySearching].
    match goal with
    | |- context [run h ?p w] =>
        destruct (run h p w) as [[located w'] tr]
    end.
    cbn -[paginate]. destruct located as [[[datasetName protocol] sizeBytes]|];
      cbn -[paginate]; [|intros Hr; injection Hr as <-; cbn; lia].
    answer h. destruct a as [snapshots [e|]]; cbn -[paginate]; [discriminate|].
    intros Hr.
    pose proof (paginate_result h Sscanf_d req snapshots
                  (sourceVolumeEntries (csi.lsr_SourceVolumeId req) protocol sizeBytes) w0
                  (sourceVolumeEntries_length h _ _ _)) as Hp.
    rewrite Hr in Hp. auto.
  - unfold listAllSnapshots. cbn -[paginate buildManagedMeta querySnapshotsPerDataset].
    answer h. destruct a as [datasets|e]; cbn -[paginate buildManagedMeta querySnapshotsPerDataset];
      [|discriminate].
    rewrite run_mbind. cbn -[paginate buildManagedMeta querySnapshotsPerDataset].
    intros Hr.
    match type of Hr with
    | (run h (paginate _ _ ?snaps ?f) ?w1).1.1 = _ =>
        pose proof (paginate_result h Sscanf_d req snaps f w1
                      (allSnapshotEntries_length h _)) as Hp
    end.
    rewrite Hr in Hp. auto.
Qed.

Lemma ListSnapshots_max_entries_witness :
  let full := run managedWithSnapshots (ListSnapshots (fun _ => Ok 0) keysOf listEverything) tt in
  let out := run managedWithSnapshots (ListSnapshots (fun _ => Ok 0) keysOf listOnePerPage) tt in
  (exists everything, full.1.1 = Ok everything /\ length (csi.Entries everything) = 2%nat) /\
  exists resp, out.1.1 = Ok resp /\
    length (csi.Entries resp) = 1%nat /\ csi.NextToken resp = "1" /\
    Z.of_nat (length (csi.Entries resp)) <= csi.MaxEntries listOnePerPage.
Proof.
  split; [eexists; split; vm_compute; reflexivity|].
  eexists. split; [vm_compute; reflexivity|].
  split; [reflexivity|]. split; [reflexivity|].
  apply (ListSnapshots_max_entries managedWithSnapshots tt (fun _ => Ok 0) keysOf
           listOnePerPage); [reflexivity|vm_compute; reflexivity].
Defined.

(** ListSnapshots with a snapshot ID returns no entry or one entry, which
    carries the requested ID and is ready to use, and never a next token. *)
Theorem ListSnapshots_by_id {W : Type} (h : Handler ApiE W) (w : W)
    (Sscanf_d : string -> result error Z) (rangeKeys : gmap string datasetMeta -> list string)
    (req : csi.ListSnapshotsRequest) (resp : csi.ListSnapshotsResponse) :
  csi.lsr_SnapshotId req <> "" ->
  (run h (ListSnapshots Sscanf_d rangeKeys req) w).1.1 = Ok resp ->
  csi.NextToken resp = "" /\
  (csi.Entries resp = [] \/
   exists e, csi.Entries resp = [e] /\ csi.SnapshotId e = csi.lsr_SnapshotId req /\
             csi.ReadyToUse e = true).
Proof.
  intros Hid. unfold ListSnapshots. rewrite eqb_empty_false by exact Hid. cbn [negb].
  apply listSnapshotByID_entries.
Qed.

Lemma ListSnapshots_by_id_witness :
  let req := {| csi.MaxEntries := 0; csi.StartingToken := "";
                csi.lsr_SourceVolumeId := ""; csi.lsr_SnapshotId := "nfs:tank/k8s/vol1@snap-1" |} in
  let resp := {| csi.Entries := [ {| csi.SnapshotId := "nfs:tank/k8s/vol1@snap-1";
                                     csi.SourceVolumeId := "tank/k8s/vol1";
                                     csi.CreationTime := 0; csi.ReadyToUse := true;
                                     csi.SizeBytes := 0 |} ];
                 csi.NextToken := "" |} in
  csi.NextToken resp = "" /\
  (csi.Entries resp = [] \/
   exists e, csi.Entries resp = [e] /\ csi.SnapshotId e = csi.lsr_SnapshotId req /\
             csi.ReadyToUse e = true).
Proof.
  apply (ListSnapshots_by_id (snapshotsListed [snapshotNamed "tank/k8s/vol1" "snap-1"]) tt
           (fun _ => Ok 0) keysOf
           {| csi.MaxEntries := 0; csi.StartingToken := "";
              csi.lsr_SourceVolumeId := ""; csi.lsr_SnapshotId := "nfs:tank/k8s/vol1@snap-1" |});
    [discriminate|vm_compute; reflexivity].
Defined.

Lemma paginate_no_Internal {W : Type} (h : Handler ApiE W) (Sscanf_d : string -> result error Z)
    (req : csi.ListSnapshotsRequest) (snapshots : list tnsapi.Snapshot)
    (entriesOf : list tnsapi.Snapshot -> Prog ApiE (list csi.Snapshot)) (w : W) :
  (run h (paginate Sscanf_d req snapshots entriesOf) w).1.1 <> Err codes.Internal.
Proof.
  unfold paginate.
  destruct (if negb _ then _ else _) as [startIndex|e]; [|discriminate].
  destruct (_ && _); [discriminate|]. rewrite run_mbind. discriminate.
Qed.

(** When the property search of the unfiltered listing answers, the
    snapshot queries are exactly one per managed dataset, in the order in
    which the map of managed datasets is visited, and a query that fails is
    passed over: the listing does not fail with Internal. *)
Theorem listAllSnapshots_queries {W : Type} (h : Handler ApiE W) (w : W)
    (Sscanf_d : string -> result error Z) (rangeKeys : gmap string datasetMeta -> list string)
    (req : csi.ListSnapshotsRequest) (datasets : list DatasetWithProperties) :
  (h _ (FindDatasetsByProperty "" PropertyManagedBy ManagedByValue) w).1 = Ok datasets ->
  let out := run h (listAllSnapshots Sscanf_d rangeKeys req) w in
  omap snapshotQuery out.2
    = map (fun datasetID => [mkFilter "dataset" "=" datasetID])
          (rangeKeys (buildManagedMeta datasets)) /\
  out.1.1 <> Err codes.Internal.
Proof.
  intros Hfound out. subst out. unfold listAllSnapshots.
  cbn -[paginate buildManagedMeta querySnapshotsPerDataset].
  rewrite Hfound. cbn -[paginate buildManagedMeta querySnapshotsPerDataset].
  rewrite run_mbind. cbn -[paginate buildManagedMeta querySnapshotsPerDataset].
  split; [|apply paginate_no_Internal].
  rewrite omap_app, querySnapshotsPerDataset_run.
  rewrite paginate_no_query by apply allSnapshotEntries_no_query.
  apply app_nil_r.
Qed.

Lemma listAllSnapshots_queries_witness :
  let out := run threeManaged (listAllSnapshots (fun _ => Ok 0) keysOf listEverything) tt in
  omap snapshotQuery out.2
    = map (fun datasetID => [mkFilter "dataset" "=" datasetID])
          (keysOf (buildManagedMeta
             [ managedDataset "tank/k8s/vol1" [(PropertyManagedBy, ManagedByValue)];
               managedDataset "tank/csi-detached-snapshots/snap-dr"
                 [(PropertyManagedBy, ManagedByValue);
                  (PropertyDetachedSnapshot, VolumeContextValueTrue)];
               managedDataset "tank/k8s/vol2" [(PropertyManagedBy, ManagedByValue)] ])) /\
  out.1.1 <> Err codes.Internal.
Proof.
  apply (listAllSnapshots_queries threeManaged tt (fun _ => Ok 0) keysOf listEverything).
  reflexivity.
Defined.

Lemma addManagedDataset_keeps (m : gmap string datasetMeta) (ds : DatasetWithProperties)
    (k : string) :
  is_Some (m !! k) -> is_Some (addManagedDataset m ds !! k).
Proof.
  unfold addManagedDataset. fold (markedDetached ds).
  destruct (markedDetached ds); [auto|]. intros Hk.
  destruct (decide (ds_ID (dwp_Dataset ds) = k)) as [<-|Hne].
  - rewrite lookup_insert_eq. eauto.
  - rewrite lookup_insert_ne by exact Hne. exact Hk.
Qed.

Lemma fold_addManagedDataset_keeps (datasets : list DatasetWithProperties) (k : string) :
  forall m, is_Some (m !! k) -> is_Some (fold_left addManagedDataset datasets m !! k).
Proof.
  induction datasets as [|d rest IH]; intros m Hk; [exact Hk|].
  cbn [fold_left]. apply IH, addManagedDataset_keeps, Hk.
Qed.

(** The datasets whose snapshots the unfiltered listing looks at are
    exactly the datasets that the property search returned without the
    mark detached_snapshot = true. *)
Theorem buildManagedMeta_domain (datasets : list DatasetWithProperties) (k : string) :
  is_Some (buildManagedMeta datasets !! k) <->
  exists ds, In ds datasets /\ markedDetached ds = false /\ k = ds_ID (dwp_Dataset ds).
Proof.
  split; [apply buildManagedMeta_keys|].
  intros (ds & Hin & Hmark & ->). unfold buildManagedMeta. generalize (∅ : gmap string datasetMeta).
  induction datasets as [|d rest IH]; intros m; [destruct Hin|].
  cbn [fold_left]. destruct Hin as [->|Hin]; [|apply IH, Hin].
  apply fold_addManagedDataset_keeps. unfold addManagedDataset. fold (markedDetached ds).
  rewrite Hmark. rewrite lookup_insert_eq. eauto.
Qed.

(** ** Node: mount options and connection parameters *)

(** The key of a mount option is the option itself when it has no [=], and
    otherwise the text before its first [=]. *)
Theorem extractNVMeOFOptionKey_spec (option : string) :
  (lacks "=" option /\ extractNVMeOFOptionKey option = option) \/
  (exists key value, option = key +:+ "=" +:+ value /\ lacks "=" key /\
                     extractNVMeOFOptionKey option = key).
Proof.
  unfold extractNVMeOFOptionKey.
  destruct (Index_byte_spec "=" option) as [[Hl Hi]|(p & r & -> & Hp & Hi)]; rewrite Hi.
  - left. split; [exact Hl|reflexivity].
  - right. exists p, r. pose proof (len_nonneg p).
    destruct (Z.eqb_spec (strings.len p) (-1)) as [Hm1|_]; [lia|].
    cbn [negb]. rewrite (upto_app p (String "=" r)). auto.
Qed.

(** The mount options are the user's options, in their order, followed by
    the default noatime unless one of the user's options has the key
    noatime; without user options they are the default alone.  So user
    options are never dropped or reordered, and a default never doubles a
    key the user gave. *)
Theorem getNVMeOFMountOptions_spec (userOptions : list string) :
  exists extra,
    getNVMeOFMountOptions userOptions = (userOptions ++ extra)%list /\
    (extra = [] \/ extra = ["noatime"]) /\
    (extra = [] <-> exists o, In o userOptions /\ extractNVMeOFOptionKey o = "noatime").
Proof.
  unfold getNVMeOFMountOptions, defaultNVMeOFMountOptions.
  destruct userOptions as [|o rest].
  - exists ["noatime"]. split; [reflexivity|]. split; [auto|].
    split; [discriminate|intros (x & [] & _)].
  - cbn [length Nat.eqb List.filter].
    change (extractNVMeOFOptionKey "noatime") with "noatime".
    destruct (existsb (String.eqb "noatime") (map extractNVMeOFOptionKey (o :: rest))) eqn:Hex;
      cbn [negb].
    + exists []. split; [reflexivity|]. split; [auto|]. split; [intros _|reflexivity].
      apply existsb_exists in Hex as (k & Hin & Hk). apply in_map_iff in Hin as (x & <- & Hx).
      apply String.eqb_eq in Hk. exists x. auto.
    + exists ["noatime"]. split; [reflexivity|]. split; [auto|]. split; [discriminate|].
      intros (x & Hx & Hk). exfalso.
      assert (existsb (String.eqb "noatime") (map extractNVMeOFOptionKey (o :: rest)) = true)
        as Htrue; [|congruence].
      apply existsb_exists. exists (extractNVMeOFOptionKey x).
      split; [apply in_map, Hx|]. rewrite Hk. reflexivity.
Qed.

(** [validateNVMeOFParams] fails, with InvalidArgument, exactly when the
    volume context has no NQN or no server.  Otherwise it returns the NQN,
    the server, the queue settings as given, and a transport and a port that
    are never empty: tcp and 4420 stand in for missing ones. *)
Theorem validateNVMeOFParams_spec (volumeContext : gmap string string) :
  match validateNVMeOFParams volumeContext with
  | Err c => c = codes.InvalidArgument /\
             (at_key volumeContext "nqn" = "" \/ at_key volumeContext "server" = "")
  | Ok p =>
      nqn p = at_key volumeContext "nqn" /\ nqn p <> "" /\
      server p = at_key volumeContext "server" /\ server p <> "" /\
      transport p <> "" /\ port p <> "" /\
      (at_key volumeContext "transport" <> "" -> transport p = at_key volumeContext "transport") /\
      (at_key volumeContext "transport" = "" -> transport p = "tcp") /\
      (at_key volumeContext "port" <> "" -> port p = at_key volumeContext "port") /\
      (at_key volumeContext "port" = "" -> port p = "4420") /\
      nrIOQueues p = at_key volumeContext "nvmeof.nr-io-queues" /\
      queueSize p = at_key volumeContext "nvmeof.queue-size"
  end.
Proof.
  unfold validateNVMeOFParams. cbn [nqn server transport port nrIOQueues queueSize].
  destruct (String.eqb_spec (at_key volumeContext "nqn") "") as [Hn|Hn]; [cbn; auto|].
  destruct (String.eqb_spec (at_key volumeContext "server") "") as [Hs|Hs]; [cbn; auto|].
  cbn [orb nqn server transport port nrIOQueues queueSize].
  destruct (String.eqb_spec (at_key volumeContext "transport") "") as [Ht|Ht];
    destruct (String.eqb_spec (at_key volumeContext "port") "") as [Hp|Hp];
    repeat split; auto; try discriminate; try contradiction.
Qed.

(** ** kubectl plugin: finding the binding of a volume *)

(** [matchK8sBinding] prefers the binding stored under the dataset path:
    the volume ID is looked up only when the dataset has no entry, and
    never when it is empty.  A binding that is returned is stored in the
    map under the dataset path or under the volume ID. *)
Theorem matchK8sBinding_spec (bindings : gmap string (option K8sVolumeBinding))
    (dataset volumeID : string) :
  (forall b, bindings !! dataset = Some b -> matchK8sBinding bindings dataset volumeID = b) /\
  (bindings !! dataset = None -> volumeID = "" ->
     matchK8sBinding bindings dataset volumeID = None) /\
  (forall b, matchK8sBinding bindings dataset volumeID = Some b ->
     bindings !! dataset = Some (Some b) \/
     (bindings !! dataset = None /\ volumeID <> "" /\ bindings !! volumeID = Some (Some b))).
Proof.
  unfold matchK8sBinding. repeat split.
  - intros b ->. reflexivity.
  - intros -> ->. reflexivity.
  - intros b. destruct (bindings !! dataset) as [x|] eqn:Hd; [intros ->; auto|].
    destruct (String.eqb_spec volumeID ""); [discriminate|].
    destruct (negb (String.eqb volumeID dataset)); cbn [negb andb]; [|discriminate].
    destruct (bindings !! volumeID) as [y|]; [|discriminate]. intros ->. auto.
Qed.

Lemma matchK8sBinding_spec_witness :
  let b := {| PVName := "pv-1"; PVCName := "data"; PVCNamespace := "default";
              PVStatus := "Bound"; Pods := [] |} in
  matchK8sBinding {[ "tank/k8s/pvc-1" := Some b ]} "tank/k8s/pvc-1" "pvc-1" = Some b.
Proof.
  apply (matchK8sBinding_spec {[ "tank/k8s/pvc-1" :=
           Some {| PVName := "pv-1"; PVCName := "data"; PVCNamespace := "default";
                   PVStatus := "Bound"; Pods := [] |} ]} "tank/k8s/pvc-1" "pvc-1").
  vm_compute. reflexivity.
Defined.

(** ** Dataset paths *)

Lemma splitFrom_prefix (c : ascii) (p r cur : string) :
  lacks c p ->
  strings.splitFrom (String c EmptyString) O cur (p +:+ String c r)
  = (cur +:+ p) :: strings.splitFrom (String c EmptyString) O EmptyString r.
Proof.
  revert cur. induction p as [|a p IH]; intros cur Hp.
  - cbn [String.append]. rewrite splitFrom_cons_byte, Ascii.eqb_refl, append_nil_r. reflexivity.
  - apply lacks_cons in Hp as [Hne Hp]. cbn [String.append]. rewrite splitFrom_cons_byte.
    destruct (Ascii.eqb_spec c a) as [->|_]; [contradiction|].
    rewrite IH by exact Hp. rewrite append_byte_assoc. reflexivity.
Qed.

Lemma splitFrom_snoc (c : ascii) (v n cur : string) :
  lacks c n ->
  strings.splitFrom (String c EmptyString) O cur (v +:+ String c n)
  = (strings.splitFrom (String c EmptyString) O cur v ++ [n])%list.
Proof.
  intros Hn. revert cur. induction v as [|a v IH]; intros cur.
  - cbn [String.append]. rewrite splitFrom_cons_byte, Ascii.eqb_refl.
    rewrite splitFrom_lacks by exact Hn. reflexivity.
  - cbn [String.append]. rewrite !splitFrom_cons_byte.
    destruct (Ascii.eqb c a); rewrite IH; reflexivity.
Qed.

Lemma Join_cons (x : string) (l : list string) (sep : string) :
  l <> [] -> strings.Join (x :: l) sep = x +:+ sep +:+ strings.Join l sep.
Proof. destruct l; [contradiction|reflexivity]. Qed.

Lemma append_assoc (a b c : string) : (a +:+ b) +:+ c = a +:+ b +:+ c.
Proof. induction a as [|x a IH]; simpl; [reflexivity|]. rewrite IH. reflexivity. Qed.

Lemma Join_splitFrom (c : ascii) (s cur : string) :
  strings.Join (strings.splitFrom (String c EmptyString) O cur s) (String c EmptyString)
  = cur +:+ s.
Proof.
  revert cur. induction s as [|a s IH]; intros cur.
  - cbn. rewrite append_nil_r. reflexivity.
  - rewrite splitFrom_cons_byte. destruct (Ascii.eqb_spec c a) as [->|_].
    + rewrite Join_cons by apply splitFrom_nonempty. rewrite IH. reflexivity.
    + rewrite IH. apply append_byte_assoc.
Qed.

Lemma firstn_snoc {A : Type} (l : list A) (x : A) :
  List.firstn (length (l ++ [x]) - 1) (l ++ [x]) = l.
Proof.
  rewrite length_app. cbn [length]. replace (length l + 1 - 1)%nat with (length l) by lia.
  rewrite firstn_app, Nat.sub_diag, firstn_all. cbn. apply app_nil_r.
Qed.

(** The parent of a dataset path is the path up to its last slash; a path
    without a slash has no parent (the empty string). *)
Theorem extractParentDatasetFromDataset_spec (dataset : string) :
  (lacks "/" dataset /\ extractParentDatasetFromDataset dataset = "") \/
  (exists parent leaf,
     dataset = parent +:+ "/" +:+ leaf /\ lacks "/" leaf /\
     extractParentDatasetFromDataset dataset = parent).
Proof.
  unfold extractParentDatasetFromDataset, strings.Split.
  destruct (LastIndex_byte_spec "/" dataset) as [[Hl _]|(v & n & -> & Hn & _)].
  - left. split; [exact Hl|]. rewrite splitFrom_lacks by exact Hl. reflexivity.
  - right. exists v, n. split; [reflexivity|]. split; [exact Hn|].
    rewrite splitFrom_snoc by exact Hn.
    pose proof (splitFrom_nonempty "/" v "") as Hne.
    destruct (strings.splitFrom "/" 0 "" v) as [|x l] eqn:Hs; [contradiction|].
    rewrite firstn_snoc. rewrite length_app. cbn [length].
    destruct (Nat.ltb_spec 1 (S (length l) + 1)); [|lia].
    rewrite <- Hs. apply (Join_splitFrom "/" v "").
Qed.

(** The pool of a dataset path is the path up to its first slash, and the
    whole path when it has no slash. *)
Theorem extractPoolFromDataset_spec (dataset : string) :
  (lacks "/" dataset /\ extractPoolFromDataset dataset = dataset) \/
  (exists pool rest,
     dataset = pool +:+ "/" +:+ rest /\ lacks "/" pool /\
     extractPoolFromDataset dataset = pool).
Proof.
  unfold extractPoolFromDataset, strings.Split.
  destruct (Index_byte_spec "/" dataset) as [[Hl _]|(p & r & -> & Hp & _)].
  - left. split; [exact Hl|]. rewrite splitFrom_lacks by exact Hl. reflexivity.
  - right. exists p, r. split; [reflexivity|]. split; [exact Hp|].
    rewrite splitFrom_prefix by exact Hp. reflexivity.
Qed.

(** A volume restored from a regular snapshot is placed beside the
    snapshot's dataset when the request names no parent dataset, and under
    the named parent dataset otherwise; its dataset is always the parent
    followed by a slash and the volume name. *)
Theorem validateCloneParameters_placement (req : csi.CreateVolumeRequest)
    (meta : SnapshotMetadata) (cp : cloneParameters) :
  validateCloneParameters req meta = Ok cp ->
  newDatasetName cp = parentDataset cp +:+ "/" +:+ csi.cvr_Name req /\
  (at_key (GetParameters req) "parentDataset" <> "" ->
     parentDataset cp = at_key (GetParameters req) "parentDataset") /\
  (at_key (GetParameters req) "parentDataset" = "" -> Detached meta = false ->
     forall parent leaf, DatasetName meta = parent +:+ "/" +:+ leaf -> lacks "/" leaf ->
       parentDataset cp = parent) /\
  (at_key (GetParameters req) "parentDataset" = "" -> Detached meta = true ->
     parentDataset cp = pool cp).
Proof.
  unfold validateCloneParameters.
  destruct (String.eqb (DatasetName meta) ""); [discriminate|].
  destruct (_ && _); [discriminate|].
  intros H. injection H as <-. cbn [newDatasetName parentDataset pool newVolumeName].
  split; [reflexivity|].
  destruct (String.eqb_spec (at_key (GetParameters req) "parentDataset") "") as [He|Hne].
  - split; [contradiction|]. split; [|intros _ ->; reflexivity].
    intros _ -> parent leaf Hds Hleaf. rewrite Hds. unfold strings.Split.
    change ("/" +:+ leaf) with (String "/" leaf).
    rewrite splitFrom_snoc by exact Hleaf.
    pose proof (splitFrom_nonempty "/" parent "") as Hnil.
    destruct (strings.splitFrom "/" 0 "" parent) as [|x l] eqn:Hs; [contradiction|].
    rewrite firstn_snoc. rewrite length_app. cbn [length].
    destruct (Nat.ltb_spec 1 (S (length l) + 1)); [|lia].
    rewrite <- Hs. apply (Join_splitFrom "/" parent "").
  - split; [reflexivity|]. split; contradiction.
Qed.

Lemma validateCloneParameters_placement_witness :
  let req := {| csi.cvr_Name := "pvc-restored"; csi.cvr_Parameters := None |} in
  let meta := {| SnapshotName := "tank/k8s/vol1@snap-1"; SourceVolume := "vol1";
                 DatasetName := "tank/k8s/vol1"; Protocol := "nfs"; CreatedAt := 0;
                 Detached := false |} in
  let cp := {| pool := "tank"; parentDataset := "tank/k8s"; newVolumeName := "pvc-restored";
               newDatasetName := "tank/k8s/pvc-restored" |} in
  newDatasetName cp = parentDataset cp +:+ "/" +:+ csi.cvr_Name req /\
  (at_key (GetParameters req) "parentDataset" <> "" ->
     parentDataset cp = at_key (GetParameters req) "parentDataset") /\
  (at_key (GetParameters req) "parentDataset" = "" -> Detached meta = false ->
     forall parent leaf, DatasetName meta = parent +:+ "/" +:+ leaf -> lacks "/" leaf ->
       parentDataset cp = parent) /\
  (at_key (GetParameters req) "parentDataset" = "" -> Detached meta = true ->
     parentDataset cp = pool cp).
Proof.
  apply (validateCloneParameters_placement
           {| csi.cvr_Name := "pvc-restored"; csi.cvr_Parameters := None |}
           {| SnapshotName := "tank/k8s/vol1@snap-1"; SourceVolume := "vol1";
              DatasetName := "tank/k8s/vol1"; Protocol := "nfs"; CreatedAt := 0;
              Detached := false |}).
  vm_compute. reflexivity.
Defined.

(** ** Node: the attach loop in general *)

Lemma attachAttempts_bounds {W : Type} (h : Handler NodeE W) (hasApiClient : bool)
    (params : nvmeOFConnectionParams) (volumeID stagingTargetPath : string)
    (volumeCapability : VolumeCapability) (isBlockVolume : bool)
    (volumeContext : gmap string string) (left : nat) :
  forall w : W,
    let out := run h (attachAttempts hasApiClient params volumeID stagingTargetPath
                                     volumeCapability isBlockVolume volumeContext left) w in
    (length (List.filter isConnect out.2) <= left)%nat /\
    (forall resp, out.1.1 = Ok resp -> existsb deviceAppeared out.2 = true) /\
    (existsb contextCanceled out.2 = true -> out.1.1 = Err codes.DeadlineExceeded) /\
    out.1.1 <> Err codes.Unavailable.
Proof.
  induction left as [|left' IH]; intros w out; subst out.
  { cbn. repeat split; try discriminate. lia. }
  cbn [attachAttempts]. generalize (maxConnectRetries - Z.of_nat left'). intros attempt.
  unfold sleepBeforeRetry, stageNVMeDevice, formatAndMountNVMeDevice, verifyDeviceSize,
    getExpectedCapacity.
  node_explore h.
  all: try match goal with
           | |- context [run _ (attachAttempts _ _ _ _ _ _ _ _) ?w'] =>
               specialize (IH w'); cbv zeta in IH; destruct IH as (Hn & Hok & Hc & Hu)
           end.
  all: repeat split; intros; try discriminate; try reflexivity; auto; try lia.
  all: try (intros Hbad; injection Hbad as ->; cbn in *; discriminate).
  all: eauto.
Qed.

(** Whatever the host does, [connectAndStageDevice] connects at most ten
    times; it succeeds only if a wait for the device came back with a
    device; once the RPC context is found done it fails with
    DeadlineExceeded; and it never returns Unavailable: a staging that
    fails with Unavailable is retried, and when the attempts run out the
    failure is Internal. *)
Theorem connectAndStageDevice_bounds {W : Type} (h : Handler NodeE W) (w : W)
    (hasApiClient : bool) (params : nvmeOFConnectionParams) (volumeID stagingTargetPath : string)
    (volumeCapability : VolumeCapability) (isBlockVolume : bool)
    (volumeContext : gmap string string) :
  let out := run h (connectAndStageDevice hasApiClient params volumeID stagingTargetPath
                                          volumeCapability isBlockVolume volumeContext) w in
  (length (List.filter isConnect out.2) <= 10)%nat /\
  (forall resp, out.1.1 = Ok resp -> existsb deviceAppeared out.2 = true) /\
  (existsb contextCanceled out.2 = true -> out.1.1 = Err codes.DeadlineExceeded) /\
  out.1.1 <> Err codes.Unavailable.
Proof.
  intros out. subst out. unfold connectAndStageDevice.
  change (Z.to_nat maxConnectRetries) with 10%nat. apply attachAttempts_bounds.
Qed.

(** ** Node: staging a device *)

(** [stageNVMeDevice] mounts at most once, and only a filesystem volume:
    the device on the staging path, with the merged mount options, after
    the formatting step passed.  A staging path that is already mounted
    makes the call succeed without a mount.  A block volume is handed to
    [stageBlockDevice] with no other step. *)
Theorem stageNVMeDevice_mount {W : Type} (h : Handler NodeE W) (w : W)
    (hasApiClient : bool) (volumeID devicePath stagingTargetPath : string)
    (volumeCapability : VolumeCapability) (isBlockVolume : bool)
    (volumeContext : gmap string string) :
  let out := run h (stageNVMeDevice hasApiClient volumeID devicePath stagingTargetPath
                                    volumeCapability isBlockVolume volumeContext) w in
  (forall m, In m (omap mountCall out.2) ->
     isBlockVolume = false /\
     m = (getNVMeOFMountOptions (userMountFlags volumeCapability), devicePath,
          stagingTargetPath) /\
     existsb formattingPassed out.2 = true) /\
  (length (omap mountCall out.2) <= 1)%nat /\
  (existsb alreadyMounted out.2 = true -> out.1.1 = Ok tt /\ omap mountCall out.2 = []) /\
  (isBlockVolume = true ->
     exists r, out.2 = [Ev (stageBlockDevice devicePath stagingTargetPath) r] /\ out.1.1 = r).
Proof.
  intros out. subst out.
  unfold stageNVMeDevice, formatAndMountNVMeDevice, verifyDeviceSize, getExpectedCapacity,
    userMountFlags.
  destruct isBlockVolume; node_explore h.
  all: repeat split; intros; try discriminate; try contradiction; try (cbn; lia); eauto.
  all: repeat match goal with
         | H : _ \/ _ |- _ => destruct H as [H|H]; [try discriminate H|]
         | H : False |- _ => destruct H
         end.
  all: try subst m; try reflexivity.
  all: cbn; rewrite ?orb_true_r; reflexivity.
Qed.

Lemma stageNVMeDevice_mount_witness :
  let out := run hostMounted
               (stageNVMeDevice false "pvc-1" "/dev/nvme0n1" "/var/lib/kubelet/staging/pvc-1"
                                ext4Mount false oneGiBVolume) tt in
  existsb alreadyMounted out.2 = true /\ out.1.1 = Ok tt /\ omap mountCall out.2 = [].
Proof.
  assert (existsb alreadyMounted
            (run hostMounted
               (stageNVMeDevice false "pvc-1" "/dev/nvme0n1" "/var/lib/kubelet/staging/pvc-1"
                                ext4Mount false oneGiBVolume) tt).2 = true) as H
    by (vm_compute; reflexivity).
  split; [exact H|].
  apply (stageNVMeDevice_mount hostMounted tt false "pvc-1" "/dev/nvme0n1"
           "/var/lib/kubelet/staging/pvc-1" ext4Mount false oneGiBVolume).
  exact H.
Defined.

(** The size verification of [formatAndMountNVMeDevice]: a device whose
    size cannot be read ends the staging with FailedPrecondition (also when
    the device has vanished); the appliance is asked for the volume size
    only when the node has a client, the volume context names the dataset
    and carries no readable expectedCapacity; and an expected capacity of
    zero switches the verification off, whatever the size of the device. *)
Theorem formatAndMountNVMeDevice_size_check {W : Type} (h : Handler NodeE W) (w : W)
    (hasApiClient : bool) (volumeID devicePath stagingTargetPath : string)
    (volumeCapability : VolumeCapability) (volumeContext : gmap string string) :
  let out := run h (formatAndMountNVMeDevice hasApiClient volumeID devicePath stagingTargetPath
                                             volumeCapability volumeContext) w in
  (existsb sizeReadFailed out.2 = true -> out.1.1 = Err codes.FailedPrecondition) /\
  (existsb isVolsizeQuery out.2 = true ->
     hasApiClient = true /\ at_key volumeContext "datasetName" <> "" /\
     (at_key volumeContext "expectedCapacity" = "" \/
      ParseInt (at_key volumeContext "expectedCapacity") = None)) /\
  (ParseInt (at_key volumeContext "expectedCapacity") = Some 0 ->
     forall a, In (Some a) (map deviceSizeRead out.2) -> existsb isFormatting out.2 = true).
Proof.
  intros out. subst out.
  unfold formatAndMountNVMeDevice, verifyDeviceSize, getExpectedCapacity.
  destruct (String.eqb_spec (at_key volumeContext "expectedCapacity") "") as [Hc|Hc];
    cbn [negb].
  - rewrite Hc. change (ParseInt "") with (@None Z).
    destruct (String.eqb_spec (at_key volumeContext "datasetName") "") as [Hd|Hd];
      destruct hasApiClient; node_explore h.
    all: repeat split; intros; try discriminate; auto.
  - destruct (ParseInt (at_key volumeContext "expectedCapacity")) as [e|] eqn:Hp.
    + node_explore h.
      all: repeat split; intros; try discriminate; auto.
      all: try (match goal with H : Some _ = Some 0 |- _ => injection H as -> end;
                cbn in *; try discriminate).
      all: repeat match goal with
             | H : _ \/ _ |- _ => destruct H as [H|H]; [try discriminate H|]
             | H : False |- _ => destruct H
             end.
      all: cbn; rewrite ?orb_true_r; reflexivity.
    + destruct (String.eqb_spec (at_key volumeContext "datasetName") "") as [Hd|Hd];
        destruct hasApiClient; node_explore h.
      all: repeat split; intros; try discriminate; auto.
Qed.

Lemma formatAndMountNVMeDevice_size_check_witness :
  let out := run (host true 4096)
               (formatAndMountNVMeDevice false "pvc-1" "/dev/nvme0n1"
                  "/var/lib/kubelet/staging/pvc-1" ext4Mount zeroCapacityVolume) tt in
  In (Some 4096) (map deviceSizeRead out.2) /\ existsb isFormatting out.2 = true.
Proof.
  assert (In (Some 4096)
            (map deviceSizeRead
               (run (host true 4096)
                  (formatAndMountNVMeDevice false "pvc-1" "/dev/nvme0n1"
                     "/var/lib/kubelet/staging/pvc-1" ext4Mount zeroCapacityVolume) tt).2)) as H
    by (vm_compute; auto).
  split; [exact H|].
  apply (formatAndMountNVMeDevice_size_check (host true 4096) tt false "pvc-1" "/dev/nvme0n1"
           "/var/lib/kubelet/staging/pvc-1" ext4Mount zeroCapacityVolume) with (a := 4096);
    [vm_compute; reflexivity|exact H].
Defined.

(** ** Detached snapshots: the temporary snapshot and retries *)





(** [ensureDetachedSnapshotsParentDataset] creates nothing when the query
    lists the parent dataset, by name or by ID; otherwise the one dataset it
    asks for is the parent, as a filesystem; and once that creation
    succeeded the call succeeds, whatever the tagging of the new dataset
    answers. *)
Theorem ensureDetachedSnapshotsParentDataset_spec {W : Type} (h : Handler ApiE W) (w : W)
    (parent : string) :
  let out := run h (ensureDetachedSnapshotsParentDataset parent) w in
  (existsb (parentFound parent) out.2 = true ->
     omap datasetCreation out.2 = [] /\ out.1.1 = None) /\
  (omap datasetCreation out.2 = [] \/
   omap datasetCreation out.2 = [{| dcp_Name := parent; dcp_Type := "FILESYSTEM" |}]) /\
  (omap createdDataset out.2 <> [] -> out.1.1 = None) /\
  (out.1.1 = None ->
     existsb (parentFound parent) out.2 = true \/ omap createdDataset out.2 <> []).
Proof.
  intros out. subst out. unfold ensureDetachedSnapshotsParentDataset.
  explore h.
  all: repeat split; intros; try discriminate; try contradiction; auto.
  all: try (right; discriminate).
  all: try congruence.
Qed.

Lemma ensureDetachedSnapshotsParentDataset_spec_witness :
  let out := run everythingExists
               (ensureDetachedSnapshotsParentDataset "tank/csi-detached-snapshots") tt in
  existsb (parentFound "tank/csi-detached-snapshots") out.2 = true /\
  omap datasetCreation out.2 = [] /\ out.1.1 = None.
Proof.
  assert (existsb (parentFound "tank/csi-detached-snapshots")
            (run everythingExists
               (ensureDetachedSnapshotsParentDataset "tank/csi-detached-snapshots") tt).2
          = true) as H by (vm_compute; reflexivity).
  split; [exact H|].
  apply (ensureDetachedSnapshotsParentDataset_spec everythingExists tt
           "tank/csi-detached-snapshots").
  exact H.
Defined.

(** ** Node: the controller of a namespace device *)

Lemma get_split (s : string) (i : nat) (c : ascii) :
  String.get i s = Some c -> s = strings.take i s +:+ String c (strings.drop (S i) s).
Proof.
  revert i. induction s as [|a s IH]; intros i H; [destruct i; discriminate H|].
  destruct i as [|i]; cbn in H |- *.
  - injection H as ->. reflexivity.
  - f_equal. apply IH, H.
Qed.

Lemma byteIs_inv (p : ascii -> bool) (s : string) (i : nat) :
  byteIs p s i = true -> exists c, String.get i s = Some c /\ p c = true.
Proof. unfold byteIs. destruct (String.get i s) as [c|]; [eauto|discriminate]. Qed.

Lemma get_app_byte (p r : string) (c : ascii) :
  String.get (String.length p) (p +:+ String c r) = Some c.
Proof. induction p as [|a p IH]; [reflexivity|exact IH]. Qed.

Lemma get_app_left (p r : string) (i : nat) :
  (i < String.length p)%nat -> String.get i (p +:+ r) = String.get i p.
Proof.
  revert i. induction p as [|a p IH]; intros i Hi; [cbn in Hi; lia|].
  destruct i as [|i]; [reflexivity|]. cbn in Hi |- *. apply IH. lia.
Qed.

Lemma get_app_right (p r : string) (i : nat) :
  String.get (String.length p + i) (p +:+ r) = String.get i r.
Proof. induction p as [|a p IH]; [reflexivity|exact IH]. Qed.

Lemma take_nonempty (s : string) (i : nat) :
  (0 < i)%nat -> (i < String.length s)%nat -> strings.take i s <> "".
Proof.
  destruct i as [|i]; [lia|]. destruct s as [|a s]; [cbn; lia|]. discriminate.
Qed.

Lemma length_take (s : string) (n : nat) :
  (n <= String.length s)%nat -> String.length (strings.take n s) = n.
Proof.
  revert n. induction s as [|a s IH]; intros n Hn.
  - cbn in Hn. destruct n; [reflexivity|lia].
  - destruct n as [|n]; [reflexivity|]. cbn in Hn |- *. f_equal. apply IH. lia.
Qed.

Lemma extractNVMeControllerFrom_sound (devicePath : string) (i : nat) :
  let controller := extractNVMeControllerFrom devicePath i in
  controller = "" \/
  exists d ns,
    devicePath = controller +:+ "n" +:+ String d ns /\ controller <> "" /\ isDigit d = true /\
    byteIs isDigit controller (String.length controller - 1) = true.
Proof.
  induction i as [|i IH]; cbn [extractNVMeControllerFrom].
  - cbn [Nat.ltb Nat.leb andb]. rewrite andb_false_r. cbn. auto.
  - destruct (_ && _ && _ && _) eqn:Hhit; [|exact IH]. right.
    apply andb_true_iff in Hhit as [Hhit Hnext]. apply andb_true_iff in Hnext as [Hlen Hnext].
    apply andb_true_iff in Hhit as [Hhit Hprev]. apply andb_true_iff in Hhit as [Hn _].
    apply Nat.ltb_lt in Hlen.
    apply byteIs_inv in Hn as (c & Hc & Hcn). apply Ascii.eqb_eq in Hcn. subst c.
    apply byteIs_inv in Hnext as (d & Hd & Hdd).
    pose proof (get_split _ _ _ Hc) as Hs.
    assert (String.get 0 (strings.drop (S (S i)) devicePath) = Some d) as Hd0.
    { rewrite Hs in Hd at 1.
      assert (String.length (strings.take (S i) devicePath) = S i) as Hlt
        by (apply length_take; lia).
      replace (S i + 1)%nat with (String.length (strings.take (S i) devicePath) + 1)%nat in Hd
        by lia.
      rewrite get_app_right in Hd. exact Hd. }
    destruct (strings.drop (S (S i)) devicePath) as [|d' ns] eqn:Hdrop; [discriminate Hd0|].
    injection Hd0 as ->.
    exists d, ns. split; [exact Hs|]. split; [apply take_nonempty; lia|]. split; [exact Hdd|].
    assert (String.length (strings.take (S i) devicePath) = S i) as Hlt
      by (apply length_take; lia).
    rewrite Hlt. replace (S i - 1)%nat with i in * by lia.
    unfold byteIs in Hprev |- *. rewrite Hs in Hprev at 1.
    rewrite get_app_left in Hprev by lia. exact Hprev.
Qed.

Lemma allDigits_get (ns : string) (i : nat) :
  allDigits ns = true -> (i < String.length ns)%nat -> byteIs isDigit ns i = true.
Proof.
  revert i. induction ns as [|a ns IH]; intros i Hall Hi; [cbn in Hi; lia|].
  cbn in Hall. apply andb_true_iff in Hall as [Ha Hall].
  destruct i as [|i]; [exact Ha|]. cbn in Hi. apply (IH i Hall). lia.
Qed.

Lemma digit_not_n (c : ascii) : isDigit c = true -> Ascii.eqb "n" c = false.
Proof.
  intros H. destruct (Ascii.eqb_spec "n" c) as [<-|]; [discriminate H|reflexivity].
Qed.

Lemma length_append (s t : string) :
  String.length (s +:+ t) = (String.length s + String.length t)%nat.
Proof. induction s as [|a s IH]; [reflexivity|]. cbn. rewrite IH. reflexivity. Qed.

Lemma extractNVMeControllerFrom_complete (controller ns : string) (k : nat) :
  byteIs isDigit controller (String.length controller - 1) = true ->
  ns <> "" -> allDigits ns = true -> (k <= String.length ns)%nat ->
  extractNVMeControllerFrom (controller +:+ String "n" ns) (String.length controller + k)
  = controller.
Proof.
  intros Hlast Hne Hall. induction k as [|k IH]; intros Hk.
  - rewrite Nat.add_0_r.
    assert (0 < String.length controller)%nat as Hpos.
    { destruct controller; [discriminate Hlast|cbn; lia]. }
    destruct (String.length controller) as [|n] eqn:Hlen; [lia|].
    cbn [extractNVMeControllerFrom].
    assert (byteIs (Ascii.eqb "n") (controller +:+ String "n" ns) (S n) = true) as ->.
    { unfold byteIs. rewrite <- Hlen, get_app_byte. reflexivity. }
    assert (byteIs isDigit (controller +:+ String "n" ns) (S n - 1) = true) as ->.
    { unfold byteIs in Hlast |- *. rewrite get_app_left by lia. exact Hlast. }
    assert ((S n + 1 <? String.length (controller +:+ String "n" ns))%nat = true) as ->.
    { apply Nat.ltb_lt. rewrite length_append, Hlen. cbn [String.length].
      destruct ns; [contradiction|cbn; lia]. }
    assert (byteIs isDigit (controller +:+ String "n" ns) (S n + 1) = true) as ->.
    { unfold byteIs. rewrite <- Hlen, get_app_right. cbn [String.get Nat.add].
      destruct ns as [|d ns']; [contradiction|]. cbn in Hall |- *.
      apply andb_true_iff in Hall as [Hd _]. exact Hd. }
    change (0 <? S n)%nat with true. cbn [andb]. rewrite <- Hlen.
    apply (take_app controller (String "n" ns)).
  - rewrite Nat.add_succ_r. cbn [extractNVMeControllerFrom].
    assert (byteIs (Ascii.eqb "n") (controller +:+ String "n" ns)
              (S (String.length controller + k)) = false) as ->.
    { unfold byteIs.
      replace (S (String.length controller + k)) with (String.length controller + S k)%nat by lia.
      rewrite get_app_right. cbn [String.get].
      pose proof (allDigits_get ns k Hall ltac:(lia)) as Hd. unfold byteIs in Hd.
      destruct (String.get k ns) as [c|]; [|reflexivity]. apply digit_not_n, Hd. }
    cbn [andb]. apply IH. lia.
Qed.

(** [extractNVMeController] answers with the empty string or with a proper
    prefix of the device path: the controller ends in a digit and is
    followed in the path by an [n] and a digit.  On a path that is a
    controller ending in a digit, an [n] and a namespace number, it answers
    with that controller. *)
Theorem extractNVMeController_spec (devicePath : string) :
  (let controller := extractNVMeController devicePath in
   controller = "" \/
   exists d ns,
     devicePath = controller +:+ "n" +:+ String d ns /\ controller <> "" /\ isDigit d = true /\
     byteIs isDigit controller (String.length controller - 1) = true) /\
  (forall controller ns,
     devicePath = controller +:+ "n" +:+ ns ->
     byteIs isDigit controller (String.length controller - 1) = true ->
     ns <> "" -> allDigits ns = true ->
     extractNVMeController devicePath = controller).
Proof.
  split.
  - unfold extractNVMeController. destruct (String.length devicePath); [left; reflexivity|].
    apply extractNVMeControllerFrom_sound.
  - intros controller ns -> Hlast Hne Hall. unfold extractNVMeController.
    change ("n" +:+ ns) with (String "n" ns).
    rewrite length_append. cbn [String.length]. rewrite Nat.add_succ_r.
    apply extractNVMeControllerFrom_complete; auto.
Qed.

Lemma extractNVMeController_spec_witness :
  extractNVMeController "/dev/nvme12n1" = "/dev/nvme12".
Proof.
  apply (extractNVMeController_spec "/dev/nvme12n1") with (ns := "1"); reflexivity || discriminate.
Defined.

(** ** Node: staging an NVMe-oF volume *)

Lemma run_liftNode {W R : Type} (h : Handler StageE W) (p : Prog NodeE R) :
  forall w : W,
    run h (liftNode p) w =
    ((run (restrict h) p w).1, map liftEv (run (restrict h) p w).2).
Proof.
  induction p as [r|X e k IH]; intros w; [reflexivity|].
  cbn [liftNode run]. rewrite IH. reflexivity.
Qed.

Lemma gateEvent_liftEv (tr : list (Event NodeE)) :
  existsb gateEvent (map liftEv tr) = existsb isConnect tr.
Proof.
  induction tr as [|[X e x] tr IH]; [reflexivity|].
  cbn [map existsb liftEv]. rewrite IH. destruct e; reflexivity.
Qed.

Lemma isConnectStep_liftEv (tr : list (Event NodeE)) :
  existsb isConnectStep (map liftEv tr) = existsb isConnect tr.
Proof.
  induction tr as [|[X e x] tr IH]; [reflexivity|].
  cbn [map existsb liftEv]. rewrite IH. destruct e; reflexivity.
Qed.

Lemma liftEv_no_slot (f : Event StageE -> bool) (tr : list (Event NodeE)) :
  (forall X (e : NodeE X) x, f (Ev (onNode e) x) = false) ->
  existsb f (map liftEv tr) = false.
Proof.
  intros Hf. induction tr as [|[X e x] tr IH]; [reflexivity|].
  cbn [map existsb liftEv]. rewrite Hf, IH. reflexivity.
Qed.

Lemma stageNVMeDevice_no_connect {W : Type} (h : Handler NodeE W) (w : W)
    (hasApiClient : bool) (volumeID devicePath stagingTargetPath : string)
    (volumeCapability : VolumeCapability) (isBlockVolume : bool)
    (volumeContext : gmap string string) :
  existsb isConnect (run h (stageNVMeDevice hasApiClient volumeID devicePath stagingTargetPath
                                            volumeCapability isBlockVolume volumeContext) w).2
  = false.
Proof.
  unfold stageNVMeDevice, formatAndMountNVMeDevice, verifyDeviceSize, getExpectedCapacity.
  node_explore h; reflexivity.
Qed.

Lemma healthChecks_quiet {W : Type} (h : Handler StageE W) (devicePath : string) (left : nat) :
  forall w : W, existsb gateEvent (run h (healthChecks devicePath left) w).2 = false.
Proof.
  induction left as [|left' IH]; intros w; [reflexivity|].
  cbn [healthChecks]. generalize (healthCheckAttempts - Z.of_nat left'). intros attempt.
  cbn -[Z.ltb healthCheckAttempts]. answer h.
  destruct (match a with Ok size => 0 <? size | Err _ => false end); [reflexivity|].
  destruct (attempt <? healthCheckAttempts); cbn; [answer h|]; apply IH.
Qed.

Lemma tryReuseExistingConnection_quiet {W : Type} (h : Handler StageE W) (w : W)
    (hasApiClient : bool) (params : nvmeOFConnectionParams) (volumeID stagingTargetPath : string)
    (volumeCapability : VolumeCapability) (isBlockVolume : bool)
    (volumeContext : gmap string string) :
  existsb gateEvent
    (run h (tryReuseExistingConnection hasApiClient params volumeID stagingTargetPath
                                       volumeCapability isBlockVolume volumeContext) w).2
  = false.
Proof.
  unfold tryReuseExistingConnection, rescanNVMeNamespace, verifyDeviceHealthy.
  cbn -[healthChecks stageNVMeDevice extractNVMeController String.eqb Z.to_nat].
  answer h. destruct a as [devicePath|[[|] e]];
    cbn -[healthChecks stageNVMeDevice extractNVMeController String.eqb Z.to_nat];
    [|reflexivity|reflexivity].
  destruct (String.eqb devicePath ""); [reflexivity|].
  rewrite run_mbind. cbv zeta. cbn [fst snd].
  rewrite existsb_app. apply orb_false_iff. split.
  { destruct (String.eqb (extractNVMeController devicePath) ""); [reflexivity|].
    cbn. answer h. destruct a; reflexivity. }
  rewrite run_mbind. cbv zeta. cbn [fst snd].
  rewrite existsb_app. apply orb_false_iff. split; [apply healthChecks_quiet|].
  destruct (run h (healthChecks _ _) _).1.1; cbn -[stageNVMeDevice].
  - rewrite run_mbind. cbv zeta. cbn [fst snd]. rewrite existsb_app, run_liftNode. cbn [snd].
    rewrite gateEvent_liftEv, stageNVMeDevice_no_connect.
    cbn -[stageNVMeDevice]. destruct (run _ (stageNVMeDevice _ _ _ _ _ _ _) _).1.1; reflexivity.
  - reflexivity.
Qed.

Lemma existsb_weaker {A : Type} (f g : A -> bool) (l : list A) :
  (forall x, f x = true -> g x = true) -> existsb g l = false -> existsb f l = false.
Proof.
  intros Hfg. induction l as [|x l IH]; [reflexivity|]. cbn [existsb].
  intros H. apply orb_false_iff in H as [Hx Hl]. rewrite (IH Hl).
  destruct (f x) eqn:Hf; [rewrite (Hfg x Hf) in Hx; discriminate Hx|reflexivity].
Qed.

Lemma filter_nil_of_existsb {A : Type} (f : A -> bool) (l : list A) :
  existsb f l = false -> List.filter f l = [].
Proof.
  induction l as [|x l IH]; [reflexivity|]. cbn [existsb List.filter].
  intros H. apply orb_false_iff in H as [-> Hl]. apply IH, Hl.
Qed.

Lemma validateNVMeOFParams_code (volumeContext : gmap string string) (c : codes.Code) :
  validateNVMeOFParams volumeContext = Err c -> c = codes.InvalidArgument.
Proof.
  unfold validateNVMeOFParams. destruct (_ || _); [|discriminate].
  intros H. injection H as <-. reflexivity.
Qed.

Ltac gate_facts Hg :=
  let H := fresh "Hquiet" in
  pose proof (existsb_weaker isConnectStep gateEvent _
                ltac:(intros [? e ?]; destruct e as [? e'| | | | | |];
                        try discriminate; destruct e'; cbn; congruence) Hg) as H;
  let H := fresh "Hquiet" in
  pose proof (existsb_weaker slotTaken gateEvent _
                ltac:(intros [? e ?]; destruct e; cbn; congruence) Hg) as H;
  let H := fresh "Hquiet" in
  pose proof (existsb_weaker slotDenied gateEvent _
                ltac:(intros [? e ?]; destruct e; cbn; congruence) Hg) as H;
  let H := fresh "Hquiet" in
  pose proof (existsb_weaker isRelease gateEvent _
                ltac:(intros [? e ?]; destruct e; cbn; congruence) Hg) as H;
  let H := fresh "Hquiet" in
  pose proof (existsb_weaker cliMissing gateEvent _
                ltac:(intros [? e ?]; destruct e; cbn; congruence) Hg) as H.

(** [stageNVMeOFVolume] rejects a volume context without NQN or server
    before doing anything.  It connects to the target only after the nvme
    tool was found and a slot of the connect semaphore was taken; a slot
    that was taken is given back exactly once, as the last step; without
    a slot nothing is given back.  Waiting for a slot until the context is
    done fails with DeadlineExceeded, a missing nvme tool with
    FailedPrecondition. *)
Theorem stageNVMeOFVolume_gate {W : Type} (h : Handler StageE W) (w : W)
    (hasApiClient : bool) (volumeID stagingTargetPath : string)
    (volumeCapability : VolumeCapability) (volumeContext : gmap string string) :
  let out := run h (stageNVMeOFVolume hasApiClient volumeID stagingTargetPath volumeCapability
                                      volumeContext) w in
  (forall c, validateNVMeOFParams volumeContext = Err c ->
     out = (Err codes.InvalidArgument, w, [])) /\
  (existsb isConnectStep out.2 = true ->
     existsb slotTaken out.2 = true /\ existsb cliMissing out.2 = false) /\
  (existsb slotTaken out.2 = true ->
     List.last (map isRelease out.2) false = true /\
     length (List.filter isRelease out.2) = 1%nat) /\
  (existsb slotTaken out.2 = false -> existsb isRelease out.2 = false) /\
  (existsb slotDenied out.2 = true -> out.1.1 = Err codes.DeadlineExceeded) /\
  (existsb cliMissing out.2 = true -> out.1.1 = Err codes.FailedPrecondition).
Proof.
  intros out. subst out. unfold stageNVMeOFVolume.
  pose proof (validateNVMeOFParams_code volumeContext) as Hv.
  destruct (validateNVMeOFParams volumeContext) as [params|c].
  2:{ rewrite (Hv c eq_refl). cbn. repeat split; intros; try discriminate; reflexivity. }
  clear Hv. split; [discriminate|].
  rewrite run_mbind. cbv zeta.
  pose proof (tryReuseExistingConnection_quiet h w hasApiClient params volumeID
                stagingTargetPath volumeCapability (GetBlock volumeCapability) volumeContext)
    as Hg.
  destruct (run h (tryReuseExistingConnection _ _ _ _ _ _ _) w) as [[reused w1] tr1].
  cbn [fst snd] in Hg |- *. gate_facts Hg.
  destruct reused as [[resp|]|c]; cbn -[connectAndStageDevice].
  1,3: rewrite app_nil_r; repeat split; intros; congruence.
  answer h. destruct a as [e|]; cbn -[connectAndStageDevice].
  { rewrite !existsb_app. cbn. rewrite Hquiet, Hquiet0, Hquiet1, Hquiet2, Hquiet3.
    repeat split; intros; try discriminate; reflexivity. }
  answer h. destruct a as [e|]; cbn -[connectAndStageDevice].
  { rewrite !existsb_app. cbn. rewrite Hquiet, Hquiet0, Hquiet1, Hquiet2, Hquiet3.
    repeat split; intros; try discriminate; reflexivity. }
  unfold defer. rewrite run_mbind, run_liftNode. cbv zeta. cbn -[connectAndStageDevice].
  answer h.
  set (tr := (run (restrict h) (connectAndStageDevice _ _ _ _ _ _ _) _).2).
  assert (existsb slotTaken (map liftEv tr) = false) as Hs1
    by (apply liftEv_no_slot; reflexivity).
  assert (existsb slotDenied (map liftEv tr) = false) as Hs2
    by (apply liftEv_no_slot; reflexivity).
  assert (existsb isRelease (map liftEv tr) = false) as Hs3
    by (apply liftEv_no_slot; reflexivity).
  assert (existsb cliMissing (map liftEv tr) = false) as Hs4
    by (apply liftEv_no_slot; reflexivity).
  rewrite !existsb_app. cbn [existsb slotTaken slotDenied isRelease cliMissing isConnectStep].
  rewrite !existsb_app. cbn [existsb slotTaken slotDenied isRelease cliMissing isConnectStep].
  rewrite Hquiet, Hquiet0, Hquiet1, Hquiet2, Hquiet3, Hs1, Hs2, Hs3, Hs4.
  cbn [orb]. rewrite ?orb_true_r, ?orb_false_r.
  repeat split; intros; try discriminate; try reflexivity.
  - match goal with
    | |- context [(?l1 ++ ?x :: ?y :: ?l2 ++ [?z])%list] =>
        replace (l1 ++ x :: y :: l2 ++ [z])%list with ((l1 ++ x :: y :: l2) ++ [z])%list
          by (rewrite <- app_assoc; reflexivity)
    end.
    rewrite map_app. cbn [map]. rewrite last_last. reflexivity.
  - rewrite !List.filter_app. cbn [List.filter isRelease].
    rewrite !List.filter_app. cbn [List.filter isRelease].
    rewrite (filter_nil_of_existsb _ _ Hquiet2), (filter_nil_of_existsb _ _ Hs3). reflexivity.
Qed.

Lemma stageNVMeOFVolume_gate_witness :
  let out := run (stagingHost false)
               (stageNVMeOFVolume false "pvc-1" "/var/lib/kubelet/staging/pvc-1" ext4Mount
                                  oneGiBVolume) tt in
  existsb isConnectStep out.2 = true /\
  existsb slotTaken out.2 = true /\ existsb cliMissing out.2 = false /\
  List.last (map isRelease out.2) false = true /\
  length (List.filter isRelease out.2) = 1%nat.
Proof.
  pose proof (stageNVMeOFVolume_gate (stagingHost false) tt false "pvc-1"
                "/var/lib/kubelet/staging/pvc-1" ext4Mount oneGiBVolume)
    as (_ & Hconnect & Hslot & _).
  assert (existsb isConnectStep
            (run (stagingHost false)
               (stageNVMeOFVolume false "pvc-1" "/var/lib/kubelet/staging/pvc-1" ext4Mount
                                  oneGiBVolume) tt).2 = true) as H
    by (vm_compute; reflexivity).
  destruct (Hconnect H) as [Htaken Hcli]. destruct (Hslot Htaken) as [Hlast Hone].
  auto.
Defined.

Lemma healthChecks_spec {W : Type} (h : Handler StageE W) (devicePath : string) (left : nat) :
  (left <= 5)%nat ->
  forall w : W,
    let out := run h (healthChecks devicePath left) w in
    out.1.1 = existsb positiveRead out.2 /\
    (length (List.filter isSizeRead out.2) <= left)%nat /\
    (0 < left -> length (List.filter isShortSleep out.2) < length (List.filter isSizeRead out.2))%nat /\
    (left = 0%nat -> out.2 = []) /\
    (out.1.1 = false ->
       length (List.filter isSizeRead out.2) = left /\
       length (List.filter isShortSleep out.2) = (left - 1)%nat).
Proof.
  induction left as [|left' IH]; intros Hle w out; subst out.
  { cbn. repeat split; intros; try reflexivity; lia. }
  cbn [healthChecks].
  assert ((healthCheckAttempts - Z.of_nat left' <? healthCheckAttempts) = (0 <? left')%nat)
    as ->.
  { unfold healthCheckAttempts. destruct left' as [|n]; [reflexivity|].
    apply Z.ltb_lt. lia. }
  cbn -[Z.ltb healthChecks positiveRead]. answer h.
  assert (forall b : bool,
            b = match a with Ok size => 0 <? size | Err _ => false end ->
            positiveRead (Ev (onNode (getBlockDeviceSize devicePath)) a) = b) as Hread
    by (intros b ->; reflexivity).
  destruct (match a with Ok size => 0 <? size | Err _ => false end) eqn:Hpos;
    specialize (Hread _ eq_refl).
  - cbn -[Z.ltb positiveRead]. rewrite Hread. cbn.
    repeat split; intros; try discriminate; lia.
  - destruct left' as [|n].
    + cbn -[Z.ltb positiveRead]. rewrite Hread. cbn.
      repeat split; intros; try discriminate; lia.
    + cbn -[Z.ltb healthChecks positiveRead]. answer h.
      specialize (IH ltac:(lia) w1). cbv zeta in IH.
      destruct IH as (Hres & Hreads & Hsleeps & _ & Hfail).
      cbn -[Z.ltb healthChecks positiveRead]. rewrite Hread.
      change (positiveRead (Ev (sleepMillis 500) a0)) with false. cbn [orb].
      repeat split; intros; try discriminate; try lia; auto.
      * destruct (Hfail ltac:(assumption)) as [Hr Hs]. lia.
      * destruct (Hfail ltac:(assumption)) as [Hr Hs]. lia.
Qed.

(** [verifyDeviceHealthy] reads the size of the device at most five times
    and answers true exactly when a read gave a positive size, which ends
    the check.  It sleeps half a second between two reads and not after the
    last one: a check that fails has read five times and slept four
    times. *)
Theorem verifyDeviceHealthy_spec {W : Type} (h : Handler StageE W) (w : W)
    (devicePath : string) :
  let out := run h (verifyDeviceHealthy devicePath) w in
  out.1.1 = existsb positiveRead out.2 /\
  (length (List.filter isSizeRead out.2) <= 5)%nat /\
  (length (List.filter isShortSleep out.2) < length (List.filter isSizeRead out.2))%nat /\
  (out.1.1 = false ->
     length (List.filter isSizeRead out.2) = 5%nat /\
     length (List.filter isShortSleep out.2) = 4%nat).
Proof.
  intros out. subst out. unfold verifyDeviceHealthy.
  change (Z.to_nat healthCheckAttempts) with 5%nat.
  destruct (healthChecks_spec h devicePath 5 ltac:(lia) w) as (H1 & H2 & H3 & _ & H5).
  repeat split; auto; try (apply H3; lia); apply H5; assumption.
Qed.
